(** * kripo: three-point pharmacophore fingerprints

    A shallow embedding of [kripo/fingerprint/threepoint.py]
    ([fuzzy_offsets], [calculate_distance_matrix], [from_pharmacophore])
    and of [kripo/fragment.py] ([is_residue_nearby], [Fragment.atom_names],
    [Fragment.atoms], [Fragment.site]), and the properties of the
    fingerprint encoder and of the binding site.

    Conventions of the embedding.
    - A Python [str] is the list of its code points ([pystr]); a
      one-character string such as a feature tag is a single code point
      ([char]).  [chr] raises [ValueError] outside [range(0x110000)].
    - A raised exception is the left summand of [M]; statements are
      sequenced with [x <- m ;; k], so the first exception raised is the
      one returned.
    - [for x in xs: body] is [for_ xs body], threading the variables the
      body assigns to; [continue] returns them unchanged.
    - List indices are [nat]; [range(lo, hi)] over indices is [range lo hi],
      which is empty when [hi <= lo] exactly as in Python (truncated
      subtraction is only ever applied where Python's range is empty too).
      Bin indices and fuzzy offsets are [Z], since offsets are negative.
    - The set [bits] and the returned [intbitset] are a [gset N]; the
      dictionary [BIT_INFO] is a [gmap pystr N].  The constructor
      [intbitset], of the library of that name, raises [ValueError] for a
      number that an intbitset cannot hold.
    - [self.parent.model()] is [None] for a parent that is in no model; a
      method call on [None] raises [AttributeError]. *)

From Stdlib Require Import ZArith NArith List Ascii String.
From stdpp Require Import base tactics option list list_numbers sorting strings gmap sets.

Local Open Scope Z_scope.

(** ** Python values *)

Abbreviation char := N (only parsing).
Abbreviation pystr := (list N) (only parsing).

(** [ord] of a character literal. *)
Definition ord (c : ascii) : char := N_of_ascii c.

(** The code points of a literal, to write dictionary keys. *)
Fixpoint str (s : string) : pystr :=
  match s with
  | EmptyString => []
  | String c s' => ord c :: str s'
  end.

Inductive exn : Type :=
  | KeyError (key : pystr)
  | ValueError (msg : string)
  | IndexError
  | AttributeError.

Definition M (A : Type) : Type := (exn + A)%type.

Definition ret {A} (x : A) : M A := inr x.
Definition raise {A} (e : exn) : M A := inl e.
Definition bind {A B} (m : M A) (k : A -> M B) : M B :=
  match m with
  | inl e => inl e
  | inr x => k x
  end.

Notation "x <- m ;; k" := (bind m (fun x => k))
  (at level 20, m at level 99, k at level 200, only parsing).

Fixpoint for_ {A S} (xs : list A) (body : A -> S -> M S) (s : S) : M S :=
  match xs with
  | [] => ret s
  | x :: xs' => s' <- body x s ;; for_ xs' body s'
  end.

(** [range(lo, hi)] over list indices. *)
Definition range (lo hi : nat) : list nat := seq lo (hi - lo).

(** [range(lo, hi)] over integers. *)
Definition rangeZ (lo hi : Z) : list Z := seqZ lo (hi - lo).

(** [l[i]] for a non-negative index. *)
Definition getitem {A} (l : list A) (i : nat) : M A :=
  match l !! i with
  | Some x => ret x
  | None => raise IndexError
  end.

(** [chr(n)]. *)
Definition chr (n : Z) : M char :=
  if decide (0 <= n < 1114112) then ret (Z.to_N n)
  else raise (ValueError "chr() arg not in range(0x110000)").

(** [sorted(l, key=key)] and [l.sort(key=key)]: Python's sort is stable
    and compares keys with [<] only.  Every stable sort returns the same
    list, so insertion sort stands for it: an element is placed after the
    elements to its right whose key is strictly smaller. *)
Section Sorted.
Context {A K : Type} (lt : K -> K -> bool) (key : A -> K).

Fixpoint insert_by (x : A) (l : list A) : list A :=
  match l with
  | [] => [x]
  | y :: l' => if lt (key y) (key x) then y :: insert_by x l' else x :: y :: l'
  end.

Definition sorted (l : list A) : list A := foldr insert_by [] l.
End Sorted.

(** [intbitset(bits)] for a set of numbers, of the library intbitset (it is
    not part of kripo): the same set.  An intbitset holds the numbers up to
    its [__maxelem__], [2^31 - 1]; for a set with a larger number the
    constructor raises [ValueError] (its message goes on with the cause,
    which is not modelled further). *)
Definition intbitset (bits : gset N) : M (gset N) :=
  if decide (set_Forall (fun i => (i < 2 ^ 31)%N) bits) then ret bits
  else raise (ValueError "retrieving integers from rhs is impossible").

(** ** The module [kripo.fingerprint.threepoint] *)

Module Threepoint.

Inductive FeatureKind : Type := LIPO | POSC | NEGC | HDON | HACC | AROM.

Definition FEATURE2BIT (k : FeatureKind) : char :=
  match k with
  | LIPO => ord "H"
  | POSC => ord "P"
  | NEGC => ord "N"
  | HDON => ord "O"
  | HACC => ord "A"
  | AROM => ord "R"
  end.

(** The dictionaries [{'id': ..., 'bin': ...}] of the triple loop. *)
Record obs : Type := Obs { id : char; bin : Z }.

(** Comparison of the sort keys [(d['bin'], ord(d['id']))]: tuples compare
    lexicographically. *)
Definition obs_key (d : obs) : Z * N := (bin d, id d).
Definition key_lt (k1 k2 : Z * N) : bool :=
  (k1.1 <? k2.1) || ((k1.1 =? k2.1) && (k1.2 <? k2.2)%N).

(** ** fuzzy_offsets *)

Definition fuzzy_offsets (fuzzy_factor : Z) : M (list (Z * Z * Z)) :=
  if 0 <=? fuzzy_factor then
    ret (i ← rangeZ (0 - fuzzy_factor) (fuzzy_factor + 1);
         j ← rangeZ (0 - fuzzy_factor) (fuzzy_factor + 1);
         k ← rangeZ (0 - fuzzy_factor) (fuzzy_factor + 1);
         [(i, j, k)])
  else if fuzzy_factor =? -1 then
    ret [(1, 2, 1); (1, 1, -1); (1, -1, -1); (1, 0, -1); (0, -1, -1); (-1, -1, -1); (1, 2, 0)]
  else if fuzzy_factor =? -2 then
    ret [(0, 0, 0); (-1, 0, 0); (1, 0, 0); (0, -1, 0); (0, 1, 0); (0, 0, -1); (0, 0, 1)]
  else raise (ValueError "Invalid fuzzy_factor").

(** ** The encoder

    [Feature] is the class of the structural layer; the encoder uses its
    attribute [kind] and its method [distance] only.  [bin_distance] and
    [calc_bins] live in [kripo.fingerprint.utils] and [load_bitinfo] in
    [kripo.fingerprint.bitinfo]: [bin_distance], the table [BINS] and the
    dictionary [BIT_INFO] are parameters of the development. *)
Section Encoder.
Context {Feature Dist : Type}.
Variable kind : Feature -> FeatureKind.
Variable distance : Feature -> Feature -> Dist.
Variable bin_distance : Dist -> list Dist -> nat.
Variable BINS : list Dist.
Variable BIT_INFO : gmap pystr N.

Definition calculate_distance_matrix (ordered_features : list Feature)
  : M (list (list Dist)) :=
  let n := length ordered_features in
  for_ (range 0 n) (fun i matrix =>
    row <- for_ (range 0 n) (fun j row =>
             fi <- getitem ordered_features i ;;
             fj <- getitem ordered_features j ;;
             let dist := distance fi fj in
             ret (row ++ [dist])) [] ;;
    ret (matrix ++ [row])) [].

(** [BIT_INFO[bit_info]] *)
Definition BIT_INFO_getitem (bit_info : pystr) : M N :=
  match BIT_INFO !! bit_info with
  | Some bit_index => ret bit_index
  | None => raise (KeyError bit_info)
  end.

(** [bit_index = BIT_INFO[bit_info]; bits.add(bit_index)] *)
Definition add_bit (bit_info : pystr) (bits : gset N) : M (gset N) :=
  bit_index <- BIT_INFO_getitem bit_info ;;
  ret (bits ∪ {[bit_index]}).

(** Lines 110-112. *)
Definition pair_fuzzy_factor (fuzzy_factor : Z) : Z :=
  if fuzzy_factor <? 0 then 1 else fuzzy_factor.

(** Body of the loop at lines 125-131. *)
Definition pair_fuzz (nr_bins : Z) (ids : char * char) (bin_id : Z)
    (i : Z) (bits : gset N) : M (gset N) :=
  if (nr_bins <? bin_id + i) || (bin_id + i <? 0) then ret bits
  else
    c <- chr (bin_id + 97 + i) ;;
    let bit_info := [ids.1] ++ [c] ++ [ids.2] in
    add_bit bit_info bits.

(** Body of the loops at lines 113-131. *)
Definition pair_body (ordered_features : list Feature)
    (dist_matrix : list (list Dist)) (nr_bins : Z) (pair_fuzzy_factor : Z)
    (a b : nat) (bits : gset N) : M (gset N) :=
  row <- getitem dist_matrix a ;;
  distance <- getitem row b ;;
  let bin_id := Z.of_nat (bin_distance distance BINS) in
  fa <- getitem ordered_features a ;;
  fb <- getitem ordered_features b ;;
  let ids := (FEATURE2BIT (kind fa), FEATURE2BIT (kind fb)) in
  c <- chr (bin_id + 97) ;;
  let bit_info := [ids.1] ++ [c] ++ [ids.2] in
  bits <- add_bit bit_info bits ;;
  for_ (rangeZ (0 - pair_fuzzy_factor) (pair_fuzzy_factor + 1))
       (pair_fuzz nr_bins ids bin_id) bits.

(** Lines 149-152 and 179-182: the key of three sorted observations. *)
Definition triple_bit_info (distances : list obs) : M pystr :=
  d0 <- getitem distances 0 ;;
  d1 <- getitem distances 1 ;;
  d2 <- getitem distances 2 ;;
  let bit_info := [id d0] ++ [id d1] ++ [id d2] in
  c0 <- chr (bin d0 + 97) ;;
  c1 <- chr (bin d1 + 97) ;;
  c2 <- chr (bin d2 + 97) ;;
  ret (bit_info ++ [c0] ++ [c1] ++ [c2]).

(** Body of the loop at lines 156-184. *)
Definition triple_fuzz (nr_bins : Z) (distances : list obs)
    (offset : Z * Z * Z) (bits : gset N) : M (gset N) :=
  let '(i, j, k) := offset in
  d0 <- getitem distances 0 ;;
  d1 <- getitem distances 1 ;;
  d2 <- getitem distances 2 ;;
  let bin_i := bin d0 + i in
  let bin_j := bin d1 + j in
  let bin_k := bin d2 + k in
  if (nr_bins <=? bin_i) || (bin_i <? 0) ||
     (nr_bins <=? bin_j) || (bin_j <? 0) ||
     (nr_bins <=? bin_k) || (bin_k <? 0) then ret bits
  else
    let fdistances :=
      [ {| id := id d0; bin := bin_i |};
        {| id := id d1; bin := bin_j |};
        {| id := id d2; bin := bin_k |} ] in
    let fdistances := sorted key_lt obs_key fdistances in
    bit_info <- triple_bit_info fdistances ;;
    add_bit bit_info bits.

(** Lines 137-147: the three observations of a triple, sorted. *)
Definition triple_distances (ordered_features : list Feature)
    (dist_matrix : list (list Dist)) (a b c : nat) : M (list obs) :=
  fc <- getitem ordered_features c ;;
  row_a <- getitem dist_matrix a ;;
  dab <- getitem row_a b ;;
  fb <- getitem ordered_features b ;;
  dac <- getitem row_a c ;;
  fa <- getitem ordered_features a ;;
  row_b <- getitem dist_matrix b ;;
  dbc <- getitem row_b c ;;
  let distances :=
    [ {| id := FEATURE2BIT (kind fc); bin := Z.of_nat (bin_distance dab BINS) |};
      {| id := FEATURE2BIT (kind fb); bin := Z.of_nat (bin_distance dac BINS) |};
      {| id := FEATURE2BIT (kind fa); bin := Z.of_nat (bin_distance dbc BINS) |} ] in
  ret (sorted key_lt obs_key distances).

(** Body of the loops at lines 134-184. *)
Definition triple_body (ordered_features : list Feature)
    (dist_matrix : list (list Dist)) (nr_bins : Z)
    (offsets : list (Z * Z * Z)) (a b c : nat) (bits : gset N) : M (gset N) :=
  distances <- triple_distances ordered_features dist_matrix a b c ;;
  bit_info <- triple_bit_info distances ;;
  bits <- add_bit bit_info bits ;;
  for_ offsets (triple_fuzz nr_bins distances) bits.

Definition from_pharmacophore (pharmacophore : list Feature) (subs : bool)
    (fuzzy_factor : Z) : M (gset N) :=
  let ordered_features :=
    sorted N.ltb (fun f => FEATURE2BIT (kind f)) pharmacophore in
  let nr_features := length ordered_features in
  let nr_bins := Z.of_nat (length BINS) in
  dist_matrix <- calculate_distance_matrix ordered_features ;;
  let bits : gset N := ∅ in
  bits <- (if subs then
             for_ ordered_features (fun a bits =>
               let bit_info := [FEATURE2BIT (kind a)] in
               add_bit bit_info bits) bits
           else ret bits) ;;
  bits <- (if subs then
             let pair_fuzzy_factor := pair_fuzzy_factor fuzzy_factor in
             for_ (range 0 (nr_features - 1)) (fun a =>
               for_ (range (a + 1) nr_features) (fun b =>
                 pair_body ordered_features dist_matrix nr_bins
                           pair_fuzzy_factor a b)) bits
           else ret bits) ;;
  offsets <- fuzzy_offsets fuzzy_factor ;;
  bits <- for_ (range 0 (nr_features - 2)) (fun a =>
            for_ (range (a + 1) (nr_features - 1)) (fun b =>
              for_ (range (b + 1) nr_features) (fun c =>
                triple_body ordered_features dist_matrix nr_bins offsets
                            a b c))) bits ;;
  intbitset bits.

End Encoder.

End Threepoint.

Import Threepoint.

(** ** The module [kripo.fragment]

    The atoms, residues and molecules are objects of the libraries atomium
    and RDKit; the module uses the methods below only, which are parameters
    here.  A Python [set] that is iterated is the list of its elements in
    the order of the iteration.  Floats are compared only: [float_lt] is
    [<] on floats, and [a > b] is [float_lt b a]. *)
Module Fragment.

Section Nearby.
Context {Atom Residue Float : Type}.
Variable float_lt : Float -> Float -> bool.
(** The literal [9999.0]. *)
Variable float_9999 : Float.
(** [atom.distance_to(other)] and [residue.atoms()]. *)
Variable distance_to : Atom -> Atom -> Float.
Variable residue_atoms : Residue -> list Atom.

Definition is_residue_nearby (fragment_atoms : list Atom) (residue : Residue)
    (radius : Float) : M bool :=
  let residue_atoms := residue_atoms residue in
  let min_distance := float_9999 in
  if float_lt min_distance radius then
    raise (ValueError "Radius must be smaller than 9999.0")
  else
    min_distance <-
      for_ fragment_atoms (fun fragment_atom =>
        for_ residue_atoms (fun residue_atom min_distance =>
          let dist := distance_to fragment_atom residue_atom in
          if float_lt dist min_distance then ret dist else ret min_distance))
        min_distance ;;
    ret (float_lt min_distance radius).

End Nearby.

(** An atom of the RDKit molecule: [GetPDBResidueInfo()] is [None] or has a
    name ([GetName()]), and [GetSymbol()] is the element. *)
Record rdkit_atom : Type := RdkitAtom { pdb_name : option string; symbol : string }.

(** The result of [site]: the atoms given to [Site], and the atoms, id and
    name given to the [Molecule] that is its ligand. *)
Record Molecule {Atom Ident : Type} `{Countable Atom} : Type :=
  { molecule_atoms : gset Atom; molecule_id : Ident; molecule_name : string }.
Record Site {Atom Ident : Type} `{Countable Atom} : Type :=
  { site_atoms : gset Atom; ligand : @Molecule Atom Ident _ _ }.

Section FragmentClass.
Context {Atom Residue Float Ident : Type} `{Countable Atom}.
Variable float_lt : Float -> Float -> bool.
Variable float_9999 : Float.
Variable distance_to : Atom -> Atom -> Float.
Variable residue_atoms : Residue -> list Atom.
(** [str.strip()], [atom.name()], [atom.element()], [atom.bonded_atoms()]. *)
Variable strip : string -> string.
Variable name : Atom -> string.
Variable element : Atom -> string.
Variable bonded_atoms : Atom -> list Atom.

(** A fragment: of the parent ligand, its atoms ([parent.atoms()]), its
    model ([parent.model()]: [None] for a ligand that is in no model, else
    a model, given by its residues, [model.residues()]), its id and its
    name; of the molecule, its atoms ([molecule.GetAtoms()]). *)
Record Fragment : Type :=
  { parent_atoms : list Atom;
    parent_model : option (list Residue);
    parent_molecule_id : Ident;
    parent_name : string;
    molecule : list rdkit_atom }.

Definition atom_names (self : Fragment) (include_hydrogen : bool) : list string :=
  omap (fun a =>
          match pdb_name a with
          | Some n =>
              if include_hydrogen || negb (String.eqb (symbol a) "H")
              then Some (strip n) else None
          | None => None
          end) (molecule self).

Definition atoms (self : Fragment) : gset Atom :=
  let fragment_names : gset string := list_to_set (atom_names self true) in
  foldl (fun atoms atom =>
           if decide (name atom ∈ fragment_names) then
             foldl (fun atoms bonded_atom =>
                      if String.eqb (element bonded_atom) "H"
                      then atoms ∪ {[bonded_atom]} else atoms)
                   (atoms ∪ {[atom]}) (bonded_atoms atom)
           else atoms)
        ∅ (parent_atoms self).

Definition site (self : Fragment) (radius : Float) : M (@Site Atom Ident _ _) :=
  let fragment_atoms := atoms self in
  residues <- match parent_model self with
              | Some model_residues => ret model_residues
              | None => raise AttributeError
              end ;;
  atoms_of_near_residues <-
    for_ residues (fun residue atoms_of_near_residues =>
      nearby <- is_residue_nearby float_lt float_9999 distance_to residue_atoms
                  (elements fragment_atoms) residue radius ;;
      if nearby : bool
      then ret (atoms_of_near_residues ∪ list_to_set (residue_atoms residue))
      else ret atoms_of_near_residues) ∅ ;;
  let ligand := {| molecule_atoms := fragment_atoms;
                   molecule_id := parent_molecule_id self;
                   molecule_name := parent_name self |} in
  ret {| site_atoms := atoms_of_near_residues; ligand := ligand |}.

End FragmentClass.

End Fragment.

(** * Properties *)

(** ** Sequencing and loops *)

Lemma bind_ret_l {A B} (x : A) (k : A -> M B) : bind (ret x) k = k x.
Proof. reflexivity. Qed.

Lemma bind_inr_inv {A B} (m : M A) (k : A -> M B) (y : B) :
  bind m k = inr y <-> exists x, m = inr x /\ k x = inr y.
Proof.
  destruct m as [e|x]; simpl; split.
  - discriminate.
  - intros (x & Hx & _). discriminate.
  - eauto.
  - intros (x' & [= ->] & Hk). exact Hk.
Qed.

Lemma for_app {A S} (l1 l2 : list A) (body : A -> S -> M S) (s : S) :
  for_ (l1 ++ l2) body s = bind (for_ l1 body s) (for_ l2 body).
Proof.
  revert s. induction l1 as [|x l1 IH]; intros s; simpl; [reflexivity|].
  destruct (body x s) as [e|s']; simpl; [reflexivity|apply IH].
Qed.

Lemma for_ext {A S} (l : list A) (body body' : A -> S -> M S) (s : S) :
  (forall x s', x ∈ l -> body x s' = body' x s') ->
  for_ l body s = for_ l body' s.
Proof.
  revert s. induction l as [|x l IH]; intros s Hb; simpl; [reflexivity|].
  rewrite Hb by left. destruct (body' x s) as [e|s']; simpl; [reflexivity|].
  apply IH. intros y s'' Hy. apply Hb. by right.
Qed.

(** Nested loops run over the flattened list of index tuples. *)
Lemma for_bind {A B S} (l : list A) (g : A -> list B)
    (body : B -> S -> M S) (s : S) :
  for_ (l ≫= g) body s = for_ l (fun x => for_ (g x) body) s.
Proof.
  revert s. induction l as [|x l IH]; intros s; csimpl; [reflexivity|].
  rewrite for_app. destruct (for_ (g x) body s) as [e|s']; simpl; [reflexivity|].
  apply IH.
Qed.

Lemma for_fmap {A B S} (f : A -> B) (l : list A) (body : B -> S -> M S) (s : S) :
  for_ (f <$> l) body s = for_ l (fun x => body (f x)) s.
Proof.
  revert s. induction l as [|x l IH]; intros s; csimpl; [reflexivity|].
  destruct (body (f x) s) as [e|s']; simpl; [reflexivity|apply IH].
Qed.

(** The first failing iteration ends the loop with its exception. *)
Lemma for_raise {A S} (l1 l2 : list A) (x : A) (body : A -> S -> M S)
    (s s1 : S) (e : exn) :
  for_ l1 body s = inr s1 -> body x s1 = inl e ->
  for_ (l1 ++ x :: l2) body s = inl e.
Proof. intros H1 Hx. rewrite for_app, H1. simpl. by rewrite Hx. Qed.

Lemma getitem_Some {A} (l : list A) (i : nat) (x : A) :
  l !! i = Some x -> getitem l i = ret x.
Proof. unfold getitem. by intros ->. Qed.

Lemma elem_of_range (lo hi k : nat) : k ∈ range lo hi <-> (lo <= k < hi)%nat.
Proof. unfold range. rewrite elem_of_seq. lia. Qed.

Lemma elem_of_rangeZ (lo hi k : Z) : k ∈ rangeZ lo hi <-> lo <= k < hi.
Proof. unfold rangeZ. rewrite elem_of_seqZ. lia. Qed.

(** ** The stable sort *)

Section SortedFacts.
Context {A K : Type} (lt : K -> K -> bool) (key : A -> K).

(** [x] may stand before [y]: the key of [y] is not smaller. *)
Definition key_le (x y : A) : Prop := lt (key y) (key x) = false.

Hypothesis lt_asym : forall k1 k2, lt k1 k2 = true -> lt k2 k1 = false.
Hypothesis le_trans : forall k1 k2 k3,
  lt k2 k1 = false -> lt k3 k2 = false -> lt k3 k1 = false.

Lemma insert_by_Permutation (x : A) (l : list A) :
  insert_by lt key x l ≡ₚ x :: l.
Proof.
  induction l as [|y l IH]; simpl; [done|].
  destruct (lt (key y) (key x)); [|done].
  rewrite IH. apply perm_swap.
Qed.

Lemma sorted_Permutation (l : list A) : sorted lt key l ≡ₚ l.
Proof.
  induction l as [|x l IH]; simpl; [done|].
  by rewrite insert_by_Permutation, IH.
Qed.

Lemma length_sorted (l : list A) : length (sorted lt key l) = length l.
Proof. apply Permutation_length, sorted_Permutation. Qed.

Lemma insert_by_StronglySorted (x : A) (l : list A) :
  StronglySorted key_le l -> StronglySorted key_le (insert_by lt key x l).
Proof using lt_asym le_trans.
  induction 1 as [|y l Hl IH Hy]; simpl.
  - repeat constructor.
  - destruct (lt (key y) (key x)) eqn:Hlt.
    + constructor; [exact IH|].
      rewrite insert_by_Permutation. constructor; [|exact Hy].
      unfold key_le. by apply lt_asym.
    + constructor; [by constructor|].
      constructor; [exact Hlt|].
      eapply Forall_impl; [exact Hy|].
      intros z Hz. unfold key_le in *. by eapply le_trans.
Qed.

Lemma sorted_StronglySorted (l : list A) :
  StronglySorted key_le (sorted lt key l).
Proof using lt_asym le_trans.
  induction l as [|x l IH]; simpl; [constructor|].
  by apply insert_by_StronglySorted.
Qed.

(** When the key determines the element, the sorted list depends on the
    elements only, not on their order in the input. *)
Lemma sorted_Permutation_eq (l1 l2 : list A) :
  (forall x y, x ∈ l1 -> y ∈ l1 -> key_le x y -> key_le y x -> x = y) ->
  l1 ≡ₚ l2 -> sorted lt key l1 = sorted lt key l2.
Proof using lt_asym le_trans.
  intros Hanti Hperm.
  apply (StronglySorted_unique_strong key_le).
  - intros x y Hx Hy. apply Hanti.
    + by rewrite sorted_Permutation in Hx.
    + by rewrite sorted_Permutation, <-Hperm in Hy.
  - apply sorted_StronglySorted.
  - apply sorted_StronglySorted.
  - by rewrite !sorted_Permutation.
Qed.

Lemma StronglySorted_lookup_le (l : list A) (i j : nat) (x y : A) :
  StronglySorted key_le l -> (i < j)%nat ->
  l !! i = Some x -> l !! j = Some y -> key_le x y.
Proof.
  intros Hl. revert i j. induction Hl as [|z l Hl IH Hz]; intros i j Hij Hi Hj.
  - by rewrite lookup_nil in Hi.
  - destruct j as [|j]; [lia|]. destruct i as [|i]; simpl in *.
    + injection Hi as ->. rewrite Forall_forall in Hz. apply Hz.
      by eapply list_elem_of_lookup_2.
    + eapply (IH i j); [lia|done..].
Qed.
End SortedFacts.

(** ** The fuzzy offsets *)

(** Lexicographic order on offsets, first component most significant. *)
Definition lex_lt (p q : Z * Z * Z) : Prop :=
  p.1.1 < q.1.1 \/
  (p.1.1 = q.1.1 /\ (p.1.2 < q.1.2 \/ (p.1.2 = q.1.2 /\ p.2 < q.2))).

Lemma StronglySorted_seqZ (m n : Z) : StronglySorted Z.lt (seqZ m n).
Proof.
  destruct (decide (0 <= n)) as [Hn|Hn]; [|rewrite seqZ_nil by lia; constructor].
  revert m. pattern n. apply natlike_ind; [|clear n Hn|exact Hn].
  - intros m. rewrite seqZ_nil by lia. constructor.
  - intros n Hn IH m. rewrite seqZ_cons by lia.
    replace (Z.pred (Z.succ n)) with n by lia.
    constructor; [apply IH|].
    rewrite Forall_forall. intros k Hk. apply elem_of_seqZ in Hk. lia.
Qed.

Lemma StronglySorted_bind {A B} (R1 : relation A) (R2 : relation B)
    (g : A -> list B) (l : list A) :
  StronglySorted R1 l ->
  (forall x, x ∈ l -> StronglySorted R2 (g x)) ->
  (forall x y u v, R1 x y -> u ∈ g x -> v ∈ g y -> R2 u v) ->
  StronglySorted R2 (l ≫= g).
Proof.
  intros Hl Hg Hcross. induction Hl as [|x l Hl IH Hx]; csimpl; [constructor|].
  apply StronglySorted_app_2.
  - intros u v Hu Hv. apply list_elem_of_bind in Hv as (y & Hv & Hy).
    rewrite Forall_forall in Hx. eauto.
  - apply Hg. by left.
  - apply IH. intros y Hy. apply Hg. by right.
Qed.

Lemma length_bind_const {A B} (g : A -> list B) (n : nat) (l : list A) :
  (forall x, x ∈ l -> length (g x) = n) ->
  length (l ≫= g) = (length l * n)%nat.
Proof.
  induction l as [|x l IH]; intros Hg; csimpl; [reflexivity|].
  rewrite length_app, Hg, IH; [reflexivity| |by left].
  intros y Hy. apply Hg. by right.
Qed.

Lemma length_rangeZ (lo hi : Z) : length (rangeZ lo hi) = Z.to_nat (hi - lo).
Proof. apply length_seqZ. Qed.

(** The offsets for [fuzzy_factor >= 0], lines 67-71. *)
Definition cube (f : Z) : list (Z * Z * Z) :=
  i ← rangeZ (0 - f) (f + 1);
  j ← rangeZ (0 - f) (f + 1);
  k ← rangeZ (0 - f) (f + 1);
  [(i, j, k)].

Lemma fuzzy_offsets_cube (f : Z) : 0 <= f -> fuzzy_offsets f = ret (cube f).
Proof.
  intros Hf. unfold fuzzy_offsets.
  destruct (Z.leb_spec 0 f); [reflexivity|lia].
Qed.

Lemma elem_of_cube (f i j k : Z) :
  (i, j, k) ∈ cube f <-> -f <= i <= f /\ -f <= j <= f /\ -f <= k <= f.
Proof.
  unfold cube. rewrite list_elem_of_bind. split.
  - intros (i' & Hin & Hi). apply list_elem_of_bind in Hin as (j' & Hin & Hj).
    apply list_elem_of_bind in Hin as (k' & Hin & Hk).
    apply list_elem_of_singleton in Hin. injection Hin as -> -> ->.
    apply elem_of_rangeZ in Hi, Hj, Hk. lia.
  - intros (Hi & Hj & Hk). exists i. split; [|apply elem_of_rangeZ; lia].
    apply list_elem_of_bind. exists j. split; [|apply elem_of_rangeZ; lia].
    apply list_elem_of_bind. exists k. split; [|apply elem_of_rangeZ; lia].
    by apply list_elem_of_singleton.
Qed.

Lemma cube_sorted (f : Z) : StronglySorted lex_lt (cube f).
Proof.
  unfold cube.
  apply StronglySorted_bind with (R1 := Z.lt); [apply StronglySorted_seqZ| |].
  - intros i _.
    apply StronglySorted_bind with (R1 := Z.lt); [apply StronglySorted_seqZ| |].
    + intros j _.
      apply StronglySorted_bind with (R1 := Z.lt); [apply StronglySorted_seqZ| |].
      * intros k _. repeat constructor.
      * intros k k' u v Hlt Hu Hv.
        apply list_elem_of_singleton in Hu, Hv. subst. unfold lex_lt. simpl. lia.
    + intros j j' u v Hlt Hu Hv.
      apply list_elem_of_bind in Hu as (k & Hu & _).
      apply list_elem_of_bind in Hv as (k' & Hv & _).
      apply list_elem_of_singleton in Hu, Hv. subst. unfold lex_lt. simpl. lia.
  - intros i i' u v Hlt Hu Hv.
    apply list_elem_of_bind in Hu as (j & Hu & _).
    apply list_elem_of_bind in Hu as (k & Hu & _).
    apply list_elem_of_bind in Hv as (j' & Hv & _).
    apply list_elem_of_bind in Hv as (k' & Hv & _).
    apply list_elem_of_singleton in Hu, Hv. subst. unfold lex_lt. simpl. lia.
Qed.

Lemma length_cube (f : Z) : 0 <= f -> Z.of_nat (length (cube f)) = (2 * f + 1) ^ 3.
Proof.
  intros Hf. unfold cube.
  set (w := Z.to_nat (f + 1 - (0 - f))).
  rewrite (length_bind_const _ (w * w)%nat), length_rangeZ.
  - fold w. replace ((2 * f + 1) ^ 3) with ((2 * f + 1) * ((2 * f + 1) * (2 * f + 1))) by ring.
    rewrite !Nat2Z.inj_mul. unfold w. rewrite Z2Nat.id by lia. ring.
  - intros i _. rewrite (length_bind_const _ w), length_rangeZ; [reflexivity|].
    intros j _. rewrite (length_bind_const _ 1%nat), length_rangeZ; [fold w; lia|].
    intros k _. reflexivity.
Qed.

(** C5.  For every [fuzzy_factor >= 0] the generator yields the offsets
    [(i, j, k)] with all three components in [-f .. f], each exactly once and
    in strictly increasing lexicographic order (first component most
    significant, so the outer axis varies slowest): [(2f+1)^3] offsets in
    all.  For [fuzzy_factor = 0] it yields [(0, 0, 0)] alone. *)
Theorem fuzzy_offsets_nonneg (f : Z) (Hf : 0 <= f) :
  (exists offsets,
      fuzzy_offsets f = ret offsets /\
      (forall i j k,
          (i, j, k) ∈ offsets <-> -f <= i <= f /\ -f <= j <= f /\ -f <= k <= f) /\
      StronglySorted lex_lt offsets /\
      Z.of_nat (length offsets) = (2 * f + 1) ^ 3) /\
  fuzzy_offsets 0 = ret [(0, 0, 0)].
Proof.
  split; [|reflexivity].
  exists (cube f). split; [by apply fuzzy_offsets_cube|].
  split; [intros; apply elem_of_cube|].
  split; [apply cube_sorted|by apply length_cube].
Qed.

Example fuzzy_offsets_1 :
  fuzzy_offsets 1 = ret
    [ (-1, -1, -1); (-1, -1, 0); (-1, -1, 1); (-1, 0, -1); (-1, 0, 0); (-1, 0, 1);
      (-1, 1, -1); (-1, 1, 0); (-1, 1, 1); (0, -1, -1); (0, -1, 0); (0, -1, 1);
      (0, 0, -1); (0, 0, 0); (0, 0, 1); (0, 1, -1); (0, 1, 0); (0, 1, 1);
      (1, -1, -1); (1, -1, 0); (1, -1, 1); (1, 0, -1); (1, 0, 0); (1, 0, 1);
      (1, 1, -1); (1, 1, 0); (1, 1, 1) ].
Proof. reflexivity. Qed.

Lemma fuzzy_offsets_nonneg_witness :
  0 <= 1 /\
  (exists offsets,
      fuzzy_offsets 1 = ret offsets /\
      (forall i j k,
          (i, j, k) ∈ offsets <-> -1 <= i <= 1 /\ -1 <= j <= 1 /\ -1 <= k <= 1) /\
      StronglySorted lex_lt offsets /\
      Z.of_nat (length offsets) = (2 * 1 + 1) ^ 3) /\
  fuzzy_offsets 0 = ret [(0, 0, 0)].
Proof. split; [lia|]. apply (fuzzy_offsets_nonneg 1). lia. Defined.

(** C6.  The two legacy modes yield their seven fixed offsets in the order
    of the source, and every other negative [fuzzy_factor] raises
    [ValueError] (once the generator is consumed, as [list(...)] does in
    [from_pharmacophore]). *)
Theorem fuzzy_offsets_negative (f : Z) (Hf : f < -2) :
  fuzzy_offsets (-1) = ret
    [(1, 2, 1); (1, 1, -1); (1, -1, -1); (1, 0, -1); (0, -1, -1); (-1, -1, -1); (1, 2, 0)] /\
  fuzzy_offsets (-2) = ret
    [(0, 0, 0); (-1, 0, 0); (1, 0, 0); (0, -1, 0); (0, 1, 0); (0, 0, -1); (0, 0, 1)] /\
  fuzzy_offsets f = raise (ValueError "Invalid fuzzy_factor").
Proof.
  split; [reflexivity|]. split; [reflexivity|].
  unfold fuzzy_offsets.
  destruct (Z.leb_spec 0 f); [lia|].
  destruct (Z.eqb_spec f (-1)); [lia|].
  destruct (Z.eqb_spec f (-2)); [lia|reflexivity].
Qed.

Lemma fuzzy_offsets_negative_witness :
  -3 < -2 /\
  fuzzy_offsets (-1) = ret
    [(1, 2, 1); (1, 1, -1); (1, -1, -1); (1, 0, -1); (0, -1, -1); (-1, -1, -1); (1, 2, 0)] /\
  fuzzy_offsets (-2) = ret
    [(0, 0, 0); (-1, 0, 0); (1, 0, 0); (0, -1, 0); (0, 1, 0); (0, 0, -1); (0, 0, 1)] /\
  fuzzy_offsets (-3) = raise (ValueError "Invalid fuzzy_factor").
Proof. split; [lia|]. apply (fuzzy_offsets_negative (-3)). lia. Defined.

Lemma fuzzy_offsets_invalid (f : Z) :
  f < -2 -> fuzzy_offsets f = raise (ValueError "Invalid fuzzy_factor").
Proof.
  intros Hf. unfold fuzzy_offsets.
  destruct (Z.leb_spec 0 f); [lia|].
  destruct (Z.eqb_spec f (-1)); [lia|].
  destruct (Z.eqb_spec f (-2)); [lia|reflexivity].
Qed.

(** ** The encoder as a run over key computations *)

(** A loop that appends [f l[i]] at every index builds [map f l]. *)
Lemma for_index_append {A B} (l : list A) (f : A -> B)
    (body : nat -> list B -> M (list B)) (acc : list B) :
  (forall i x acc', l !! i = Some x -> body i acc' = ret (acc' ++ [f x])) ->
  for_ (range 0 (length l)) body acc = ret (acc ++ map f l).
Proof.
  intros Hbody. unfold range. rewrite Nat.sub_0_r.
  enough (forall m k acc', (k + m = length l)%nat ->
            for_ (seq k m) body acc' = ret (acc' ++ map f (drop k l))) as H.
  { rewrite (H (length l) 0%nat acc) by lia. by rewrite drop_0. }
  induction m as [|m IH]; intros k acc' Hk; simpl.
  - rewrite drop_ge by lia. simpl. by rewrite app_nil_r.
  - destruct (lookup_lt_is_Some_2 l k) as [x Hx]; [lia|].
    rewrite (Hbody k x acc' Hx). simpl.
    rewrite IH by lia. rewrite (drop_S l x k Hx). simpl.
    by rewrite <-app_assoc.
Qed.

(** Permutations of short explicit lists: move the head of the left list
    to where it stands in the right one. *)
Lemma perm_move_1 {A} (a u : A) (l l2 : list A) :
  l ≡ₚ u :: l2 -> a :: l ≡ₚ u :: a :: l2.
Proof. intros ->. apply perm_swap. Qed.

Lemma perm_move_2 {A} (a u v : A) (l l2 : list A) :
  l ≡ₚ u :: v :: l2 -> a :: l ≡ₚ u :: v :: a :: l2.
Proof. intros ->. by rewrite (perm_swap u a), (perm_swap v a). Qed.

Lemma perm_move_3 {A} (a u v w : A) (l l2 : list A) :
  l ≡ₚ u :: v :: w :: l2 -> a :: l ≡ₚ u :: v :: w :: a :: l2.
Proof. intros ->. by rewrite (perm_swap u a), (perm_swap v a), (perm_swap w a). Qed.

Ltac solve_perm3 :=
  solve [ repeat first
    [ reflexivity | apply perm_skip | apply perm_move_1 | apply perm_move_2 ] ].

Ltac solve_perm4 :=
  solve [ repeat first
    [ reflexivity | apply perm_skip | apply perm_move_1 | apply perm_move_2
    | apply perm_move_3 ] ].

Section EncoderFacts.
Context {Feature Dist : Type}.
Variable kind : Feature -> FeatureKind.
Variable distance : Feature -> Feature -> Dist.
Variable bin_distance : Dist -> list Dist -> nat.
Variable BINS : list Dist.
Variable BIT_INFO : gmap pystr N.

Local Abbreviation tag x := (FEATURE2BIT (kind x)).
Local Abbreviation bin_of x y := (Z.of_nat (bin_distance (distance x y) BINS)).
Local Abbreviation nr_bins := (Z.of_nat (length BINS)).
Local Abbreviation add_bit := (add_bit BIT_INFO).
Local Abbreviation pair_fuzz := (pair_fuzz BIT_INFO).
Local Abbreviation pair_body := (pair_body kind bin_distance BINS BIT_INFO).
Local Abbreviation triple_fuzz := (triple_fuzz BIT_INFO).
Local Abbreviation triple_distances := (triple_distances kind bin_distance BINS).
Local Abbreviation triple_body := (triple_body kind bin_distance BINS BIT_INFO).
Local Abbreviation calculate_distance_matrix := (calculate_distance_matrix distance).
Local Abbreviation from_pharmacophore :=
  (from_pharmacophore kind distance bin_distance BINS BIT_INFO).
Local Abbreviation ordered P := (sorted N.ltb (fun f => tag f) P).

(** The matrix holds the distance from the row feature to the column
    feature; no index is out of range while it is built. *)
Definition matrix_of (l : list Feature) : list (list Dist) :=
  map (fun x => map (distance x) l) l.

Lemma calculate_distance_matrix_eq (l : list Feature) :
  calculate_distance_matrix l = ret (matrix_of l).
Proof.
  unfold Threepoint.calculate_distance_matrix.
  apply (for_index_append l (fun x => map (distance x) l)).
  intros i x acc Hi.
  rewrite (for_index_append l (distance x)); [reflexivity|].
  intros j y acc' Hj. by rewrite (getitem_Some _ _ _ Hi), (getitem_Some _ _ _ Hj).
Qed.

(** [emit_all items bits] computes each key in turn, looks it up and adds
    its bit, stopping at the first exception. *)
Definition emit_all (items : list (M pystr)) (bits : gset N) : M (gset N) :=
  for_ items (fun mk bits => bit_info <- mk ;; add_bit bit_info bits) bits.

(** The bit of a key computation, when it has one. *)
Definition item_bit (mk : M pystr) : option N :=
  match mk with
  | inl _ => None
  | inr bit_info => BIT_INFO !! bit_info
  end.

Lemma emit_all_nil bits : emit_all [] bits = ret bits.
Proof. reflexivity. Qed.

Lemma emit_all_app items1 items2 bits :
  emit_all (items1 ++ items2) bits = bind (emit_all items1 bits) (emit_all items2).
Proof. apply for_app. Qed.

Lemma emit_all_cons mk items bits :
  emit_all (mk :: items) bits =
  bind (bit_info <- mk ;; add_bit bit_info bits) (emit_all items).
Proof. reflexivity. Qed.

Lemma emit_all_singleton mk bits :
  emit_all [mk] bits = bind mk (fun bit_info => add_bit bit_info bits).
Proof.
  unfold emit_all. simpl. destruct mk as [e|bit_info]; simpl; [reflexivity|].
  by destruct (add_bit bit_info bits).
Qed.

Lemma add_bit_Some bit_info bits i :
  BIT_INFO !! bit_info = Some i -> add_bit bit_info bits = ret (bits ∪ {[i]}).
Proof. unfold Threepoint.add_bit, BIT_INFO_getitem. by intros ->. Qed.

Lemma add_bit_None bit_info bits :
  BIT_INFO !! bit_info = None -> add_bit bit_info bits = raise (KeyError bit_info).
Proof. unfold Threepoint.add_bit, BIT_INFO_getitem. by intros ->. Qed.

(** A loop whose iterations are runs over key computations is the run
    over all of them. *)
Lemma for_emit_all {A} (l : list A) (g : A -> list (M pystr))
    (body : A -> gset N -> M (gset N)) (bits : gset N) :
  (forall x bits', x ∈ l -> body x bits' = emit_all (g x) bits') ->
  for_ l body bits = emit_all (l ≫= g) bits.
Proof.
  intros Hbody. unfold emit_all. rewrite for_bind. by apply for_ext.
Qed.

(** The run succeeds exactly when every key is computed and found, and
    then returns the bits of all of them. *)
Lemma emit_all_inr items bits fp :
  emit_all items bits = inr fp <->
  (forall mk, mk ∈ items -> is_Some (item_bit mk)) /\
  fp = bits ∪ list_to_set (omap item_bit items).
Proof.
  revert bits. induction items as [|mk items IH]; intros bits.
  - simpl. split.
    + intros [= <-]. split; [by intros ? ?%not_elem_of_nil|set_solver].
    + intros [_ ->]. unfold ret. f_equal. set_solver.
  - rewrite emit_all_cons. split.
    + intros H. apply bind_inr_inv in H as (bits' & H1 & H2).
      apply bind_inr_inv in H1 as (bit_info & -> & H1).
      unfold Threepoint.add_bit, BIT_INFO_getitem in H1.
      destruct (BIT_INFO !! bit_info) as [i|] eqn:Hi; [|discriminate].
      injection H1 as <-. apply IH in H2 as [Hall ->]. split.
      * intros mk' [->|Hin]%elem_of_cons; [simpl; rewrite Hi; eauto|by apply Hall].
      * csimpl. rewrite Hi. csimpl. set_solver.
    + intros [Hall ->].
      destruct (Hall mk) as [i Hi]; [by left|].
      destruct mk as [e|bit_info]; [discriminate|]. simpl in Hi.
      simpl. rewrite (add_bit_Some _ _ _ Hi). simpl.
      apply IH. split; [intros; apply Hall; by right|].
      csimpl. rewrite Hi. csimpl. set_solver.
Qed.

(** The result of a successful run depends on the set of key
    computations only. *)
Lemma emit_all_set_equiv items1 items2 bits fp :
  (forall mk, mk ∈ items1 <-> mk ∈ items2) ->
  emit_all items1 bits = inr fp -> emit_all items2 bits = inr fp.
Proof.
  intros Heq [Hall ->]%emit_all_inr. apply emit_all_inr. split.
  - intros mk Hmk. apply Hall, Heq, Hmk.
  - f_equal. apply set_eq. intros i.
    rewrite !elem_of_list_to_set, !list_elem_of_omap.
    split; intros (mk & Hmk & Hi); exists mk; split; try done; by apply Heq.
Qed.

(** The first key that is not in the dictionary ends the run. *)
Lemma emit_all_KeyError pre bit_info post bits :
  (forall mk, mk ∈ pre -> is_Some (item_bit mk)) ->
  BIT_INFO !! bit_info = None ->
  emit_all (pre ++ ret bit_info :: post) bits = raise (KeyError bit_info).
Proof.
  intros Hpre Hnone.
  destruct (emit_all pre bits) as [e|bits'] eqn:Hrun.
  - exfalso. revert bits Hrun. induction pre as [|mk pre IH]; intros bits Hrun.
    + discriminate.
    + rewrite emit_all_cons in Hrun.
      destruct (Hpre mk) as [i Hi]; [by left|].
      destruct mk as [e'|k]; [discriminate|]. simpl in Hi, Hrun.
      rewrite (add_bit_Some _ _ _ Hi) in Hrun. simpl in Hrun.
      eapply IH; [|exact Hrun]. intros; apply Hpre; by right.
  - unfold emit_all in *. eapply for_raise; [exact Hrun|].
    simpl. by apply add_bit_None.
Qed.

(** *** The key computations of one pharmacophore *)

(** The key of a pair with bin [b]: lines 121 and 129. *)
Definition pair_key (tx ty : char) (b : Z) : M pystr :=
  c <- chr (b + 97) ;; ret [tx; c; ty].

(** The keys of the pair [(x, y)], [x] before [y]: the base key, then one
    key for each offset that the bound check lets through. *)
Definition pair_items (pff : Z) (x y : Feature) : list (M pystr) :=
  pair_key (tag x) (tag y) (bin_of x y) ::
  (i ← rangeZ (0 - pff) (pff + 1);
   if (nr_bins <? bin_of x y + i) || (bin_of x y + i <? 0) then []
   else [pair_key (tag x) (tag y) (bin_of x y + i)]).

(** The three observations of the triple [(x, y, z)], before sorting:
    every tag stands with the bin of the opposite side. *)
Definition triple_obs (x y z : Feature) : list obs :=
  [ {| id := tag z; bin := bin_of x y |};
    {| id := tag y; bin := bin_of x z |};
    {| id := tag x; bin := bin_of y z |} ].

(** The perturbed observations for one offset, [None] when the bound
    check discards the offset. *)
Definition perturb (distances : list obs) (offset : Z * Z * Z) : option (list obs) :=
  match distances with
  | [d0; d1; d2] =>
      let '(i, j, k) := offset in
      if (nr_bins <=? bin d0 + i) || (bin d0 + i <? 0) ||
         (nr_bins <=? bin d1 + j) || (bin d1 + j <? 0) ||
         (nr_bins <=? bin d2 + k) || (bin d2 + k <? 0) then None
      else Some [ {| id := id d0; bin := bin d0 + i |};
                  {| id := id d1; bin := bin d1 + j |};
                  {| id := id d2; bin := bin d2 + k |} ]
  | _ => None
  end.

Definition fuzz_items (distances : list obs) (offsets : list (Z * Z * Z))
  : list (M pystr) :=
  offset ← offsets;
  match perturb distances offset with
  | Some fdistances => [triple_bit_info (sorted key_lt obs_key fdistances)]
  | None => []
  end.

Definition triple_items (offsets : list (Z * Z * Z)) (x y z : Feature)
  : list (M pystr) :=
  let distances := sorted key_lt obs_key (triple_obs x y z) in
  triple_bit_info distances :: fuzz_items distances offsets.

Definition single_items (l : list Feature) : list (M pystr) :=
  (fun a => ret [tag a]) <$> l.

Definition pairs_items (pff : Z) (l : list Feature) : list (M pystr) :=
  a ← range 0 (length l - 1);
  b ← range (a + 1) (length l);
  match l !! a, l !! b with
  | Some x, Some y => pair_items pff x y
  | _, _ => []
  end.

Definition triples_items (offsets : list (Z * Z * Z)) (l : list Feature)
  : list (M pystr) :=
  a ← range 0 (length l - 2);
  b ← range (a + 1) (length l - 1);
  c ← range (b + 1) (length l);
  match l !! a, l !! b, l !! c with
  | Some x, Some y, Some z => triple_items offsets x y z
  | _, _, _ => []
  end.

(** All key computations of a call, in the order of the source; an
    invalid [fuzzy_factor] stands where [list(fuzzy_offsets(...))] raises. *)
Definition all_items (l : list Feature) (subs : bool) (fuzzy_factor : Z)
  : list (M pystr) :=
  (if subs then single_items l ++ pairs_items (pair_fuzzy_factor fuzzy_factor) l
   else []) ++
  match fuzzy_offsets fuzzy_factor with
  | inl e => [inl e]
  | inr offsets => triples_items offsets l
  end.

Lemma pair_fuzz_items tx ty b i bits :
  pair_fuzz nr_bins (tx, ty) b i bits =
  emit_all (if (nr_bins <? b + i) || (b + i <? 0) then []
            else [pair_key tx ty (b + i)]) bits.
Proof.
  unfold Threepoint.pair_fuzz.
  destruct ((nr_bins <? b + i) || (b + i <? 0)); [reflexivity|].
  rewrite emit_all_singleton.
  unfold pair_key. replace (b + i + 97) with (b + 97 + i) by lia.
  by destruct (chr (b + 97 + i)).
Qed.

Lemma pair_body_items (l : list Feature) pff a b x y bits :
  l !! a = Some x -> l !! b = Some y ->
  pair_body l (matrix_of l) nr_bins pff a b bits =
  emit_all (pair_items pff x y) bits.
Proof.
  intros Ha Hb. unfold Threepoint.pair_body, pair_items, matrix_of.
  rewrite (getitem_Some _ a (map (distance x) l))
    by (by rewrite list_lookup_fmap, Ha). simpl.
  rewrite (getitem_Some _ b (distance x y))
    by (by rewrite list_lookup_fmap, Hb). simpl.
  rewrite (getitem_Some _ _ _ Ha), (getitem_Some _ _ _ Hb). simpl.
  rewrite emit_all_cons. unfold pair_key.
  destruct (chr (bin_of x y + 97)) as [e|c]; simpl; [reflexivity|].
  destruct (add_bit _ bits) as [e|bits']; simpl; [reflexivity|].
  apply for_emit_all. intros i bits'' _. apply pair_fuzz_items.
Qed.

Lemma sorted_three (d0 d1 d2 : obs) :
  exists e0 e1 e2, sorted key_lt obs_key [d0; d1; d2] = [e0; e1; e2].
Proof.
  pose proof (Permutation_length (insert_by_Permutation key_lt obs_key d0
    (sorted key_lt obs_key [d1; d2]))) as Hlen.
  pose proof (Permutation_length (insert_by_Permutation key_lt obs_key d1
    (sorted key_lt obs_key [d2]))) as Hlen'.
  change (sorted key_lt obs_key [d0; d1; d2])
    with (insert_by key_lt obs_key d0 (sorted key_lt obs_key [d1; d2])).
  change (sorted key_lt obs_key [d1; d2])
    with (insert_by key_lt obs_key d1 (sorted key_lt obs_key [d2])) in *.
  destruct (insert_by _ _ d0 _) as [|e0 [|e1 [|e2 [|e3 r]]]];
    simpl in Hlen, Hlen'; try lia.
  by exists e0, e1, e2.
Qed.

Lemma triple_fuzz_items distances offset bits :
  length distances = 3%nat ->
  triple_fuzz nr_bins distances offset bits =
  emit_all (match perturb distances offset with
            | Some fdistances => [triple_bit_info (sorted key_lt obs_key fdistances)]
            | None => []
            end) bits.
Proof.
  intros Hlen.
  destruct distances as [|d0 [|d1 [|d2 [|d3 r]]]]; try discriminate.
  destruct offset as [[i j] k]. unfold Threepoint.triple_fuzz, perturb.
  simpl getitem. simpl bind.
  destruct ((nr_bins <=? bin d0 + i) || (bin d0 + i <? 0) ||
            (nr_bins <=? bin d1 + j) || (bin d1 + j <? 0) ||
            (nr_bins <=? bin d2 + k) || (bin d2 + k <? 0)); [reflexivity|].
  by rewrite emit_all_singleton.
Qed.

Lemma triple_body_items (l : list Feature) offsets a b c x y z bits :
  l !! a = Some x -> l !! b = Some y -> l !! c = Some z ->
  triple_body l (matrix_of l) nr_bins offsets a b c bits =
  emit_all (triple_items offsets x y z) bits.
Proof.
  intros Ha Hb Hc.
  unfold Threepoint.triple_body, Threepoint.triple_distances, triple_items, matrix_of.
  rewrite (getitem_Some _ _ _ Hc). simpl.
  rewrite (getitem_Some _ a (map (distance x) l))
    by (by rewrite list_lookup_fmap, Ha). simpl.
  rewrite (getitem_Some _ b (distance x y))
    by (by rewrite list_lookup_fmap, Hb). simpl.
  rewrite (getitem_Some _ _ _ Hb). simpl.
  rewrite (getitem_Some _ c (distance x z))
    by (by rewrite list_lookup_fmap, Hc). simpl.
  rewrite (getitem_Some _ _ _ Ha). simpl.
  rewrite (getitem_Some _ b (map (distance y) l))
    by (by rewrite list_lookup_fmap, Hb). simpl.
  rewrite (getitem_Some _ c (distance y z))
    by (by rewrite list_lookup_fmap, Hc). simpl.
  fold (triple_obs x y z).
  rewrite emit_all_cons.
  destruct (triple_bit_info _) as [e|bit_info]; simpl; [reflexivity|].
  destruct (add_bit _ bits) as [e|bits']; simpl; [reflexivity|].
  apply for_emit_all. intros offset bits'' _. apply triple_fuzz_items.
  change (length (sorted key_lt obs_key (triple_obs x y z)) = 3%nat).
  by rewrite length_sorted.
Qed.

Lemma singles_loop (l : list Feature) bits :
  for_ l (fun a bits => add_bit [tag a] bits) bits = emit_all (single_items l) bits.
Proof. unfold emit_all, single_items. by rewrite for_fmap. Qed.

Lemma pairs_loop (l : list Feature) pff bits :
  for_ (range 0 (length l - 1)) (fun a =>
    for_ (range (a + 1) (length l)) (fun b =>
      pair_body l (matrix_of l) nr_bins pff a b)) bits =
  emit_all (pairs_items pff l) bits.
Proof.
  unfold pairs_items. apply for_emit_all. intros a bits1 Ha%elem_of_range.
  apply for_emit_all. intros b bits2 Hb%elem_of_range.
  destruct (lookup_lt_is_Some_2 l a) as [x Hx]; [lia|].
  destruct (lookup_lt_is_Some_2 l b) as [y Hy]; [lia|].
  rewrite Hx, Hy. by apply pair_body_items.
Qed.

Lemma triples_loop (l : list Feature) offsets bits :
  for_ (range 0 (length l - 2)) (fun a =>
    for_ (range (a + 1) (length l - 1)) (fun b =>
      for_ (range (b + 1) (length l)) (fun c =>
        triple_body l (matrix_of l) nr_bins offsets a b c))) bits =
  emit_all (triples_items offsets l) bits.
Proof.
  unfold triples_items. apply for_emit_all. intros a bits1 Ha%elem_of_range.
  apply for_emit_all. intros b bits2 Hb%elem_of_range.
  apply for_emit_all. intros c bits3 Hc%elem_of_range.
  destruct (lookup_lt_is_Some_2 l a) as [x Hx]; [lia|].
  destruct (lookup_lt_is_Some_2 l b) as [y Hy]; [lia|].
  destruct (lookup_lt_is_Some_2 l c) as [z Hz]; [lia|].
  rewrite Hx, Hy, Hz. by apply triple_body_items.
Qed.

(** The encoder is the run over the key computations of the features
    sorted by tag, from the empty set, and the conversion of its result to
    an intbitset. *)
Lemma from_pharmacophore_items (P : list Feature) subs f :
  from_pharmacophore P subs f =
  (bits <- emit_all (all_items (ordered P) subs f) ∅ ;; intbitset bits).
Proof.
  unfold Threepoint.from_pharmacophore, all_items.
  rewrite calculate_distance_matrix_eq, bind_ret_l.
  set (l := ordered P). rewrite emit_all_app.
  destruct subs.
  - rewrite emit_all_app, singles_loop.
    destruct (emit_all (single_items l) ∅) as [e|bits1]; [reflexivity|].
    rewrite bind_ret_l, pairs_loop. cbn [bind].
    destruct (emit_all (pairs_items _ l) bits1) as [e|bits2]; [reflexivity|].
    destruct (fuzzy_offsets f) as [e|offsets]; [reflexivity|].
    cbn [bind]. by rewrite triples_loop.
  - rewrite emit_all_nil, !bind_ret_l.
    destruct (fuzzy_offsets f) as [e|offsets]; [reflexivity|].
    cbn [bind]. by rewrite triples_loop.
Qed.

Lemma intbitset_inr (bits fp : gset N) :
  intbitset bits = inr fp <->
  fp = bits /\ set_Forall (fun i => (i < 2 ^ 31)%N) bits.
Proof.
  unfold intbitset. destruct (decide _) as [Hb|Hb].
  - split; [intros [= <-]; done|intros [-> _]; done].
  - split; [discriminate|intros [_ ?]; done].
Qed.

Lemma intbitset_inl (bits : gset N) e :
  intbitset bits = inl e ->
  e = ValueError "retrieving integers from rhs is impossible" /\
  exists i, i ∈ bits /\ (2 ^ 31 <= i)%N.
Proof.
  unfold intbitset. destruct (decide _) as [Hb|Hb]; [discriminate|].
  intros [= <-]. split; [done|].
  apply (not_set_Forall_Exists _) in Hb as (i & Hi & Hbig).
  exists i. split; [done|]. cbn in Hbig. lia.
Qed.

Lemma intbitset_empty : intbitset ∅ = ret ∅.
Proof. apply intbitset_inr. split; [done|]. apply set_Forall_empty. Qed.

Lemma intbitset_singleton (i : N) :
  (i < 2 ^ 31)%N -> intbitset {[i]} = ret {[i]}.
Proof.
  intros Hi. apply intbitset_inr. split; [done|]. by apply set_Forall_singleton.
Qed.

Lemma intbitset_singleton_big (i : N) :
  (2 ^ 31 <= i)%N ->
  intbitset {[i]} = raise (ValueError "retrieving integers from rhs is impossible").
Proof.
  intros Hi. destruct (intbitset {[i]}) as [e|fp] eqn:Hrun.
  - by apply intbitset_inl in Hrun as [-> _].
  - apply intbitset_inr in Hrun as [_ Hall].
    specialize (Hall i (proj2 (elem_of_singleton i i) eq_refl)). simpl in Hall. lia.
Qed.

(** The encoder returns a set exactly when the run over the key
    computations returns it and every number of it is below [2^31]. *)
Lemma from_pharmacophore_inr (P : list Feature) subs f (fp : gset N) :
  from_pharmacophore P subs f = inr fp <->
  emit_all (all_items (ordered P) subs f) ∅ = inr fp /\
  set_Forall (fun i => (i < 2 ^ 31)%N) fp.
Proof.
  rewrite from_pharmacophore_items. split.
  - intros (bits & Hrun & [-> Hall]%intbitset_inr)%bind_inr_inv. done.
  - intros [-> Hall]. cbn [bind]. by apply intbitset_inr.
Qed.

(** *** Order facts for the two sort keys *)

Lemma ltb_asym (k1 k2 : N) : (k1 <? k2)%N = true -> (k2 <? k1)%N = false.
Proof. rewrite N.ltb_lt, N.ltb_ge. lia. Qed.

Lemma ltb_le_trans (k1 k2 k3 : N) :
  (k2 <? k1)%N = false -> (k3 <? k2)%N = false -> (k3 <? k1)%N = false.
Proof. rewrite !N.ltb_ge. lia. Qed.

Lemma key_lt_spec (k1 k2 : Z * N) :
  key_lt k1 k2 = true <-> k1.1 < k2.1 \/ (k1.1 = k2.1 /\ (k1.2 < k2.2)%N).
Proof.
  unfold key_lt.
  rewrite orb_true_iff, andb_true_iff, Z.ltb_lt, Z.eqb_eq, N.ltb_lt. tauto.
Qed.

Lemma key_lt_false (k1 k2 : Z * N) :
  key_lt k1 k2 = false <-> k2.1 < k1.1 \/ (k1.1 = k2.1 /\ (k2.2 <= k1.2)%N).
Proof.
  rewrite <-not_true_iff_false, key_lt_spec. lia.
Qed.

Lemma key_lt_asym (k1 k2 : Z * N) : key_lt k1 k2 = true -> key_lt k2 k1 = false.
Proof. rewrite key_lt_spec, key_lt_false. lia. Qed.

Lemma key_lt_le_trans (k1 k2 k3 : Z * N) :
  key_lt k2 k1 = false -> key_lt k3 k2 = false -> key_lt k3 k1 = false.
Proof. rewrite !key_lt_false. lia. Qed.

(** The sort key of an observation determines it. *)
Lemma obs_key_le_antisym (d e : obs) :
  key_le key_lt obs_key d e -> key_le key_lt obs_key e d -> d = e.
Proof.
  unfold key_le. rewrite !key_lt_false.
  destruct d as [t b], e as [t' b']. simpl. intros H1 H2.
  f_equal; lia.
Qed.

Lemma sorted_obs_Permutation (l1 l2 : list obs) :
  l1 ≡ₚ l2 -> sorted key_lt obs_key l1 = sorted key_lt obs_key l2.
Proof.
  apply sorted_Permutation_eq.
  - apply key_lt_asym.
  - apply key_lt_le_trans.
  - intros d e _ _. apply obs_key_le_antisym.
Qed.

Lemma ordered_Permutation (P : list Feature) : ordered P ≡ₚ P.
Proof. apply sorted_Permutation. Qed.

Lemma ordered_sorted (P : list Feature) (i j : nat) (x y : Feature) :
  (i < j)%nat -> ordered P !! i = Some x -> ordered P !! j = Some y ->
  (tag x <= tag y)%N.
Proof.
  intros Hij Hi Hj. apply N.ltb_ge.
  eapply (StronglySorted_lookup_le N.ltb (fun f => tag f)); [|exact Hij|exact Hi|exact Hj].
  apply sorted_StronglySorted; [apply ltb_asym|apply ltb_le_trans].
Qed.

(** *** Membership in the key computations *)

Lemma elem_of_pairs_items pff (l : list Feature) mk :
  mk ∈ pairs_items pff l <->
  exists a b x y, (a < b)%nat /\ l !! a = Some x /\ l !! b = Some y /\
                  mk ∈ pair_items pff x y.
Proof.
  unfold pairs_items. rewrite list_elem_of_bind. split.
  - intros (a & Hmk & Ha). apply list_elem_of_bind in Hmk as (b & Hmk & Hb).
    apply elem_of_range in Ha, Hb.
    destruct (l !! a) as [x|] eqn:Hx; [|by apply not_elem_of_nil in Hmk].
    destruct (l !! b) as [y|] eqn:Hy; [|by apply not_elem_of_nil in Hmk].
    exists a, b, x, y. repeat split; [lia|done..].
  - intros (a & b & x & y & Hab & Hx & Hy & Hmk).
    pose proof (lookup_lt_Some _ _ _ Hx). pose proof (lookup_lt_Some _ _ _ Hy).
    exists a. split; [|apply elem_of_range; lia].
    apply list_elem_of_bind. exists b. split; [|apply elem_of_range; lia].
    by rewrite Hx, Hy.
Qed.

Lemma elem_of_triples_items offsets (l : list Feature) mk :
  mk ∈ triples_items offsets l <->
  exists a b c x y z, (a < b < c)%nat /\
    l !! a = Some x /\ l !! b = Some y /\ l !! c = Some z /\
    mk ∈ triple_items offsets x y z.
Proof.
  unfold triples_items. rewrite list_elem_of_bind. split.
  - intros (a & Hmk & Ha). apply list_elem_of_bind in Hmk as (b & Hmk & Hb).
    apply list_elem_of_bind in Hmk as (c & Hmk & Hc).
    apply elem_of_range in Ha, Hb, Hc.
    destruct (l !! a) as [x|] eqn:Hx; [|by apply not_elem_of_nil in Hmk].
    destruct (l !! b) as [y|] eqn:Hy; [|by apply not_elem_of_nil in Hmk].
    destruct (l !! c) as [z|] eqn:Hz; [|by apply not_elem_of_nil in Hmk].
    exists a, b, c, x, y, z. repeat split; [lia|lia|done..].
  - intros (a & b & c & x & y & z & Habc & Hx & Hy & Hz & Hmk).
    pose proof (lookup_lt_Some _ _ _ Hx). pose proof (lookup_lt_Some _ _ _ Hy).
    pose proof (lookup_lt_Some _ _ _ Hz).
    exists a. split; [|apply elem_of_range; lia].
    apply list_elem_of_bind. exists b. split; [|apply elem_of_range; lia].
    apply list_elem_of_bind. exists c. split; [|apply elem_of_range; lia].
    by rewrite Hx, Hy, Hz.
Qed.

(** *** Invariance under permutation of the features *)

Section Invariance.
(** The distance between two features does not depend on which of the
    two computes it (the matrix is symmetric). *)
Hypothesis distance_sym : forall x y : Feature, distance x y = distance y x.

Lemma pair_items_sym pff x y :
  tag x = tag y -> pair_items pff x y = pair_items pff y x.
Proof using distance_sym.
  intros Ht. unfold pair_items. by rewrite Ht, (distance_sym x y).
Qed.

Lemma triple_items_obs offsets x y z p q r :
  triple_obs p q r ≡ₚ triple_obs x y z ->
  triple_items offsets p q r = triple_items offsets x y z.
Proof.
  intros Hperm. unfold triple_items.
  by rewrite (sorted_obs_Permutation _ _ Hperm).
Qed.

(** The six orders of three features give the same observations. *)
Lemma triple_obs_perm x y z :
  triple_obs x z y ≡ₚ triple_obs x y z /\
  triple_obs y x z ≡ₚ triple_obs x y z /\
  triple_obs y z x ≡ₚ triple_obs x y z /\
  triple_obs z x y ≡ₚ triple_obs x y z /\
  triple_obs z y x ≡ₚ triple_obs x y z.
Proof using distance_sym.
  unfold triple_obs.
  rewrite !(distance_sym y x), !(distance_sym z x), !(distance_sym z y).
  repeat split; solve_perm3.
Qed.

Lemma pairs_items_incl pff (P P' : list Feature) mk :
  P ≡ₚ P' -> mk ∈ pairs_items pff (ordered P) -> mk ∈ pairs_items pff (ordered P').
Proof using distance_sym.
  intros HP. rewrite !elem_of_pairs_items.
  intros (a & b & x & y & Hab & Hx & Hy & Hmk).
  assert (ordered P ≡ₚ ordered P') as Hperm
    by (by rewrite !ordered_Permutation).
  apply Permutation_inj in Hperm as [_ (f & Hinj & Hf)].
  rewrite Hf in Hx, Hy.
  assert (f a <> f b) as Hne by (intros Heq; apply Hinj in Heq; lia).
  destruct (decide (f a < f b)%nat) as [Hlt|Hge].
  - exists (f a), (f b), x, y. by repeat split.
  - assert (f b < f a)%nat as Hlt by lia.
    assert (tag x = tag y) as Ht.
    { rewrite <-!Hf in Hx, Hy.
      pose proof (ordered_sorted P a b x y Hab Hx Hy).
      rewrite !Hf in Hx, Hy.
      pose proof (ordered_sorted P' (f b) (f a) y x Hlt Hy Hx). lia. }
    exists (f b), (f a), y, x. repeat split; [done..|].
    by rewrite <-pair_items_sym.
Qed.

Lemma triples_items_incl offsets (l l' : list Feature) mk :
  l ≡ₚ l' -> mk ∈ triples_items offsets l -> mk ∈ triples_items offsets l'.
Proof using distance_sym.
  intros Hperm. rewrite !elem_of_triples_items.
  intros (a & b & c & x & y & z & Habc & Hx & Hy & Hz & Hmk).
  apply Permutation_inj in Hperm as [_ (f & Hinj & Hf)].
  rewrite Hf in Hx, Hy, Hz.
  assert (f a <> f b) by (intros Heq; apply Hinj in Heq; lia).
  assert (f a <> f c) by (intros Heq; apply Hinj in Heq; lia).
  assert (f b <> f c) by (intros Heq; apply Hinj in Heq; lia).
  destruct (triple_obs_perm x y z) as (Hp1 & Hp2 & Hp3 & Hp4 & Hp5).
  destruct (decide (f a < f b)%nat), (decide (f b < f c)%nat),
    (decide (f a < f c)%nat); try lia.
  - exists (f a), (f b), (f c), x, y, z. repeat split; [lia|lia|done..].
  - exists (f a), (f c), (f b), x, z, y. repeat split; [lia|lia|done..|].
    by rewrite (triple_items_obs _ _ _ _ _ _ _ Hp1).
  - exists (f c), (f a), (f b), z, x, y. repeat split; [lia|lia|done..|].
    by rewrite (triple_items_obs _ _ _ _ _ _ _ Hp4).
  - exists (f b), (f a), (f c), y, x, z. repeat split; [lia|lia|done..|].
    by rewrite (triple_items_obs _ _ _ _ _ _ _ Hp2).
  - exists (f b), (f c), (f a), y, z, x. repeat split; [lia|lia|done..|].
    by rewrite (triple_items_obs _ _ _ _ _ _ _ Hp3).
  - exists (f c), (f b), (f a), z, y, x. repeat split; [lia|lia|done..|].
    by rewrite (triple_items_obs _ _ _ _ _ _ _ Hp5).
Qed.

Lemma all_items_incl (P P' : list Feature) subs f mk :
  P ≡ₚ P' -> mk ∈ all_items (ordered P) subs f -> mk ∈ all_items (ordered P') subs f.
Proof using distance_sym.
  intros HP. unfold all_items. rewrite !elem_of_app.
  assert (ordered P ≡ₚ ordered P') as Hperm
    by (by rewrite !ordered_Permutation).
  intros [Hsub|Htri].
  - left. destruct subs; [|done].
    apply elem_of_app in Hsub as [Hs|Hp]; apply elem_of_app.
    + left. unfold single_items in *. by rewrite <-Hperm.
    + right. by apply (pairs_items_incl _ P P').
  - right. destruct (fuzzy_offsets f) as [e|offsets]; [done|].
    by apply (triples_items_incl _ (ordered P) (ordered P')).
Qed.

Lemma from_pharmacophore_Permutation (P P' : list Feature) subs f fp :
  P ≡ₚ P' ->
  from_pharmacophore P subs f = inr fp <-> from_pharmacophore P' subs f = inr fp.
Proof using distance_sym.
  intros HP. rewrite !from_pharmacophore_inr.
  split; intros [Hrun Hall]; (split; [|done]); revert Hrun;
    apply emit_all_set_equiv; intros mk; split; apply all_items_incl; done.
Qed.

(** C1.  Encoding a pharmacophore of at least three features and encoding
    any permutation of its feature collection, with the same [subs] and
    [fuzzy_factor], give the same fingerprint: one call returns [fp]
    exactly when the other does (so one raises exactly when the other
    does). *)
Theorem from_pharmacophore_permutation_invariant
    (P P' : list Feature) (subs : bool) (f : Z) (fp : gset N) :
  (3 <= length P)%nat -> P ≡ₚ P' ->
  from_pharmacophore P subs f = inr fp <-> from_pharmacophore P' subs f = inr fp.
Proof using distance_sym. intros _. apply from_pharmacophore_Permutation. Qed.
End Invariance.

(** *** The keys of pairs and triples *)

(** [d] may stand before [e] in ascending [(bin, tag character)] order. *)
Definition obs_le (d e : obs) : Prop :=
  bin d < bin e \/ (bin d = bin e /\ (id d <= id e)%N).

Lemma key_le_obs_le (d e : obs) : key_le key_lt obs_key d e <-> obs_le d e.
Proof. unfold key_le, obs_le. rewrite key_lt_false. simpl. lia. Qed.

(** Sorting three observations rearranges them into ascending order. *)
Lemma sorted_obs_three (o0 o1 o2 : obs) :
  exists d0 d1 d2,
    sorted key_lt obs_key [o0; o1; o2] = [d0; d1; d2] /\
    [d0; d1; d2] ≡ₚ [o0; o1; o2] /\ obs_le d0 d1 /\ obs_le d1 d2.
Proof.
  destruct (sorted_three o0 o1 o2) as (d0 & d1 & d2 & Heq).
  exists d0, d1, d2. split; [exact Heq|].
  split; [rewrite <-Heq; apply sorted_Permutation|].
  pose proof (sorted_StronglySorted key_lt obs_key key_lt_asym key_lt_le_trans
                [o0; o1; o2]) as Hs.
  rewrite Heq in Hs.
  apply StronglySorted_cons in Hs as [H0 Hs].
  apply StronglySorted_cons in Hs as [H1 _].
  apply Forall_cons in H0 as [H01 _]. apply Forall_cons in H1 as [H12 _].
  by rewrite <-!key_le_obs_le.
Qed.

Lemma obs_le_sorted_three (d0 d1 d2 : obs) :
  obs_le d0 d1 -> obs_le d1 d2 -> StronglySorted obs_le [d0; d1; d2].
Proof.
  intros H01 H12.
  assert (obs_le d0 d2) as H02 by (unfold obs_le in *; lia).
  apply SSorted_cons; [apply SSorted_cons; [apply SSorted_cons|]|].
  - apply SSorted_nil.
  - constructor.
  - constructor; [exact H12|constructor].
  - constructor; [exact H01|constructor; [exact H02|constructor]].
Qed.

(** Three observations in ascending order are the sorted list of any
    arrangement of them. *)
Lemma sorted_obs_three_eq (o0 o1 o2 d0 d1 d2 : obs) :
  [d0; d1; d2] ≡ₚ [o0; o1; o2] -> obs_le d0 d1 -> obs_le d1 d2 ->
  sorted key_lt obs_key [o0; o1; o2] = [d0; d1; d2].
Proof.
  intros Hperm H01 H12.
  destruct (sorted_obs_three o0 o1 o2)
    as (e0 & e1 & e2 & Heq & Hperm' & He01 & He12).
  rewrite Heq. apply (StronglySorted_unique_strong obs_le).
  - intros ? ? _ _. rewrite <-!key_le_obs_le. apply obs_key_le_antisym.
  - by apply obs_le_sorted_three.
  - by apply obs_le_sorted_three.
  - by rewrite Hperm', Hperm.
Qed.

Lemma chr_ok (n : Z) : 0 <= n < 1114112 -> chr n = ret (Z.to_N n).
Proof. intros Hn. unfold chr. by rewrite decide_True. Qed.

(** The letter of bin [b]: [chr(b + 97)]. *)
Definition bin_char (b : Z) : char := Z.to_N (b + 97).

Lemma triple_bit_info_ok (d0 d1 d2 : obs) :
  0 <= bin d0 + 97 < 1114112 -> 0 <= bin d1 + 97 < 1114112 ->
  0 <= bin d2 + 97 < 1114112 ->
  triple_bit_info [d0; d1; d2] =
  ret [id d0; id d1; id d2; bin_char (bin d0); bin_char (bin d1); bin_char (bin d2)].
Proof.
  intros H0 H1 H2. unfold triple_bit_info. simpl.
  by rewrite !chr_ok.
Qed.

Lemma triple_fuzz_unfold (d0 d1 d2 : obs) i j k bits :
  triple_fuzz nr_bins [d0; d1; d2] (i, j, k) bits =
  if (nr_bins <=? bin d0 + i) || (bin d0 + i <? 0) ||
     (nr_bins <=? bin d1 + j) || (bin d1 + j <? 0) ||
     (nr_bins <=? bin d2 + k) || (bin d2 + k <? 0) then ret bits
  else
    bit_info <- triple_bit_info
      (sorted key_lt obs_key [ {| id := id d0; bin := bin d0 + i |};
                               {| id := id d1; bin := bin d1 + j |};
                               {| id := id d2; bin := bin d2 + k |} ]) ;;
    add_bit bit_info bits.
Proof. reflexivity. Qed.

(** In a run of key computations that all return their key, the first key
    that the dictionary lacks ends the run. *)
Lemma emit_all_first_absent (items rest : list (M pystr)) key bits :
  (forall mk, mk ∈ items -> exists bit_info, mk = ret bit_info) ->
  ret key ∈ items -> BIT_INFO !! key = None ->
  exists pre k post,
    items = pre ++ ret k :: post /\
    (forall mk, mk ∈ pre -> is_Some (item_bit mk)) /\
    BIT_INFO !! k = None /\
    emit_all (items ++ rest) bits = raise (KeyError k).
Proof.
  intros Hret Hkey Hnone. revert bits.
  induction items as [|mk items IH]; intros bits; [by apply not_elem_of_nil in Hkey|].
  destruct (Hret mk) as [k0 ->]; [by left|].
  destruct (BIT_INFO !! k0) as [i|] eqn:Hk0.
  - apply elem_of_cons in Hkey as [[= ->]|Hkey]; [congruence|].
    destruct (IH (fun mk H => Hret mk (list_elem_of_further _ _ _ H)) Hkey
                (bits ∪ {[i]})) as (pre & k & post & -> & Hpre & Hk & Hrun).
    exists (ret k0 :: pre), k, post. split; [reflexivity|].
    split; [|split; [exact Hk|]].
    + intros mk [->|Hin]%elem_of_cons; [simpl; rewrite Hk0; eauto|by apply Hpre].
    + simpl app. rewrite emit_all_cons. simpl. by rewrite (add_bit_Some _ _ _ Hk0).
  - exists [], k0, items. split; [reflexivity|].
    split; [by intros ? ?%not_elem_of_nil|]. split; [exact Hk0|].
    apply (emit_all_KeyError [] k0 (items ++ rest)); [by intros ? ?%not_elem_of_nil|done].
Qed.

Section Keys.
(** [bin_distance] returns an index of the table or its length, and the
    letters of all these bins are characters. *)
Hypothesis bin_distance_le :
  forall d : Dist, (bin_distance d BINS <= length BINS)%nat.
Hypothesis BINS_chr : nr_bins + 97 < 1114112.

Lemma bin_of_range x y : 0 <= bin_of x y <= nr_bins.
Proof using bin_distance_le.
  pose proof (bin_distance_le (distance x y)). lia.
Qed.

Lemma pair_key_ok tx ty b :
  0 <= b <= nr_bins -> pair_key tx ty b = ret [tx; bin_char b; ty].
Proof using BINS_chr.
  intros Hb. unfold pair_key. rewrite chr_ok by lia. reflexivity.
Qed.

Lemma pair_body_eq (l : list Feature) dm pff a b x y bits :
  calculate_distance_matrix l = ret dm ->
  l !! a = Some x -> l !! b = Some y ->
  pair_body l dm nr_bins pff a b bits =
  (bits' <- add_bit [tag x; bin_char (bin_of x y); tag y] bits ;;
   for_ (rangeZ (0 - pff) (pff + 1))
        (pair_fuzz nr_bins (tag x, tag y) (bin_of x y)) bits').
Proof using bin_distance_le BINS_chr.
  rewrite calculate_distance_matrix_eq. intros [= <-] Ha Hb.
  unfold Threepoint.pair_body, matrix_of.
  rewrite (getitem_Some _ a (map (distance x) l))
    by (by rewrite list_lookup_fmap, Ha). rewrite bind_ret_l.
  rewrite (getitem_Some _ b (distance x y))
    by (by rewrite list_lookup_fmap, Hb). rewrite bind_ret_l.
  rewrite (getitem_Some _ _ _ Ha), bind_ret_l.
  rewrite (getitem_Some _ _ _ Hb), bind_ret_l.
  pose proof (bin_of_range x y).
  rewrite chr_ok by lia. reflexivity.
Qed.

Lemma triple_body_eq (l : list Feature) dm offsets a b c x y z bits :
  calculate_distance_matrix l = ret dm ->
  l !! a = Some x -> l !! b = Some y -> l !! c = Some z ->
  exists d0 d1 d2,
    [d0; d1; d2] ≡ₚ [ {| id := tag x; bin := bin_of y z |};
                      {| id := tag y; bin := bin_of x z |};
                      {| id := tag z; bin := bin_of x y |} ] /\
    obs_le d0 d1 /\ obs_le d1 d2 /\
    triple_body l dm nr_bins offsets a b c bits =
    (bits' <- add_bit [ id d0; id d1; id d2;
                        bin_char (bin d0); bin_char (bin d1); bin_char (bin d2) ]
                      bits ;;
     for_ offsets (triple_fuzz nr_bins [d0; d1; d2]) bits').
Proof using bin_distance_le BINS_chr.
  rewrite calculate_distance_matrix_eq. intros [= <-] Ha Hb Hc.
  destruct (sorted_obs_three
    {| id := tag z; bin := bin_of x y |} {| id := tag y; bin := bin_of x z |}
    {| id := tag x; bin := bin_of y z |}) as (d0 & d1 & d2 & Heq & Hperm & H01 & H12).
  exists d0, d1, d2.
  split; [rewrite Hperm; solve_perm3|]. split; [exact H01|]. split; [exact H12|].
  assert (Forall (fun d => 0 <= bin d <= nr_bins) [d0; d1; d2]) as Hbins.
  { rewrite Hperm. pose proof (bin_of_range x y). pose proof (bin_of_range x z).
    pose proof (bin_of_range y z). repeat constructor; simpl; lia. }
  apply Forall_cons in Hbins as [Hb0 Hbins].
  apply Forall_cons in Hbins as [Hb1 Hbins].
  apply Forall_cons in Hbins as [Hb2 _].
  unfold Threepoint.triple_body, Threepoint.triple_distances, matrix_of.
  rewrite (getitem_Some _ _ _ Hc), bind_ret_l.
  rewrite (getitem_Some _ a (map (distance x) l))
    by (by rewrite list_lookup_fmap, Ha). rewrite bind_ret_l.
  rewrite (getitem_Some _ b (distance x y))
    by (by rewrite list_lookup_fmap, Hb). rewrite bind_ret_l.
  rewrite (getitem_Some _ _ _ Hb), bind_ret_l.
  rewrite (getitem_Some _ c (distance x z))
    by (by rewrite list_lookup_fmap, Hc). rewrite bind_ret_l.
  rewrite (getitem_Some _ _ _ Ha), bind_ret_l.
  rewrite (getitem_Some _ b (map (distance y) l))
    by (by rewrite list_lookup_fmap, Hb). rewrite bind_ret_l.
  rewrite (getitem_Some _ c (distance y z))
    by (by rewrite list_lookup_fmap, Hc). rewrite !bind_ret_l.
  rewrite Heq, triple_bit_info_ok by lia. reflexivity.
Qed.

Lemma triple_fuzz_discard (d0 d1 d2 : obs) i j k bits :
  ~ (0 <= bin d0 + i < nr_bins /\ 0 <= bin d1 + j < nr_bins /\
     0 <= bin d2 + k < nr_bins) ->
  triple_fuzz nr_bins [d0; d1; d2] (i, j, k) bits = ret bits.
Proof.
  intros Hout. rewrite triple_fuzz_unfold.
  destruct (Z.leb_spec nr_bins (bin d0 + i)); [reflexivity|].
  destruct (Z.ltb_spec (bin d0 + i) 0); [reflexivity|].
  destruct (Z.leb_spec nr_bins (bin d1 + j)); [reflexivity|].
  destruct (Z.ltb_spec (bin d1 + j) 0); [reflexivity|].
  destruct (Z.leb_spec nr_bins (bin d2 + k)); [reflexivity|].
  destruct (Z.ltb_spec (bin d2 + k) 0); [reflexivity|].
  lia.
Qed.

Lemma pair_fuzz_keep tx ty b i bits :
  0 <= b + i <= nr_bins ->
  pair_fuzz nr_bins (tx, ty) b i bits = add_bit [tx; bin_char (b + i); ty] bits.
Proof using BINS_chr.
  intros Hb. unfold Threepoint.pair_fuzz.
  destruct (Z.ltb_spec nr_bins (b + i)); [lia|].
  destruct (Z.ltb_spec (b + i) 0); [lia|].
  cbn [orb]. rewrite chr_ok by lia. unfold bin_char.
  by replace (b + 97 + i) with (b + i + 97) by lia.
Qed.

Lemma pair_fuzz_discard tx ty b i bits :
  b + i < 0 \/ nr_bins < b + i ->
  pair_fuzz nr_bins (tx, ty) b i bits = ret bits.
Proof.
  intros Hb. unfold Threepoint.pair_fuzz.
  destruct (Z.ltb_spec nr_bins (b + i)); [reflexivity|].
  destruct (Z.ltb_spec (b + i) 0); [reflexivity|lia].
Qed.
(** Under these bounds [chr] never raises: every key computation of a
    call returns its key, except the place of an invalid [fuzzy_factor]. *)
Lemma pair_items_ret pff x y mk :
  mk ∈ pair_items pff x y -> exists bit_info, mk = ret bit_info.
Proof using bin_distance_le BINS_chr.
  pose proof (bin_of_range x y) as Hb.
  unfold pair_items. intros [->|Hmk]%elem_of_cons.
  - rewrite pair_key_ok by lia. eauto.
  - apply list_elem_of_bind in Hmk as (i & Hmk & _).
    destruct (Z.ltb_spec nr_bins (bin_of x y + i));
      [by apply not_elem_of_nil in Hmk|].
    destruct (Z.ltb_spec (bin_of x y + i) 0);
      [by apply not_elem_of_nil in Hmk|].
    apply list_elem_of_singleton in Hmk as ->.
    rewrite pair_key_ok by lia. eauto.
Qed.

Lemma triple_items_ret offsets x y z mk :
  mk ∈ triple_items offsets x y z -> exists bit_info, mk = ret bit_info.
Proof using bin_distance_le BINS_chr.
  unfold triple_items, triple_obs.
  destruct (sorted_obs_three
    {| id := tag z; bin := bin_of x y |} {| id := tag y; bin := bin_of x z |}
    {| id := tag x; bin := bin_of y z |}) as (d0 & d1 & d2 & Heq & Hperm & _).
  rewrite Heq.
  assert (Forall (fun d => 0 <= bin d <= nr_bins) [d0; d1; d2]) as Hbins.
  { rewrite Hperm. pose proof (bin_of_range x y). pose proof (bin_of_range x z).
    pose proof (bin_of_range y z). repeat constructor; simpl; lia. }
  apply Forall_cons in Hbins as [Hb0 Hbins].
  apply Forall_cons in Hbins as [Hb1 Hbins].
  apply Forall_cons in Hbins as [Hb2 _].
  intros [->|Hmk]%elem_of_cons.
  - rewrite triple_bit_info_ok by lia. eauto.
  - apply list_elem_of_bind in Hmk as ([[i j] k] & Hmk & _).
    unfold perturb in Hmk.
    destruct (Z.leb_spec nr_bins (bin d0 + i)); [by apply not_elem_of_nil in Hmk|].
    destruct (Z.ltb_spec (bin d0 + i) 0); [by apply not_elem_of_nil in Hmk|].
    destruct (Z.leb_spec nr_bins (bin d1 + j)); [by apply not_elem_of_nil in Hmk|].
    destruct (Z.ltb_spec (bin d1 + j) 0); [by apply not_elem_of_nil in Hmk|].
    destruct (Z.leb_spec nr_bins (bin d2 + k)); [by apply not_elem_of_nil in Hmk|].
    destruct (Z.ltb_spec (bin d2 + k) 0); [by apply not_elem_of_nil in Hmk|].
    cbn [orb] in Hmk. apply list_elem_of_singleton in Hmk as ->.
    destruct (sorted_obs_three
      {| id := id d0; bin := bin d0 + i |} {| id := id d1; bin := bin d1 + j |}
      {| id := id d2; bin := bin d2 + k |}) as (e0 & e1 & e2 & Heq' & Hperm' & _).
    rewrite Heq'.
    assert (Forall (fun d => 0 <= bin d < nr_bins) [e0; e1; e2]) as Hbins.
    { rewrite Hperm'. repeat constructor; simpl; lia. }
    apply Forall_cons in Hbins as [He0 Hbins].
    apply Forall_cons in Hbins as [He1 Hbins].
    apply Forall_cons in Hbins as [He2 _].
    rewrite triple_bit_info_ok by lia. eauto.
Qed.

(** The key computations before the place where [fuzzy_offsets] is
    consumed, and after it. *)
Definition key_items (l : list Feature) (subs : bool) (fuzzy_factor : Z)
  : list (M pystr) :=
  (if subs then single_items l ++ pairs_items (pair_fuzzy_factor fuzzy_factor) l
   else []) ++
  match fuzzy_offsets fuzzy_factor with
  | inl e => []
  | inr offsets => triples_items offsets l
  end.

Lemma all_items_key_items l subs f :
  all_items l subs f =
  key_items l subs f ++
  match fuzzy_offsets f with inl e => [inl e] | inr _ => [] end.
Proof.
  unfold all_items, key_items.
  destruct (fuzzy_offsets f); by rewrite <-?app_assoc, ?app_nil_r.
Qed.

Lemma key_items_ret l subs f mk :
  mk ∈ key_items l subs f -> exists bit_info, mk = ret bit_info.
Proof using bin_distance_le BINS_chr.
  unfold key_items. intros [Hsub|Htri]%elem_of_app.
  - destruct subs; [|by apply not_elem_of_nil in Hsub].
    apply elem_of_app in Hsub as [Hs|Hp].
    + apply list_elem_of_fmap in Hs as (a & -> & _). eauto.
    + apply elem_of_pairs_items in Hp as (a & b & x & y & _ & _ & _ & Hmk).
      by eapply pair_items_ret.
  - destruct (fuzzy_offsets f) as [e|offsets]; [by apply not_elem_of_nil in Htri|].
    apply elem_of_triples_items in Htri
      as (a & b & c & x & y & z & _ & _ & _ & _ & Hmk).
    by eapply triple_items_ret.
Qed.

Lemma elem_of_all_items_ret l subs f key :
  ret key ∈ all_items l subs f <-> ret key ∈ key_items l subs f.
Proof.
  rewrite all_items_key_items, elem_of_app. split; [|by left].
  intros [H|H]; [done|].
  destruct (fuzzy_offsets f); [|by apply not_elem_of_nil in H].
  by apply list_elem_of_singleton in H.
Qed.
Lemma fuzzy_offsets_valid (f : Z) :
  -2 <= f -> exists offsets, fuzzy_offsets f = ret offsets.
Proof.
  intros Hf. unfold fuzzy_offsets.
  destruct (Z.leb_spec 0 f); [eauto|].
  destruct (Z.eqb_spec f (-1)); [eauto|].
  destruct (Z.eqb_spec f (-2)); [eauto|lia].
Qed.

Lemma from_pharmacophore_absent (P : list Feature) subs f key :
  ret key ∈ all_items (ordered P) subs f -> BIT_INFO !! key = None ->
  exists pre k post,
    all_items (ordered P) subs f = pre ++ ret k :: post /\
    (forall mk, mk ∈ pre -> is_Some (item_bit mk)) /\
    BIT_INFO !! k = None /\
    from_pharmacophore P subs f = raise (KeyError k).
Proof using bin_distance_le BINS_chr.
  intros Hkey Hnone. apply elem_of_all_items_ret in Hkey.
  rewrite from_pharmacophore_items, all_items_key_items.
  destruct (emit_all_first_absent (key_items (ordered P) subs f)
              (match fuzzy_offsets f with inl e => [inl e] | inr _ => [] end)
              key ∅ (key_items_ret _ _ _) Hkey Hnone)
    as (pre & k & post & Heq & Hpre & Hk & Hrun).
  exists pre, k, (post ++ match fuzzy_offsets f with inl e => [inl e] | inr _ => [] end).
  split; [by rewrite Heq, <-app_assoc|]. split; [done|]. split; [done|].
  by rewrite Hrun.
Qed.

(** The key of three sorted observations: their tags, then the letters of
    their bins. *)
Definition obs_bit_info (distances : list obs) : pystr :=
  (id <$> distances) ++ ((fun d => bin_char (bin d)) <$> distances).

(** *** What a call looks up *)

(** A key of the call is looked up: a fingerprint that the call returns has
    the bit of the key, and the call raises [KeyError] when the dictionary
    lacks the key. *)
Lemma from_pharmacophore_looks_up (P : list Feature) subs f key :
  ret key ∈ all_items (ordered P) subs f ->
  (forall fp, from_pharmacophore P subs f = inr fp ->
     exists n, BIT_INFO !! key = Some n /\ n ∈ fp) /\
  (BIT_INFO !! key = None ->
   exists k, BIT_INFO !! k = None /\
             from_pharmacophore P subs f = raise (KeyError k)).
Proof using bin_distance_le BINS_chr.
  intros Hkey. split.
  - intros fp [[Hall ->]%emit_all_inr _]%from_pharmacophore_inr.
    destruct (Hall _ Hkey) as [n Hn]. exists n. split; [exact Hn|].
    apply elem_of_union. right. apply elem_of_list_to_set, list_elem_of_omap.
    by exists (ret key).
  - intros Hnone.
    destruct (from_pharmacophore_absent P subs f key Hkey Hnone)
      as (pre & k & post & _ & _ & Hk & Hrun). eauto.
Qed.

(** Every bit of a fingerprint is the bit of a key of the call. *)
Lemma from_pharmacophore_bit_origin (P : list Feature) subs f fp n :
  from_pharmacophore P subs f = inr fp -> n ∈ fp ->
  exists key, ret key ∈ all_items (ordered P) subs f /\ BIT_INFO !! key = Some n.
Proof.
  intros [[Hall ->]%emit_all_inr _]%from_pharmacophore_inr.
  rewrite elem_of_union, elem_of_list_to_set, list_elem_of_omap.
  intros [Hn|(mk & Hmk & Hn)]; [by apply not_elem_of_empty in Hn|].
  destruct mk as [e|key]; [discriminate|]. by exists key.
Qed.

(** A call that returns a fingerprint has a valid [fuzzy_factor]. *)
Lemma from_pharmacophore_inr_valid (P : list Feature) subs f fp :
  from_pharmacophore P subs f = inr fp -> -2 <= f.
Proof.
  intros [[Hall _]%emit_all_inr _]%from_pharmacophore_inr.
  destruct (decide (-2 <= f)) as [|Hf]; [done|].
  destruct (Hall (inl (ValueError "Invalid fuzzy_factor"))) as [i Hi];
    [|discriminate].
  unfold all_items. rewrite fuzzy_offsets_invalid by lia.
  apply elem_of_app. right. by left.
Qed.

Lemma pair_fuzzy_factor_nonneg (f : Z) : 0 <= pair_fuzzy_factor f.
Proof. unfold pair_fuzzy_factor. destruct (Z.ltb_spec f 0); lia. Qed.

Lemma single_in_all_items (P : list Feature) f x :
  x ∈ P -> ret [tag x] ∈ all_items (ordered P) true f.
Proof.
  intros Hx. unfold all_items. apply elem_of_app. left. apply elem_of_app. left.
  unfold single_items. apply list_elem_of_fmap. exists x. split; [done|].
  by rewrite (ordered_Permutation P).
Qed.

Lemma pair_base_in_all_items (P : list Feature) f a b x y :
  (a < b)%nat -> ordered P !! a = Some x -> ordered P !! b = Some y ->
  ret [tag x; bin_char (bin_of x y); tag y] ∈ all_items (ordered P) true f.
Proof using bin_distance_le BINS_chr.
  intros Hab Ha Hb. unfold all_items.
  apply elem_of_app. left. apply elem_of_app. right.
  apply elem_of_pairs_items. exists a, b, x, y. repeat split; [done..|].
  unfold pair_items. rewrite pair_key_ok by apply bin_of_range. left.
Qed.

Lemma pair_fuzz_in_all_items (P : list Feature) f a b x y i :
  (a < b)%nat -> ordered P !! a = Some x -> ordered P !! b = Some y ->
  - pair_fuzzy_factor f <= i <= pair_fuzzy_factor f ->
  0 <= bin_of x y + i <= nr_bins ->
  ret [tag x; bin_char (bin_of x y + i); tag y] ∈ all_items (ordered P) true f.
Proof using bin_distance_le BINS_chr.
  intros Hab Ha Hb Hi Hbin. unfold all_items.
  apply elem_of_app. left. apply elem_of_app. right.
  apply elem_of_pairs_items. exists a, b, x, y. repeat split; [done..|].
  unfold pair_items. right. apply list_elem_of_bind. exists i.
  split; [|apply elem_of_rangeZ; lia].
  destruct (Z.ltb_spec nr_bins (bin_of x y + i)); [lia|].
  destruct (Z.ltb_spec (bin_of x y + i) 0); [lia|].
  cbn [orb]. rewrite pair_key_ok by lia. left.
Qed.

(** The keys of a pair are the keys of the offsets within the radius that
    keep the bin between 0 and [len(BINS)]; the base key is the key of the
    offset 0. *)
Lemma elem_of_pair_items_inv f x y mk :
  mk ∈ pair_items (pair_fuzzy_factor f) x y ->
  exists i, - pair_fuzzy_factor f <= i <= pair_fuzzy_factor f /\
            0 <= bin_of x y + i <= nr_bins /\
            mk = ret [tag x; bin_char (bin_of x y + i); tag y].
Proof using bin_distance_le BINS_chr.
  pose proof (bin_of_range x y) as Hb.
  pose proof (pair_fuzzy_factor_nonneg f) as Hpff.
  unfold pair_items. intros [->|Hmk]%elem_of_cons.
  - exists 0. rewrite Z.add_0_r, pair_key_ok by lia. repeat split; lia.
  - apply list_elem_of_bind in Hmk as (i & Hmk & Hi%elem_of_rangeZ).
    destruct (Z.ltb_spec nr_bins (bin_of x y + i));
      [by apply not_elem_of_nil in Hmk|].
    destruct (Z.ltb_spec (bin_of x y + i) 0);
      [by apply not_elem_of_nil in Hmk|].
    apply list_elem_of_singleton in Hmk as ->.
    exists i. rewrite pair_key_ok by lia. repeat split; lia.
Qed.

Lemma triple_obs_sorted (x y z : Feature) (d0 d1 d2 : obs) :
  [d0; d1; d2] ≡ₚ [ {| id := tag x; bin := bin_of y z |};
                    {| id := tag y; bin := bin_of x z |};
                    {| id := tag z; bin := bin_of x y |} ] ->
  obs_le d0 d1 -> obs_le d1 d2 ->
  sorted key_lt obs_key (triple_obs x y z) = [d0; d1; d2].
Proof.
  intros Hperm H01 H12. unfold triple_obs.
  apply sorted_obs_three_eq; [|done..]. rewrite Hperm. solve_perm3.
Qed.

Lemma triple_base_in_all_items (P : list Feature) subs f a b c x y z :
  -2 <= f -> (a < b < c)%nat ->
  ordered P !! a = Some x -> ordered P !! b = Some y -> ordered P !! c = Some z ->
  ret (let ds := sorted key_lt obs_key (triple_obs x y z) in
       (id <$> ds) ++ ((fun d => bin_char (bin d)) <$> ds))
    ∈ all_items (ordered P) subs f.
Proof using bin_distance_le BINS_chr.
  intros Hf Habc Ha Hb Hc. unfold all_items.
  destruct (fuzzy_offsets_valid f Hf) as [offsets ->].
  apply elem_of_app. right.
  apply elem_of_triples_items. exists a, b, c, x, y, z.
  repeat split; [lia|lia|done..|].
  unfold triple_items, triple_obs.
  destruct (sorted_obs_three
    {| id := tag z; bin := bin_of x y |} {| id := tag y; bin := bin_of x z |}
    {| id := tag x; bin := bin_of y z |}) as (d0 & d1 & d2 & Heq & Hperm & _).
  rewrite Heq.
  assert (Forall (fun d => 0 <= bin d <= nr_bins) [d0; d1; d2]) as Hbins.
  { rewrite Hperm. pose proof (bin_of_range x y). pose proof (bin_of_range x z).
    pose proof (bin_of_range y z). repeat constructor; simpl; lia. }
  apply Forall_cons in Hbins as [Hb0 Hbins].
  apply Forall_cons in Hbins as [Hb1 Hbins].
  apply Forall_cons in Hbins as [Hb2 _].
  rewrite triple_bit_info_ok by lia. left.
Qed.

Lemma triple_key_in_all_items (P : list Feature) subs f a b c x y z d0 d1 d2 :
  -2 <= f -> (a < b < c)%nat ->
  ordered P !! a = Some x -> ordered P !! b = Some y -> ordered P !! c = Some z ->
  [d0; d1; d2] ≡ₚ [ {| id := tag x; bin := bin_of y z |};
                    {| id := tag y; bin := bin_of x z |};
                    {| id := tag z; bin := bin_of x y |} ] ->
  obs_le d0 d1 -> obs_le d1 d2 ->
  ret [ id d0; id d1; id d2;
        bin_char (bin d0); bin_char (bin d1); bin_char (bin d2) ]
    ∈ all_items (ordered P) subs f.
Proof using bin_distance_le BINS_chr.
  intros Hf Habc Ha Hb Hc Hperm H01 H12.
  pose proof (triple_base_in_all_items P subs f a b c x y z Hf Habc Ha Hb Hc)
    as Hin.
  by rewrite (triple_obs_sorted x y z d0 d1 d2 Hperm H01 H12) in Hin.
Qed.

(** The bins of three observations that rearrange three others. *)
Lemma obs_three_bins (R : Z -> Prop) (o0 o1 o2 d0 d1 d2 : obs) :
  [d0; d1; d2] ≡ₚ [o0; o1; o2] ->
  R (bin o0) -> R (bin o1) -> R (bin o2) ->
  R (bin d0) /\ R (bin d1) /\ R (bin d2).
Proof.
  intros Hperm H0 H1 H2.
  assert (Forall (fun d => R (bin d)) [d0; d1; d2]) as Hbins.
  { rewrite Hperm. repeat constructor; done. }
  apply Forall_cons in Hbins as [Hb0 Hbins].
  apply Forall_cons in Hbins as [Hb1 Hbins].
  apply Forall_cons in Hbins as [Hb2 _]. done.
Qed.

Lemma triple_fuzz_in_all_items (P : list Feature) subs f offsets
    a b c x y z d0 d1 d2 i j k e0 e1 e2 :
  fuzzy_offsets f = ret offsets -> (i, j, k) ∈ offsets ->
  (a < b < c)%nat ->
  ordered P !! a = Some x -> ordered P !! b = Some y -> ordered P !! c = Some z ->
  [d0; d1; d2] ≡ₚ [ {| id := tag x; bin := bin_of y z |};
                    {| id := tag y; bin := bin_of x z |};
                    {| id := tag z; bin := bin_of x y |} ] ->
  obs_le d0 d1 -> obs_le d1 d2 ->
  0 <= bin d0 + i < nr_bins -> 0 <= bin d1 + j < nr_bins ->
  0 <= bin d2 + k < nr_bins ->
  [e0; e1; e2] ≡ₚ [ {| id := id d0; bin := bin d0 + i |};
                    {| id := id d1; bin := bin d1 + j |};
                    {| id := id d2; bin := bin d2 + k |} ] ->
  obs_le e0 e1 -> obs_le e1 e2 ->
  ret [ id e0; id e1; id e2;
        bin_char (bin e0); bin_char (bin e1); bin_char (bin e2) ]
    ∈ all_items (ordered P) subs f.
Proof using bin_distance_le BINS_chr.
  intros Hoff Hin Habc Ha Hb Hc Hperm H01 H12 Hi Hj Hk Hperm' He01 He12.
  unfold all_items. rewrite Hoff. apply elem_of_app. right.
  apply elem_of_triples_items. exists a, b, c, x, y, z.
  repeat split; [lia|lia|done..|].
  unfold triple_items.
  rewrite (triple_obs_sorted x y z d0 d1 d2 Hperm H01 H12).
  right. unfold fuzz_items. apply list_elem_of_bind. exists (i, j, k).
  split; [|exact Hin]. unfold perturb.
  destruct (Z.leb_spec nr_bins (bin d0 + i)); [lia|].
  destruct (Z.ltb_spec (bin d0 + i) 0); [lia|].
  destruct (Z.leb_spec nr_bins (bin d1 + j)); [lia|].
  destruct (Z.ltb_spec (bin d1 + j) 0); [lia|].
  destruct (Z.leb_spec nr_bins (bin d2 + k)); [lia|].
  destruct (Z.ltb_spec (bin d2 + k) 0); [lia|].
  cbn [orb]. rewrite (sorted_obs_three_eq _ _ _ e0 e1 e2 Hperm' He01 He12).
  destruct (obs_three_bins (fun b => 0 <= b < nr_bins) _ _ _ _ _ _ Hperm')
    as (? & ? & ?); [simpl; lia..|].
  rewrite triple_bit_info_ok by lia. left.
Qed.

(** The keys of a triple are the base key, of the three observations in
    ascending order, and for every offset that keeps the three bins
    between 0 and [len(BINS) - 1] the key of the perturbed observations in
    ascending order. *)
Lemma elem_of_triple_items_inv offsets x y z mk :
  mk ∈ triple_items offsets x y z ->
  exists d0 d1 d2,
    [d0; d1; d2] ≡ₚ [ {| id := tag x; bin := bin_of y z |};
                      {| id := tag y; bin := bin_of x z |};
                      {| id := tag z; bin := bin_of x y |} ] /\
    obs_le d0 d1 /\ obs_le d1 d2 /\
    (mk = ret [ id d0; id d1; id d2;
                bin_char (bin d0); bin_char (bin d1); bin_char (bin d2) ] \/
     exists i j k e0 e1 e2,
       (i, j, k) ∈ offsets /\
       0 <= bin d0 + i < nr_bins /\ 0 <= bin d1 + j < nr_bins /\
       0 <= bin d2 + k < nr_bins /\
       [e0; e1; e2] ≡ₚ [ {| id := id d0; bin := bin d0 + i |};
                         {| id := id d1; bin := bin d1 + j |};
                         {| id := id d2; bin := bin d2 + k |} ] /\
       obs_le e0 e1 /\ obs_le e1 e2 /\
       mk = ret [ id e0; id e1; id e2;
                  bin_char (bin e0); bin_char (bin e1); bin_char (bin e2) ]).
Proof using bin_distance_le BINS_chr.
  unfold triple_items, triple_obs.
  destruct (sorted_obs_three
    {| id := tag z; bin := bin_of x y |} {| id := tag y; bin := bin_of x z |}
    {| id := tag x; bin := bin_of y z |}) as (d0 & d1 & d2 & Heq & Hperm & H01 & H12).
  rewrite Heq. intros Hmk. exists d0, d1, d2.
  split; [rewrite Hperm; solve_perm3|]. split; [exact H01|]. split; [exact H12|].
  destruct (obs_three_bins (fun b => 0 <= b <= nr_bins) _ _ _ _ _ _ Hperm)
    as (Hb0 & Hb1 & Hb2);
    [apply (bin_of_range x y)|apply (bin_of_range x z)|apply (bin_of_range y z)|].
  apply elem_of_cons in Hmk as [->|Hmk].
  - left. by rewrite triple_bit_info_ok by lia.
  - right. apply list_elem_of_bind in Hmk as ([[i j] k] & Hmk & Hin).
    unfold perturb in Hmk.
    destruct (Z.leb_spec nr_bins (bin d0 + i)); [by apply not_elem_of_nil in Hmk|].
    destruct (Z.ltb_spec (bin d0 + i) 0); [by apply not_elem_of_nil in Hmk|].
    destruct (Z.leb_spec nr_bins (bin d1 + j)); [by apply not_elem_of_nil in Hmk|].
    destruct (Z.ltb_spec (bin d1 + j) 0); [by apply not_elem_of_nil in Hmk|].
    destruct (Z.leb_spec nr_bins (bin d2 + k)); [by apply not_elem_of_nil in Hmk|].
    destruct (Z.ltb_spec (bin d2 + k) 0); [by apply not_elem_of_nil in Hmk|].
    cbn [orb] in Hmk. apply list_elem_of_singleton in Hmk as ->.
    destruct (sorted_obs_three
      {| id := id d0; bin := bin d0 + i |} {| id := id d1; bin := bin d1 + j |}
      {| id := id d2; bin := bin d2 + k |}) as (e0 & e1 & e2 & Heq' & Hperm' & He01 & He12).
    rewrite Heq'.
    destruct (obs_three_bins (fun b => 0 <= b < nr_bins) _ _ _ _ _ _ Hperm')
      as (? & ? & ?); [simpl; lia..|].
    exists i, j, k, e0, e1, e2. rewrite triple_bit_info_ok by lia.
    repeat split; try done; lia.
Qed.

(** *** The bodies of the loops, by the outcome of the lookup *)

Lemma pair_fuzz_match tx ty b i bits :
  0 <= b + i <= nr_bins ->
  pair_fuzz nr_bins (tx, ty) b i bits =
  match BIT_INFO !! [tx; bin_char (b + i); ty] with
  | Some n => ret (bits ∪ {[n]})
  | None => raise (KeyError [tx; bin_char (b + i); ty])
  end.
Proof using BINS_chr.
  intros Hb. rewrite pair_fuzz_keep by done.
  destruct (BIT_INFO !! _) as [n|] eqn:Hn;
    [by apply add_bit_Some|by apply add_bit_None].
Qed.

Lemma pair_body_match (l : list Feature) dm pff a b x y bits :
  calculate_distance_matrix l = ret dm ->
  l !! a = Some x -> l !! b = Some y ->
  pair_body l dm nr_bins pff a b bits =
  match BIT_INFO !! [tag x; bin_char (bin_of x y); tag y] with
  | Some n => for_ (rangeZ (0 - pff) (pff + 1))
                   (pair_fuzz nr_bins (tag x, tag y) (bin_of x y))
                   (bits ∪ {[n]})
  | None => raise (KeyError [tag x; bin_char (bin_of x y); tag y])
  end.
Proof using bin_distance_le BINS_chr.
  intros Hdm Ha Hb. rewrite (pair_body_eq _ _ _ _ _ _ _ _ Hdm Ha Hb).
  destruct (BIT_INFO !! _) as [n|] eqn:Hn.
  - by rewrite (add_bit_Some _ _ _ Hn), bind_ret_l.
  - by rewrite (add_bit_None _ _ Hn).
Qed.

Lemma triple_fuzz_match (d0 d1 d2 e0 e1 e2 : obs) i j k bits :
  0 <= bin d0 + i < nr_bins -> 0 <= bin d1 + j < nr_bins ->
  0 <= bin d2 + k < nr_bins ->
  [e0; e1; e2] ≡ₚ [ {| id := id d0; bin := bin d0 + i |};
                    {| id := id d1; bin := bin d1 + j |};
                    {| id := id d2; bin := bin d2 + k |} ] ->
  obs_le e0 e1 -> obs_le e1 e2 ->
  triple_fuzz nr_bins [d0; d1; d2] (i, j, k) bits =
  match BIT_INFO !! [ id e0; id e1; id e2;
                      bin_char (bin e0); bin_char (bin e1); bin_char (bin e2) ] with
  | Some n => ret (bits ∪ {[n]})
  | None => raise (KeyError [ id e0; id e1; id e2;
                              bin_char (bin e0); bin_char (bin e1);
                              bin_char (bin e2) ])
  end.
Proof using BINS_chr.
  intros Hi Hj Hk Hperm He01 He12. rewrite triple_fuzz_unfold.
  destruct (Z.leb_spec nr_bins (bin d0 + i)); [lia|].
  destruct (Z.ltb_spec (bin d0 + i) 0); [lia|].
  destruct (Z.leb_spec nr_bins (bin d1 + j)); [lia|].
  destruct (Z.ltb_spec (bin d1 + j) 0); [lia|].
  destruct (Z.leb_spec nr_bins (bin d2 + k)); [lia|].
  destruct (Z.ltb_spec (bin d2 + k) 0); [lia|].
  cbn [orb]. rewrite (sorted_obs_three_eq _ _ _ e0 e1 e2 Hperm He01 He12).
  destruct (obs_three_bins (fun b => 0 <= b < nr_bins) _ _ _ _ _ _ Hperm)
    as (? & ? & ?); [simpl; lia..|].
  rewrite triple_bit_info_ok, bind_ret_l by lia.
  destruct (BIT_INFO !! _) as [n|] eqn:Hn;
    [by apply add_bit_Some|by apply add_bit_None].
Qed.

Lemma triple_body_sorted_eq (l : list Feature) dm offsets a b c x y z bits :
  calculate_distance_matrix l = ret dm ->
  l !! a = Some x -> l !! b = Some y -> l !! c = Some z ->
  triple_body l dm nr_bins offsets a b c bits =
  (bits' <- add_bit (obs_bit_info (sorted key_lt obs_key (triple_obs x y z))) bits ;;
   for_ offsets (triple_fuzz nr_bins (sorted key_lt obs_key (triple_obs x y z))) bits').
Proof using bin_distance_le BINS_chr.
  intros Hdm Ha Hb Hc. unfold triple_obs.
  destruct (sorted_obs_three
    {| id := tag z; bin := bin_of x y |} {| id := tag y; bin := bin_of x z |}
    {| id := tag x; bin := bin_of y z |}) as (d0 & d1 & d2 & Heq & Hperm & H01 & H12).
  rewrite Heq.
  destruct (triple_body_eq _ _ offsets _ _ _ _ _ _ bits Hdm Ha Hb Hc)
    as (e0 & e1 & e2 & Hperm' & He01 & He12 & Hbody).
  assert ([e0; e1; e2] = [d0; d1; d2]) as [= -> -> ->].
  { apply (StronglySorted_unique_strong obs_le).
    - intros ? ? _ _. rewrite <-!key_le_obs_le. apply obs_key_le_antisym.
    - by apply obs_le_sorted_three.
    - by apply obs_le_sorted_three.
    - rewrite Hperm', Hperm. solve_perm3. }
  exact Hbody.
Qed.

Lemma triple_body_match (l : list Feature) dm offsets a b c x y z d0 d1 d2 bits :
  calculate_distance_matrix l = ret dm ->
  l !! a = Some x -> l !! b = Some y -> l !! c = Some z ->
  [d0; d1; d2] ≡ₚ [ {| id := tag x; bin := bin_of y z |};
                    {| id := tag y; bin := bin_of x z |};
                    {| id := tag z; bin := bin_of x y |} ] ->
  obs_le d0 d1 -> obs_le d1 d2 ->
  triple_body l dm nr_bins offsets a b c bits =
  match BIT_INFO !! [ id d0; id d1; id d2;
                      bin_char (bin d0); bin_char (bin d1); bin_char (bin d2) ] with
  | Some n => for_ offsets (triple_fuzz nr_bins [d0; d1; d2]) (bits ∪ {[n]})
  | None => raise (KeyError [ id d0; id d1; id d2;
                              bin_char (bin d0); bin_char (bin d1);
                              bin_char (bin d2) ])
  end.
Proof using bin_distance_le BINS_chr.
  intros Hdm Ha Hb Hc Hperm H01 H12.
  rewrite (triple_body_sorted_eq _ _ _ _ _ _ _ _ _ _ Hdm Ha Hb Hc).
  rewrite (triple_obs_sorted x y z d0 d1 d2 Hperm H01 H12).
  change (obs_bit_info [d0; d1; d2])
    with [id d0; id d1; id d2; bin_char (bin d0); bin_char (bin d1); bin_char (bin d2)].
  destruct (BIT_INFO !! _) as [n|] eqn:Hn.
  - by rewrite (add_bit_Some _ _ _ Hn), bind_ret_l.
  - by rewrite (add_bit_None _ _ Hn).
Qed.

(** C2.  For the features [x], [y], [z] at three positions [a < b < c] of
    [ordered_features], the base key of the triple is built from the
    three observations that pair the tag of each feature with the bin of
    the distance between the other two, put in ascending [(bin, tag
    character)] order: the three tags, then the three bin letters
    ([chr(bin + 97)]).  The call looks this key up: a fingerprint that it
    returns has the bit of the key, and when the dictionary lacks the key
    the call (with a valid [fuzzy_factor]) raises [KeyError].  In the loop,
    the body for [(a, b, c)] raises [KeyError] with this key when the
    dictionary lacks it, and otherwise adds its bit and goes on to the
    fuzzy offsets with the sorted observations. *)
Theorem triple_base_key (P : list Feature) (subs : bool) (f : Z)
    (a b c : nat) (x y z : Feature) :
  (a < b < c)%nat ->
  ordered P !! a = Some x -> ordered P !! b = Some y -> ordered P !! c = Some z ->
  exists d0 d1 d2,
    [d0; d1; d2] ≡ₚ [ {| id := tag x; bin := bin_of y z |};
                      {| id := tag y; bin := bin_of x z |};
                      {| id := tag z; bin := bin_of x y |} ] /\
    obs_le d0 d1 /\ obs_le d1 d2 /\
    let key := [ id d0; id d1; id d2;
                 bin_char (bin d0); bin_char (bin d1); bin_char (bin d2) ] in
    (forall fp, from_pharmacophore P subs f = inr fp ->
       exists n, BIT_INFO !! key = Some n /\ n ∈ fp) /\
    (-2 <= f -> BIT_INFO !! key = None ->
     exists k, BIT_INFO !! k = None /\
               from_pharmacophore P subs f = raise (KeyError k)) /\
    (forall dm offsets bits,
       calculate_distance_matrix (ordered P) = ret dm ->
       triple_body (ordered P) dm nr_bins offsets a b c bits =
       match BIT_INFO !! key with
       | Some n => for_ offsets (triple_fuzz nr_bins [d0; d1; d2]) (bits ∪ {[n]})
       | None => raise (KeyError key)
       end).
Proof using bin_distance_le BINS_chr.
  intros Habc Ha Hb Hc.
  destruct (sorted_obs_three
    {| id := tag x; bin := bin_of y z |} {| id := tag y; bin := bin_of x z |}
    {| id := tag z; bin := bin_of x y |}) as (d0 & d1 & d2 & _ & Hperm & H01 & H12).
  exists d0, d1, d2. split; [exact Hperm|]. split; [exact H01|].
  split; [exact H12|]. cbv zeta. split; [|split].
  - intros fp Hfp.
    pose proof (from_pharmacophore_inr_valid _ _ _ _ Hfp) as Hf.
    exact (proj1 (from_pharmacophore_looks_up P subs f _
             (triple_key_in_all_items P subs f a b c x y z d0 d1 d2
                Hf Habc Ha Hb Hc Hperm H01 H12)) fp Hfp).
  - intros Hf.
    exact (proj2 (from_pharmacophore_looks_up P subs f _
             (triple_key_in_all_items P subs f a b c x y z d0 d1 d2
                Hf Habc Ha Hb Hc Hperm H01 H12))).
  - intros dm offsets bits Hdm. by apply (triple_body_match _ _ _ _ _ _ x y z).
Qed.

(** C3.  One step of the fuzzy loop of a triple, for the offset
    [(i, j, k)] and the sorted observations [d0], [d1], [d2]: the bins
    are perturbed position by position; if a perturbed bin is negative
    or not below [len(BINS)] nothing is looked up and [bits] is
    unchanged; otherwise the perturbed observations are put in ascending
    [(bin, tag character)] order again, and the key of their tags and bin
    letters is looked up: its bit is added, or [KeyError] is raised with
    it when the dictionary lacks it.  In a call, this step is taken for
    every triple of positions [a < b < c] and every offset that
    [fuzzy_offsets] produces, on the sorted observations of the triple:
    a fingerprint that the call returns has the bit of the rebuilt key,
    the call raises [KeyError] when the dictionary lacks it, and every bit
    of a fingerprint computed without [subs] is the bit of the base key of
    a triple or of such a rebuilt key, the perturbed bins lying between 0
    and [len(BINS) - 1]. *)
Theorem triple_fuzz_step (d0 d1 d2 : obs) (i j k : Z) :
  (~ (0 <= bin d0 + i < nr_bins /\ 0 <= bin d1 + j < nr_bins /\
      0 <= bin d2 + k < nr_bins) ->
   forall bits, triple_fuzz nr_bins [d0; d1; d2] (i, j, k) bits = ret bits) /\
  (0 <= bin d0 + i < nr_bins -> 0 <= bin d1 + j < nr_bins ->
   0 <= bin d2 + k < nr_bins ->
   exists e0 e1 e2,
     [e0; e1; e2] ≡ₚ [ {| id := id d0; bin := bin d0 + i |};
                       {| id := id d1; bin := bin d1 + j |};
                       {| id := id d2; bin := bin d2 + k |} ] /\
     obs_le e0 e1 /\ obs_le e1 e2 /\
     let key := [ id e0; id e1; id e2;
                  bin_char (bin e0); bin_char (bin e1); bin_char (bin e2) ] in
     (forall bits,
        triple_fuzz nr_bins [d0; d1; d2] (i, j, k) bits =
        match BIT_INFO !! key with
        | Some n => ret (bits ∪ {[n]})
        | None => raise (KeyError key)
        end) /\
     (forall (P : list Feature) (subs : bool) (f : Z) offsets
             (a b c : nat) (x y z : Feature),
        fuzzy_offsets f = ret offsets -> (i, j, k) ∈ offsets ->
        (a < b < c)%nat ->
        ordered P !! a = Some x -> ordered P !! b = Some y ->
        ordered P !! c = Some z ->
        [d0; d1; d2] ≡ₚ [ {| id := tag x; bin := bin_of y z |};
                          {| id := tag y; bin := bin_of x z |};
                          {| id := tag z; bin := bin_of x y |} ] ->
        obs_le d0 d1 -> obs_le d1 d2 ->
        (forall fp, from_pharmacophore P subs f = inr fp ->
           exists n, BIT_INFO !! key = Some n /\ n ∈ fp) /\
        (BIT_INFO !! key = None ->
         exists k', BIT_INFO !! k' = None /\
                    from_pharmacophore P subs f = raise (KeyError k')))) /\
  (forall (P : list Feature) (f : Z) (fp : gset N) (n : N),
     from_pharmacophore P false f = inr fp -> n ∈ fp ->
     exists offsets (a b c : nat) (x y z : Feature) (b0 b1 b2 : obs),
       fuzzy_offsets f = ret offsets /\ (a < b < c)%nat /\
       ordered P !! a = Some x /\ ordered P !! b = Some y /\
       ordered P !! c = Some z /\
       [b0; b1; b2] ≡ₚ [ {| id := tag x; bin := bin_of y z |};
                         {| id := tag y; bin := bin_of x z |};
                         {| id := tag z; bin := bin_of x y |} ] /\
       obs_le b0 b1 /\ obs_le b1 b2 /\
       (BIT_INFO !! [ id b0; id b1; id b2;
                      bin_char (bin b0); bin_char (bin b1); bin_char (bin b2) ]
          = Some n \/
        exists i' j' k' e0 e1 e2,
          (i', j', k') ∈ offsets /\
          0 <= bin b0 + i' < nr_bins /\ 0 <= bin b1 + j' < nr_bins /\
          0 <= bin b2 + k' < nr_bins /\
          [e0; e1; e2] ≡ₚ [ {| id := id b0; bin := bin b0 + i' |};
                            {| id := id b1; bin := bin b1 + j' |};
                            {| id := id b2; bin := bin b2 + k' |} ] /\
          obs_le e0 e1 /\ obs_le e1 e2 /\
          BIT_INFO !! [ id e0; id e1; id e2;
                        bin_char (bin e0); bin_char (bin e1); bin_char (bin e2) ]
            = Some n)).
Proof using bin_distance_le BINS_chr.
  split; [|split].
  - intros Hout bits. by apply triple_fuzz_discard.
  - intros Hi Hj Hk.
    destruct (sorted_obs_three
      {| id := id d0; bin := bin d0 + i |} {| id := id d1; bin := bin d1 + j |}
      {| id := id d2; bin := bin d2 + k |})
      as (e0 & e1 & e2 & _ & Hperm' & He01 & He12).
    exists e0, e1, e2. split; [exact Hperm'|]. split; [exact He01|].
    split; [exact He12|]. cbv zeta. split.
    + intros bits. by apply triple_fuzz_match.
    + intros P subs f offsets a b c x y z Hoff Hin Habc Ha Hb Hc Hperm H01 H12.
      apply from_pharmacophore_looks_up.
      by apply (triple_fuzz_in_all_items P subs f offsets a b c x y z d0 d1 d2 i j k).
  - intros P f fp n Hfp Hn.
    destruct (from_pharmacophore_bit_origin _ _ _ _ _ Hfp Hn) as (key & Hkey & Hbit).
    pose proof (from_pharmacophore_inr_valid _ _ _ _ Hfp) as Hf.
    destruct (fuzzy_offsets_valid f Hf) as [offsets Hoff].
    unfold all_items in Hkey. rewrite Hoff in Hkey. simpl app in Hkey.
    apply elem_of_triples_items in Hkey
      as (a & b & c & x & y & z & Habc & Ha & Hb & Hc & Hmk).
    apply elem_of_triple_items_inv in Hmk
      as (b0 & b1 & b2 & Hperm & H01 & H12 & Hmk).
    exists offsets, a, b, c, x, y, z, b0, b1, b2.
    repeat (split; [done|]).
    destruct Hmk as [[= ->]|(i' & j' & k' & e0 & e1 & e2 & Hin & Hi & Hj & Hk &
                              Hperm' & He01 & He12 & [= ->])].
    + by left.
    + right. exists i', j', k', e0, e1, e2. done.
Qed.

(** C4.  The radius of the pair fuzz is 1 for a negative [fuzzy_factor]
    and [fuzzy_factor] otherwise; the body of a pair looks the base key
    up and then runs the offsets [-radius .. radius] in ascending order;
    an offset [i] is skipped when [bin + i < 0] or [bin + i > len(BINS)],
    and otherwise the key with the letter of [bin + i] is looked up, also
    for [bin + i = len(BINS)]: its bit is added, or [KeyError] is raised
    when the dictionary lacks it.  So in a call with [subs], for the
    features at two positions [a < b] and every offset within the radius
    that keeps the bin between 0 and [len(BINS)], a fingerprint that the
    call returns has the bit of the key and the call raises [KeyError]
    when the dictionary lacks it; and every bit of the fingerprint is the
    bit of a tag, of such a key of a pair, or of a key of six characters (a
    key of a triple).  The fuzzy loop of a triple skips an offset when one
    of the three perturbed bins is [len(BINS)] or more. *)
Theorem pair_fuzz_radius_and_bounds (f : Z) :
  (f < 0 -> pair_fuzzy_factor f = 1) /\
  (0 <= f -> pair_fuzzy_factor f = f) /\
  (forall i, i ∈ rangeZ (0 - pair_fuzzy_factor f) (pair_fuzzy_factor f + 1) <->
             - pair_fuzzy_factor f <= i <= pair_fuzzy_factor f) /\
  StronglySorted Z.lt (rangeZ (0 - pair_fuzzy_factor f) (pair_fuzzy_factor f + 1)) /\
  (forall (l : list Feature) dm (a b : nat) (x y : Feature) (bits : gset N),
     calculate_distance_matrix l = ret dm ->
     l !! a = Some x -> l !! b = Some y ->
     pair_body l dm nr_bins (pair_fuzzy_factor f) a b bits =
     match BIT_INFO !! [tag x; bin_char (bin_of x y); tag y] with
     | Some n =>
         for_ (rangeZ (0 - pair_fuzzy_factor f) (pair_fuzzy_factor f + 1))
              (pair_fuzz nr_bins (tag x, tag y) (bin_of x y)) (bits ∪ {[n]})
     | None => raise (KeyError [tag x; bin_char (bin_of x y); tag y])
     end) /\
  (forall (tx ty : char) (bin_id i : Z) (bits : gset N),
     bin_id + i < 0 \/ nr_bins < bin_id + i ->
     pair_fuzz nr_bins (tx, ty) bin_id i bits = ret bits) /\
  (forall (tx ty : char) (bin_id i : Z) (bits : gset N),
     0 <= bin_id + i <= nr_bins ->
     pair_fuzz nr_bins (tx, ty) bin_id i bits =
     match BIT_INFO !! [tx; bin_char (bin_id + i); ty] with
     | Some n => ret (bits ∪ {[n]})
     | None => raise (KeyError [tx; bin_char (bin_id + i); ty])
     end) /\
  (forall (P : list Feature) (a b : nat) (x y : Feature) (i : Z),
     (a < b)%nat -> ordered P !! a = Some x -> ordered P !! b = Some y ->
     - pair_fuzzy_factor f <= i <= pair_fuzzy_factor f ->
     0 <= bin_of x y + i <= nr_bins ->
     (forall fp, from_pharmacophore P true f = inr fp ->
        exists n, BIT_INFO !! [tag x; bin_char (bin_of x y + i); tag y] = Some n /\
                  n ∈ fp) /\
     (BIT_INFO !! [tag x; bin_char (bin_of x y + i); tag y] = None ->
      exists k, BIT_INFO !! k = None /\
                from_pharmacophore P true f = raise (KeyError k))) /\
  (forall (P : list Feature) (fp : gset N) (n : N),
     from_pharmacophore P true f = inr fp -> n ∈ fp ->
     (exists x, x ∈ P /\ BIT_INFO !! [tag x] = Some n) \/
     (exists (a b : nat) (x y : Feature) (i : Z),
        (a < b)%nat /\ ordered P !! a = Some x /\ ordered P !! b = Some y /\
        - pair_fuzzy_factor f <= i <= pair_fuzzy_factor f /\
        0 <= bin_of x y + i <= nr_bins /\
        BIT_INFO !! [tag x; bin_char (bin_of x y + i); tag y] = Some n) \/
     (exists key, length key = 6%nat /\ BIT_INFO !! key = Some n)) /\
  (forall (d0 d1 d2 : obs) (i j k : Z) (bits : gset N),
     nr_bins <= bin d0 + i \/ nr_bins <= bin d1 + j \/ nr_bins <= bin d2 + k ->
     triple_fuzz nr_bins [d0; d1; d2] (i, j, k) bits = ret bits).
Proof using bin_distance_le BINS_chr.
  split; [unfold pair_fuzzy_factor; intros;
          destruct (Z.ltb_spec f 0); [reflexivity|lia]|].
  split; [unfold pair_fuzzy_factor; intros;
          destruct (Z.ltb_spec f 0); [lia|reflexivity]|].
  split; [intros i; rewrite elem_of_rangeZ; lia|].
  split; [apply StronglySorted_seqZ|].
  split; [intros; by apply pair_body_match|].
  split; [intros; by apply pair_fuzz_discard|].
  split; [intros; by apply pair_fuzz_match|].
  split; [|split].
  - intros P a b x y i Hab Ha Hb Hi Hbin.
    apply from_pharmacophore_looks_up. by apply (pair_fuzz_in_all_items P f a b).
  - intros P fp n Hfp Hn.
    destruct (from_pharmacophore_bit_origin _ _ _ _ _ Hfp Hn) as (key & Hkey & Hbit).
    pose proof (from_pharmacophore_inr_valid _ _ _ _ Hfp) as Hf.
    destruct (fuzzy_offsets_valid f Hf) as [offsets Hoff].
    unfold all_items in Hkey. rewrite Hoff in Hkey.
    apply elem_of_app in Hkey as [Hsub|Htri];
      [apply elem_of_app in Hsub as [Hs|Hp]|].
    + left. apply list_elem_of_fmap in Hs as (x & [= ->] & Hx).
      exists x. split; [|done]. by rewrite <-(ordered_Permutation P).
    + right; left.
      apply elem_of_pairs_items in Hp as (a & b & x & y & Hab & Ha & Hb & Hmk).
      apply elem_of_pair_items_inv in Hmk as (i & Hi & Hbin & [= ->]).
      by exists a, b, x, y, i.
    + right; right.
      apply elem_of_triples_items in Htri
        as (a & b & c & x & y & z & _ & _ & _ & _ & Hmk).
      apply elem_of_triple_items_inv in Hmk
        as (b0 & b1 & b2 & _ & _ & _ &
            [[= ->]|(i' & j' & k' & e0 & e1 & e2 & _ & _ & _ & _ & _ & _ & _ & [= ->])]);
        eexists; (split; [|exact Hbit]); reflexivity.
  - intros d0 d1 d2 i j k bits Hout. apply triple_fuzz_discard. lia.
Qed.

(** C8.  The call looks up the keys of [all_items], in this order
    ([from_pharmacophore_items]): singles, pairs and triples, base and
    perturbed.  When the dictionary lacks one of them, the call raises
    [KeyError]: it stops at the first such key [k], the keys before it
    having been found, and returns no fingerprint. *)
Theorem unknown_key_aborts (P : list Feature) (subs : bool) (f : Z)
    (key : pystr) :
  ret key ∈ all_items (ordered P) subs f -> BIT_INFO !! key = None ->
  exists pre k post,
    all_items (ordered P) subs f = pre ++ ret k :: post /\
    (forall mk, mk ∈ pre -> is_Some (item_bit mk)) /\
    BIT_INFO !! k = None /\
    from_pharmacophore P subs f = raise (KeyError k).
Proof using bin_distance_le BINS_chr. apply from_pharmacophore_absent. Qed.

(** C9.  For the features [x] at position [a] and [y] at position [b] of
    [ordered_features], [a] before [b], the base key of the pair is the tag
    of [x], the letter of the bin of their distance and the tag of [y], in
    this order: a call with [subs] looks this key up (a fingerprint that it
    returns has the bit of the key, and the call raises [KeyError] when the
    dictionary lacks the key).  The body of the loop builds the key in the
    order of the two positions whatever the two tags are, for any list; in
    [from_pharmacophore], where [ordered_features] is sorted by tag, the
    tag of [x] is not above the tag of [y]. *)
Theorem pair_base_key (P : list Feature) (f : Z) (a b : nat) (x y : Feature) :
  (a < b)%nat -> ordered P !! a = Some x -> ordered P !! b = Some y ->
  (tag x <= tag y)%N /\
  (forall fp, from_pharmacophore P true f = inr fp ->
     exists n, BIT_INFO !! [tag x; bin_char (bin_of x y); tag y] = Some n /\
               n ∈ fp) /\
  (BIT_INFO !! [tag x; bin_char (bin_of x y); tag y] = None ->
   exists k, BIT_INFO !! k = None /\
             from_pharmacophore P true f = raise (KeyError k)) /\
  (forall (l : list Feature) dm pff (a' b' : nat) (x' y' : Feature)
          (bits : gset N),
     calculate_distance_matrix l = ret dm ->
     l !! a' = Some x' -> l !! b' = Some y' ->
     pair_body l dm nr_bins pff a' b' bits =
     match BIT_INFO !! [tag x'; bin_char (bin_of x' y'); tag y'] with
     | Some n => for_ (rangeZ (0 - pff) (pff + 1))
                      (pair_fuzz nr_bins (tag x', tag y') (bin_of x' y'))
                      (bits ∪ {[n]})
     | None => raise (KeyError [tag x'; bin_char (bin_of x' y'); tag y'])
     end).
Proof using bin_distance_le BINS_chr.
  intros Hab Ha Hb. split; [by eapply ordered_sorted|].
  pose proof (from_pharmacophore_looks_up P true f _
                (pair_base_in_all_items P f a b x y Hab Ha Hb)) as [Hfp Hnone].
  split; [exact Hfp|]. split; [exact Hnone|].
  intros. by apply pair_body_match.
Qed.

(** C10.  The base key of a pair and the base key of a triple are looked
    up whatever the bins are, [len(BINS)] included, with no check of the
    bins: for every two positions [a < b] (with [subs]) and every three
    positions [a < b < c] of [ordered_features], the body of the loop
    raises [KeyError] with the base key when the dictionary lacks it and
    otherwise adds its bit and goes on to the offsets; a fingerprint that
    the call returns has the bit of the base key, and when the dictionary
    lacks the key the call raises [KeyError] (for a triple, when
    [fuzzy_factor] is valid); the combination is never skipped. *)
Theorem base_key_unchecked (P : list Feature) (f : Z) :
  (forall (a b : nat) (x y : Feature),
     (a < b)%nat -> ordered P !! a = Some x -> ordered P !! b = Some y ->
     0 <= bin_of x y <= nr_bins /\
     (forall dm pff bits,
        calculate_distance_matrix (ordered P) = ret dm ->
        pair_body (ordered P) dm nr_bins pff a b bits =
        match BIT_INFO !! [tag x; bin_char (bin_of x y); tag y] with
        | Some n => for_ (rangeZ (0 - pff) (pff + 1))
                         (pair_fuzz nr_bins (tag x, tag y) (bin_of x y))
                         (bits ∪ {[n]})
        | None => raise (KeyError [tag x; bin_char (bin_of x y); tag y])
        end) /\
     (forall fp, from_pharmacophore P true f = inr fp ->
        exists n, BIT_INFO !! [tag x; bin_char (bin_of x y); tag y] = Some n /\
                  n ∈ fp) /\
     (BIT_INFO !! [tag x; bin_char (bin_of x y); tag y] = None ->
      exists k, BIT_INFO !! k = None /\
                from_pharmacophore P true f = raise (KeyError k))) /\
  (forall (subs : bool) (a b c : nat) (x y z : Feature),
     (a < b < c)%nat ->
     ordered P !! a = Some x -> ordered P !! b = Some y ->
     ordered P !! c = Some z ->
     let distances := sorted key_lt obs_key (triple_obs x y z) in
     Forall (fun d => 0 <= bin d <= nr_bins) distances /\
     (forall dm offsets bits,
        calculate_distance_matrix (ordered P) = ret dm ->
        triple_body (ordered P) dm nr_bins offsets a b c bits =
        match BIT_INFO !! obs_bit_info distances with
        | Some n => for_ offsets (triple_fuzz nr_bins distances) (bits ∪ {[n]})
        | None => raise (KeyError (obs_bit_info distances))
        end) /\
     (forall fp, from_pharmacophore P subs f = inr fp ->
        exists n, BIT_INFO !! obs_bit_info distances = Some n /\ n ∈ fp) /\
     (-2 <= f -> BIT_INFO !! obs_bit_info distances = None ->
      exists k, BIT_INFO !! k = None /\
                from_pharmacophore P subs f = raise (KeyError k))).
Proof using bin_distance_le BINS_chr.
  split.
  - intros a b x y Hab Ha Hb. split; [apply bin_of_range|].
    split; [intros; by apply pair_body_match|].
    apply from_pharmacophore_looks_up. by apply (pair_base_in_all_items P f a b).
  - intros subs a b c x y z Habc Ha Hb Hc. cbv zeta.
    destruct (sorted_obs_three
      {| id := tag x; bin := bin_of y z |} {| id := tag y; bin := bin_of x z |}
      {| id := tag z; bin := bin_of x y |}) as (d0 & d1 & d2 & _ & Hperm & H01 & H12).
    rewrite (triple_obs_sorted x y z d0 d1 d2 Hperm H01 H12).
    change (obs_bit_info [d0; d1; d2])
      with [id d0; id d1; id d2; bin_char (bin d0); bin_char (bin d1); bin_char (bin d2)].
    split; [|split; [|split]].
    + rewrite Hperm. pose proof (bin_of_range x y). pose proof (bin_of_range x z).
      pose proof (bin_of_range y z). repeat constructor; simpl; lia.
    + intros dm offsets bits Hdm. by apply (triple_body_match _ _ _ _ _ _ x y z).
    + intros fp Hfp.
      pose proof (from_pharmacophore_inr_valid _ _ _ _ Hfp) as Hf.
      exact (proj1 (from_pharmacophore_looks_up P subs f _
               (triple_key_in_all_items P subs f a b c x y z d0 d1 d2
                  Hf Habc Ha Hb Hc Hperm H01 H12)) fp Hfp).
    + intros Hf.
      exact (proj2 (from_pharmacophore_looks_up P subs f _
               (triple_key_in_all_items P subs f a b c x y z d0 d1 d2
                  Hf Habc Ha Hb Hc Hperm H01 H12))).
Qed.

(** ** Further properties of the encoder *)

(** X1.  A call returns a fingerprint exactly when [fuzzy_factor] is
    valid, the dictionary holds every key of the call and the bits of these
    keys are below [2^31] (numbers that an intbitset holds); the
    fingerprint is then the set of the bits of these keys, no more and no
    less. *)
Theorem from_pharmacophore_success_iff (P : list Feature) (subs : bool)
    (f : Z) (fp : gset N) :
  from_pharmacophore P subs f = inr fp <->
  -2 <= f /\
  (forall key, ret key ∈ all_items (ordered P) subs f ->
     exists i, BIT_INFO !! key = Some i /\ (i < 2 ^ 31)%N) /\
  (forall i, i ∈ fp <->
             exists key, ret key ∈ all_items (ordered P) subs f /\
                         BIT_INFO !! key = Some i).
Proof using bin_distance_le BINS_chr.
  split.
  - intros Hfp. split; [by eapply from_pharmacophore_inr_valid|].
    pose proof Hfp as [[Hall Heq]%emit_all_inr Hbig]%from_pharmacophore_inr.
    split.
    + intros key Hkey.
      destruct (proj1 (from_pharmacophore_looks_up P subs f key Hkey) fp Hfp)
        as (i & Hi & Hin).
      exists i. split; [exact Hi|]. by apply Hbig.
    + intros i. split.
      * by apply from_pharmacophore_bit_origin.
      * intros (key & Hkey & Hi).
        destruct (proj1 (from_pharmacophore_looks_up P subs f key Hkey) fp Hfp)
          as (i' & Hi' & Hin).
        by replace i with i' by congruence.
  - intros (Hf & Hkeys & Hbits).
    assert (forall mk, mk ∈ all_items (ordered P) subs f ->
                       exists key, mk = ret key) as Hret.
    { intros mk Hmk. rewrite all_items_key_items in Hmk.
      destruct (fuzzy_offsets_valid f Hf) as [offsets Hoff]. rewrite Hoff in Hmk.
      rewrite app_nil_r in Hmk. by eapply key_items_ret. }
    apply from_pharmacophore_inr. split.
    + apply emit_all_inr. split.
      * intros mk Hmk. destruct (Hret mk Hmk) as [key ->].
        destruct (Hkeys key Hmk) as (i & Hi & _). by exists i.
      * apply set_eq. intros i.
        rewrite Hbits, elem_of_union, elem_of_list_to_set, list_elem_of_omap.
        split.
        -- intros (key & Hkey & Hi). right. by exists (ret key).
        -- intros [Hi|(mk & Hmk & Hi)]; [by apply not_elem_of_empty in Hi|].
           destruct (Hret mk Hmk) as [key ->]. by exists key.
    + intros i (key & Hkey & Hi)%Hbits.
      destruct (Hkeys key Hkey) as (i' & Hi' & Hlt).
      by replace i with i' by congruence.
Qed.

Lemma union_singleton_twice (bits : gset N) (i : N) :
  bits ∪ {[i]} ∪ {[i]} = bits ∪ {[i]}.
Proof. set_solver. Qed.

(** X2.  With [fuzzy_factor = 0] the fuzzy loops add nothing: the body of a
    pair (offset 0 alone) and the body of a triple (offset [(0, 0, 0)]
    alone) do what the lookup of the base key does, whatever the bins
    are. *)
Theorem zero_fuzz_adds_nothing (l : list Feature) (dm : list (list Dist))
    (a b c : nat) (x y z : Feature) (bits : gset N) :
  calculate_distance_matrix l = ret dm ->
  l !! a = Some x -> l !! b = Some y -> l !! c = Some z ->
  fuzzy_offsets 0 = ret [(0, 0, 0)] /\
  pair_body l dm nr_bins (pair_fuzzy_factor 0) a b bits =
    add_bit [tag x; bin_char (bin_of x y); tag y] bits /\
  triple_body l dm nr_bins [(0, 0, 0)] a b c bits =
    add_bit (obs_bit_info (sorted key_lt obs_key (triple_obs x y z))) bits.
Proof using bin_distance_le BINS_chr.
  intros Hdm Ha Hb Hc. split; [reflexivity|]. split.
  - rewrite (pair_body_eq _ _ _ _ _ _ _ _ Hdm Ha Hb).
    pose proof (bin_of_range x y) as Hbin.
    destruct (BIT_INFO !! [tag x; bin_char (bin_of x y); tag y]) as [i|] eqn:Hi.
    + rewrite (add_bit_Some _ _ _ Hi), bind_ret_l.
      change (rangeZ (0 - pair_fuzzy_factor 0) (pair_fuzzy_factor 0 + 1)) with [0].
      cbn [for_]. rewrite pair_fuzz_keep by lia.
      rewrite Z.add_0_r, (add_bit_Some _ _ _ Hi), bind_ret_l.
      by rewrite union_singleton_twice.
    + by rewrite (add_bit_None _ _ Hi).
  - rewrite (triple_body_sorted_eq _ _ _ _ _ _ _ _ _ _ Hdm Ha Hb Hc).
    unfold triple_obs.
    destruct (sorted_obs_three
      {| id := tag z; bin := bin_of x y |} {| id := tag y; bin := bin_of x z |}
      {| id := tag x; bin := bin_of y z |}) as (d0 & d1 & d2 & Heq & Hperm & H01 & H12).
    rewrite Heq.
    assert (Forall (fun d => 0 <= bin d <= nr_bins) [d0; d1; d2]) as Hbins.
    { rewrite Hperm. pose proof (bin_of_range x y). pose proof (bin_of_range x z).
      pose proof (bin_of_range y z). repeat constructor; simpl; lia. }
    apply Forall_cons in Hbins as [Hb0 Hbins].
    apply Forall_cons in Hbins as [Hb1 Hbins].
    apply Forall_cons in Hbins as [Hb2 _].
    destruct (BIT_INFO !! obs_bit_info [d0; d1; d2]) as [i|] eqn:Hi.
    + rewrite (add_bit_Some _ _ _ Hi), bind_ret_l. cbn [for_].
      rewrite triple_fuzz_unfold, !Z.add_0_r.
      destruct ((nr_bins <=? bin d0) || (bin d0 <? 0) || (nr_bins <=? bin d1) ||
                (bin d1 <? 0) || (nr_bins <=? bin d2) || (bin d2 <? 0));
        [reflexivity|].
      replace [ {| id := id d0; bin := bin d0 |}; {| id := id d1; bin := bin d1 |};
                {| id := id d2; bin := bin d2 |} ] with [d0; d1; d2]
        by (by destruct d0, d1, d2).
      rewrite <-Heq at 1.
      rewrite (sorted_obs_Permutation _ _ (sorted_Permutation key_lt obs_key _)), Heq.
      rewrite triple_bit_info_ok by lia.
      change (bind (bind (ret (obs_bit_info [d0; d1; d2]))
                         (fun bit_info => add_bit bit_info (bits ∪ {[i]}))) ret
              = ret (bits ∪ {[i]})).
      rewrite bind_ret_l, (add_bit_Some _ _ _ Hi), bind_ret_l.
      by rewrite union_singleton_twice.
    + by rewrite (add_bit_None _ _ Hi).
Qed.

(** X3.  Every bit of a fingerprint is the bit of a key of one or three
    characters (a tag, a pair; with [subs] only) or of a key of a triple,
    base or perturbed: the tags of the features at three positions
    [a < b < c] of [ordered_features], in some order, followed by three bin
    letters in ascending order, the bins lying between 0 and [len(BINS)];
    where two bins are equal the tags are in ascending order. *)
Theorem triple_keys_shape (P : list Feature) (subs : bool) (f : Z)
    (fp : gset N) (n : N) :
  from_pharmacophore P subs f = inr fp -> n ∈ fp ->
  (subs = true /\
   exists key, (length key = 1 \/ length key = 3)%nat /\
               BIT_INFO !! key = Some n) \/
  exists (a b c : nat) (x y z : Feature) (d0 d1 d2 : obs),
    (a < b < c)%nat /\
    ordered P !! a = Some x /\ ordered P !! b = Some y /\
    ordered P !! c = Some z /\
    BIT_INFO !! [ id d0; id d1; id d2;
                  bin_char (bin d0); bin_char (bin d1); bin_char (bin d2) ]
      = Some n /\
    [id d0; id d1; id d2] ≡ₚ [tag x; tag y; tag z] /\
    0 <= bin d0 <= bin d1 /\ bin d1 <= bin d2 <= nr_bins /\
    obs_le d0 d1 /\ obs_le d1 d2.
Proof using bin_distance_le BINS_chr.
  intros Hfp Hn.
  destruct (from_pharmacophore_bit_origin _ _ _ _ _ Hfp Hn) as (key & Hkey & Hbit).
  pose proof (from_pharmacophore_inr_valid _ _ _ _ Hfp) as Hf.
  destruct (fuzzy_offsets_valid f Hf) as [offsets Hoff].
  unfold all_items in Hkey. rewrite Hoff in Hkey.
  apply elem_of_app in Hkey as [Hsub|Htri].
  - left. destruct subs; [|by apply not_elem_of_nil in Hsub].
    split; [done|]. exists key. split; [|done].
    apply elem_of_app in Hsub as [Hs|Hp].
    + apply list_elem_of_fmap in Hs as (x & [= ->] & _). by left.
    + apply elem_of_pairs_items in Hp as (a & b & x & y & _ & _ & _ & Hmk).
      apply elem_of_pair_items_inv in Hmk as (i & _ & _ & [= ->]). by right.
  - right.
    apply elem_of_triples_items in Htri
      as (a & b & c & x & y & z & Habc & Ha & Hb & Hc & Hmk).
    apply elem_of_triple_items_inv in Hmk
      as (d0 & d1 & d2 & Hperm & H01 & H12 & Hmk).
    exists a, b, c, x, y, z.
    assert ([id d0; id d1; id d2] ≡ₚ [tag x; tag y; tag z]) as Hids.
    { change ([id d0; id d1; id d2]) with (id <$> [d0; d1; d2]).
      by rewrite Hperm. }
    destruct (obs_three_bins (fun b => 0 <= b <= nr_bins) _ _ _ _ _ _ Hperm)
      as (Hb0 & Hb1 & Hb2);
      [apply (bin_of_range y z)|apply (bin_of_range x z)|apply (bin_of_range x y)|].
    destruct Hmk as [[= ->]|(i & j & k & e0 & e1 & e2 & _ & Hi & Hj & Hk &
                              Hperm' & He01 & He12 & [= ->])].
    + exists d0, d1, d2.
      repeat split; try done; unfold obs_le in *; lia.
    + exists e0, e1, e2.
      assert ([id e0; id e1; id e2] ≡ₚ [tag x; tag y; tag z]) as Hids'.
      { change ([id e0; id e1; id e2]) with (id <$> [e0; e1; e2]).
        rewrite Hperm'. exact Hids. }
      destruct (obs_three_bins (fun b => 0 <= b < nr_bins) _ _ _ _ _ _ Hperm')
        as (? & ? & ?); [simpl; lia..|].
      repeat split; try done; unfold obs_le in *; lia.
Qed.

(** C7.  With [subs] the call looks up the key of every feature (its bare
    tag) and the base key of every pair: a fingerprint that it returns has
    their bits, and it raises [KeyError] when the dictionary lacks one of
    them.  Without [subs] none of them is looked up: every bit of the
    fingerprint is the bit of a key of six characters, a key of a triple.
    The base key of every triple is looked up whatever [subs] is.  For one
    feature and a valid [fuzzy_factor], the call without [subs] returns the
    empty fingerprint; the call with [subs] returns the one bit of the tag
    of the feature when the dictionary holds the tag with a bit below
    [2^31], raises [ValueError] when the bit is [2^31] or more, and raises
    [KeyError] when the dictionary lacks the tag.  For one feature and an
    invalid [fuzzy_factor] the call raises [ValueError], or [KeyError] when
    it is asked for [subs] and the dictionary lacks the tag. *)
Theorem subs_gates_singles_and_pairs (P : list Feature) (f : Z)
    (a : Feature) :
  (forall x, x ∈ P ->
     (forall fp, from_pharmacophore P true f = inr fp ->
        exists n, BIT_INFO !! [tag x] = Some n /\ n ∈ fp) /\
     (BIT_INFO !! [tag x] = None ->
      exists k, BIT_INFO !! k = None /\
                from_pharmacophore P true f = raise (KeyError k))) /\
  (forall (i j : nat) (x y : Feature),
     (i < j)%nat -> ordered P !! i = Some x -> ordered P !! j = Some y ->
     (forall fp, from_pharmacophore P true f = inr fp ->
        exists n, BIT_INFO !! [tag x; bin_char (bin_of x y); tag y] = Some n /\
                  n ∈ fp) /\
     (BIT_INFO !! [tag x; bin_char (bin_of x y); tag y] = None ->
      exists k, BIT_INFO !! k = None /\
                from_pharmacophore P true f = raise (KeyError k))) /\
  (forall fp n, from_pharmacophore P false f = inr fp -> n ∈ fp ->
     exists key, length key = 6%nat /\ BIT_INFO !! key = Some n) /\
  (forall (subs : bool) (i j k : nat) (x y z : Feature),
     (i < j < k)%nat ->
     ordered P !! i = Some x -> ordered P !! j = Some y ->
     ordered P !! k = Some z ->
     (forall fp, from_pharmacophore P subs f = inr fp ->
        exists n,
          BIT_INFO !! obs_bit_info (sorted key_lt obs_key (triple_obs x y z))
            = Some n /\ n ∈ fp) /\
     (-2 <= f ->
      BIT_INFO !! obs_bit_info (sorted key_lt obs_key (triple_obs x y z)) = None ->
      exists k', BIT_INFO !! k' = None /\
                 from_pharmacophore P subs f = raise (KeyError k'))) /\
  (-2 <= f ->
   from_pharmacophore [a] false f = ret ∅ /\
   (forall i, BIT_INFO !! [tag a] = Some i -> (i < 2 ^ 31)%N ->
              from_pharmacophore [a] true f = ret {[i]} /\
              size ({[i]} : gset N) = 1%nat) /\
   (forall i, BIT_INFO !! [tag a] = Some i -> (2 ^ 31 <= i)%N ->
              from_pharmacophore [a] true f =
              raise (ValueError "retrieving integers from rhs is impossible")) /\
   (BIT_INFO !! [tag a] = None ->
    from_pharmacophore [a] true f = raise (KeyError [tag a]))) /\
  (f < -2 ->
   from_pharmacophore [a] false f = raise (ValueError "Invalid fuzzy_factor") /\
   (forall i, BIT_INFO !! [tag a] = Some i ->
              from_pharmacophore [a] true f =
              raise (ValueError "Invalid fuzzy_factor")) /\
   (BIT_INFO !! [tag a] = None ->
    from_pharmacophore [a] true f = raise (KeyError [tag a]))).
Proof using bin_distance_le BINS_chr.
  split; [|split; [|split; [|split; [|split]]]].
  - intros x Hx. apply from_pharmacophore_looks_up. by apply single_in_all_items.
  - intros i j x y Hij Hi Hj. apply from_pharmacophore_looks_up.
    by apply (pair_base_in_all_items P f i j).
  - intros fp n Hfp Hn.
    destruct (from_pharmacophore_bit_origin _ _ _ _ _ Hfp Hn) as (key & Hkey & Hbit).
    pose proof (from_pharmacophore_inr_valid _ _ _ _ Hfp) as Hf.
    destruct (fuzzy_offsets_valid f Hf) as [offsets Hoff].
    unfold all_items in Hkey. rewrite Hoff in Hkey. simpl app in Hkey.
    apply elem_of_triples_items in Hkey
      as (i & j & k & x & y & z & _ & _ & _ & _ & Hmk).
    apply elem_of_triple_items_inv in Hmk
      as (b0 & b1 & b2 & _ & _ & _ &
          [[= ->]|(i' & j' & k' & e0 & e1 & e2 & _ & _ & _ & _ & _ & _ & _ & [= ->])]);
      eexists; (split; [|exact Hbit]); reflexivity.
  - intros subs i j k x y z Hijk Hi Hj Hk. split.
    + intros fp Hfp.
      pose proof (from_pharmacophore_inr_valid _ _ _ _ Hfp) as Hf.
      exact (proj1 (from_pharmacophore_looks_up P subs f _
               (triple_base_in_all_items P subs f i j k x y z Hf Hijk Hi Hj Hk))
               fp Hfp).
    + intros Hf.
      exact (proj2 (from_pharmacophore_looks_up P subs f _
               (triple_base_in_all_items P subs f i j k x y z Hf Hijk Hi Hj Hk))).
  - intros Hf. destruct (fuzzy_offsets_valid f Hf) as [offsets Hoff].
    rewrite !from_pharmacophore_items. unfold all_items. rewrite Hoff.
    change (ordered [a]) with [a].
    split; [|split; [|split]].
    + change (bind (emit_all [] ∅) intbitset = ret ∅).
      rewrite emit_all_nil, bind_ret_l. apply intbitset_empty.
    + intros i Hi Hlt. split; [|apply size_singleton].
      change (bind (emit_all [ret [tag a]] ∅) intbitset = ret {[i]}).
      rewrite emit_all_singleton, bind_ret_l, (add_bit_Some _ _ _ Hi), bind_ret_l.
      rewrite (left_id_L ∅ (∪)). by apply intbitset_singleton.
    + intros i Hi Hge.
      change (bind (emit_all [ret [tag a]] ∅) intbitset =
              raise (ValueError "retrieving integers from rhs is impossible")).
      rewrite emit_all_singleton, bind_ret_l, (add_bit_Some _ _ _ Hi), bind_ret_l.
      rewrite (left_id_L ∅ (∪)). by apply intbitset_singleton_big.
    + intros Hnone.
      change (bind (emit_all [ret [tag a]] ∅) intbitset = raise (KeyError [tag a])).
      by rewrite emit_all_singleton, bind_ret_l, (add_bit_None _ _ Hnone).
  - intros Hf. rewrite !from_pharmacophore_items. unfold all_items.
    rewrite fuzzy_offsets_invalid by lia.
    change (ordered [a]) with [a].
    split; [reflexivity|]. split.
    + intros i Hi.
      change (bind (emit_all ([ret [tag a]] ++
                              [inl (ValueError "Invalid fuzzy_factor")]) ∅)
                   intbitset = raise (ValueError "Invalid fuzzy_factor")).
      rewrite emit_all_app, emit_all_singleton, bind_ret_l,
        (add_bit_Some _ _ _ Hi), bind_ret_l.
      reflexivity.
    + intros Hnone.
      change (bind (emit_all ([ret [tag a]] ++
                              [inl (ValueError "Invalid fuzzy_factor")]) ∅)
                   intbitset = raise (KeyError [tag a])).
      by rewrite emit_all_app, emit_all_singleton, bind_ret_l,
        (add_bit_None _ _ Hnone).
Qed.

End Keys.

(** A run over fewer key computations succeeds when the larger run does,
    with fewer bits. *)
Lemma emit_all_incl items1 items2 bits fp2 :
  (forall mk, mk ∈ items1 -> mk ∈ items2) ->
  emit_all items2 bits = inr fp2 ->
  exists fp1, emit_all items1 bits = inr fp1 /\ fp1 ⊆ fp2.
Proof.
  intros Hincl [Hall ->]%emit_all_inr.
  exists (bits ∪ list_to_set (omap item_bit items1)). split.
  - apply emit_all_inr. split; [|reflexivity]. intros mk Hmk. by apply Hall, Hincl.
  - intros i. rewrite !elem_of_union, !elem_of_list_to_set, !list_elem_of_omap.
    intros [Hi|(mk & Hmk & Hi)]; [by left|]. right. exists mk. split; [by apply Hincl|done].
Qed.

Lemma from_pharmacophore_incl (P P' : list Feature) subs subs' f f' fp' :
  (forall mk, mk ∈ all_items (ordered P) subs f ->
              mk ∈ all_items (ordered P') subs' f') ->
  from_pharmacophore P' subs' f' = inr fp' ->
  exists fp, from_pharmacophore P subs f = inr fp /\ fp ⊆ fp'.
Proof.
  intros Hincl [Hrun Hbig]%from_pharmacophore_inr.
  destruct (emit_all_incl _ _ _ _ Hincl Hrun) as (fp & Hfp & Hsub).
  exists fp. split; [|done]. apply from_pharmacophore_inr. split; [done|].
  intros i Hi. by apply Hbig, Hsub.
Qed.

(** X4.  Asking for the bits of the features and pairs only adds bits:
    when the call with [subs] returns a fingerprint, the call without
    returns one as well, and it is a subset. *)
Theorem subs_only_adds_bits (P : list Feature) (f : Z) (fp : gset N) :
  from_pharmacophore P true f = inr fp ->
  exists fp', from_pharmacophore P false f = inr fp' /\ fp' ⊆ fp.
Proof.
  apply from_pharmacophore_incl.
  intros mk. unfold all_items. rewrite !elem_of_app.
  intros [H|H]; [by apply not_elem_of_nil in H|by right].
Qed.

Lemma pair_items_mono pff pff' x y mk :
  pff <= pff' -> mk ∈ pair_items pff x y -> mk ∈ pair_items pff' x y.
Proof.
  intros Hle. unfold pair_items. rewrite !elem_of_cons, !list_elem_of_bind.
  intros [->|(i & Hmk & Hi)]; [by left|]. right.
  exists i. split; [done|]. apply elem_of_rangeZ in Hi. apply elem_of_rangeZ. lia.
Qed.

Lemma triple_items_mono (offsets offsets' : list (Z * Z * Z)) x y z mk :
  (forall o, o ∈ offsets -> o ∈ offsets') ->
  mk ∈ triple_items offsets x y z -> mk ∈ triple_items offsets' x y z.
Proof.
  intros Hincl. unfold triple_items, fuzz_items.
  rewrite !elem_of_cons, !list_elem_of_bind.
  intros [->|(o & Hmk & Ho)]; [by left|]. right. exists o. split; [done|by apply Hincl].
Qed.

(** One fuzz mode is within another: a smaller non-negative factor, a
    legacy mode and a factor that covers its offsets, or no fuzz and the
    axis mode. *)
Definition fuzz_within (f f' : Z) : Prop :=
  0 <= f <= f' \/ (f = -2 /\ 1 <= f') \/ (f = -1 /\ 2 <= f') \/
  (f = 0 /\ f' = -2).

Lemma fuzz_within_offsets (f f' : Z) :
  fuzz_within f f' ->
  pair_fuzzy_factor f <= pair_fuzzy_factor f' /\
  exists offsets offsets',
    fuzzy_offsets f = ret offsets /\ fuzzy_offsets f' = ret offsets' /\
    forall o, o ∈ offsets -> o ∈ offsets'.
Proof.
  intros Hw. split.
  - unfold pair_fuzzy_factor.
    destruct (Z.ltb_spec f 0), (Z.ltb_spec f' 0); unfold fuzz_within in Hw; lia.
  - destruct Hw as [Hw|[[-> Hw]|[[-> Hw]|[-> ->]]]].
    + exists (cube f), (cube f').
      rewrite (fuzzy_offsets_cube f), (fuzzy_offsets_cube f') by lia.
      repeat split. intros [[i j] k]. rewrite !elem_of_cube. lia.
    + eexists _, (cube f'). rewrite (fuzzy_offsets_cube f') by lia.
      split; [reflexivity|]. split; [reflexivity|].
      intros [[i j] k] Ho. apply elem_of_cube.
      repeat (apply elem_of_cons in Ho as [[= -> -> ->]|Ho]; [lia|]).
      by apply not_elem_of_nil in Ho.
    + eexists _, (cube f'). rewrite (fuzzy_offsets_cube f') by lia.
      split; [reflexivity|]. split; [reflexivity|].
      intros [[i j] k] Ho. apply elem_of_cube.
      repeat (apply elem_of_cons in Ho as [[= -> -> ->]|Ho]; [lia|]).
      by apply not_elem_of_nil in Ho.
    + eexists _, _. split; [reflexivity|]. split; [reflexivity|].
      intros o Ho. apply list_elem_of_singleton in Ho as ->. by left.
Qed.

(** X5.  More fuzz only adds bits: when the call with the wider mode
    returns a fingerprint, the call with the narrower mode returns one as
    well, and it is a subset. *)
Theorem more_fuzz_only_adds_bits (P : list Feature) (subs : bool)
    (f f' : Z) (fp' : gset N) :
  fuzz_within f f' ->
  from_pharmacophore P subs f' = inr fp' ->
  exists fp, from_pharmacophore P subs f = inr fp /\ fp ⊆ fp'.
Proof.
  intros Hw. apply from_pharmacophore_incl.
  destruct (fuzz_within_offsets f f' Hw)
    as (Hpff & offsets & offsets' & Hoff & Hoff' & Hincl).
  intros mk. unfold all_items. rewrite Hoff, Hoff', !elem_of_app.
  intros [Hsub|Htri].
  - left. destruct subs; [|done].
    apply elem_of_app in Hsub as [Hs|Hp]; apply elem_of_app; [by left|right].
    apply elem_of_pairs_items in Hp as (a & b & x & y & Hab & Hx & Hy & Hmk).
    apply elem_of_pairs_items. exists a, b, x, y. repeat split; [done..|].
    by eapply pair_items_mono.
  - right.
    apply elem_of_triples_items in Htri
      as (a & b & c & x & y & z & Habc & Hx & Hy & Hz & Hmk).
    apply elem_of_triples_items. exists a, b, c, x, y, z.
    repeat split; [lia|lia|done..|]. by eapply triple_items_mono.
Qed.

(** X6.  An invalid [fuzzy_factor] never gives a fingerprint, whatever the
    features are: without [subs] the call raises [ValueError]; with [subs]
    it first looks up the keys of the features and of the pairs (with pair
    radius 1), so a missing one of these raises its [KeyError], and
    otherwise the call raises [ValueError]. *)
Theorem invalid_fuzzy_factor_raises (P : list Feature) (subs : bool) (f : Z) :
  f < -2 ->
  from_pharmacophore P false f = raise (ValueError "Invalid fuzzy_factor") /\
  from_pharmacophore P true f =
    (bits <- emit_all (single_items (ordered P) ++ pairs_items 1 (ordered P)) ∅ ;;
     raise (ValueError "Invalid fuzzy_factor")) /\
  forall fp, from_pharmacophore P subs f <> inr fp.
Proof.
  intros Hf.
  assert (pair_fuzzy_factor f = 1) as Hpff
    by (unfold pair_fuzzy_factor; destruct (Z.ltb_spec f 0); lia).
  assert (from_pharmacophore P false f = raise (ValueError "Invalid fuzzy_factor"))
    as Hfalse.
  { rewrite from_pharmacophore_items. unfold all_items.
    by rewrite fuzzy_offsets_invalid. }
  assert (from_pharmacophore P true f =
          (bits <- emit_all (single_items (ordered P) ++ pairs_items 1 (ordered P)) ∅ ;;
           raise (ValueError "Invalid fuzzy_factor"))) as Htrue.
  { rewrite from_pharmacophore_items. unfold all_items.
    rewrite fuzzy_offsets_invalid, Hpff, emit_all_app by lia.
    by destruct (emit_all _ ∅). }
  split; [exact Hfalse|]. split; [exact Htrue|].
  intros fp. destruct subs.
  - rewrite Htrue. by destruct (emit_all _ ∅).
  - by rewrite Hfalse.
Qed.

Lemma triples_items_few (offsets : list (Z * Z * Z)) (l : list Feature) :
  (length l < 3)%nat -> triples_items offsets l = [].
Proof.
  intros Hlen. unfold triples_items.
  by replace (length l - 2)%nat with 0%nat by lia.
Qed.

(** X7.  With fewer than three features there is no triple: for a valid
    [fuzzy_factor] the call without [subs] returns the empty fingerprint,
    and for no feature at all the call returns it with [subs] too. *)
Theorem few_features_no_triples (P : list Feature) (subs : bool) (f : Z) :
  (length P < 3)%nat -> -2 <= f ->
  from_pharmacophore P false f = ret ∅ /\
  from_pharmacophore [] subs f = ret ∅.
Proof.
  intros Hlen Hf. destruct (fuzzy_offsets_valid f Hf) as [offsets Hoff].
  rewrite !from_pharmacophore_items. unfold all_items. rewrite Hoff.
  cbn [ret]. split.
  - by rewrite triples_items_few by (by rewrite length_sorted).
  - by destruct subs.
Qed.

Lemma insert_by_fmap {A K} (lt : K -> K -> bool) (key : A -> K) (g : A -> A)
    (x : A) (l : list A) :
  (forall x, key (g x) = key x) ->
  insert_by lt key (g x) (g <$> l) = g <$> insert_by lt key x l.
Proof.
  intros Hkey. induction l as [|y l IH]; [reflexivity|].
  csimpl. rewrite !Hkey. destruct (lt (key y) (key x)); csimpl; [|reflexivity].
  by rewrite IH.
Qed.

Lemma sorted_fmap {A K} (lt : K -> K -> bool) (key : A -> K) (g : A -> A)
    (l : list A) :
  (forall x, key (g x) = key x) ->
  sorted lt key (g <$> l) = g <$> sorted lt key l.
Proof.
  intros Hkey. induction l as [|x l IH]; [reflexivity|].
  csimpl. rewrite IH. by apply insert_by_fmap.
Qed.

(** X8.  The fingerprint depends on the kinds of the features and on their
    mutual distances only: moving every feature by a map that keeps kinds
    and distances (a rotation, a translation) does not change the result
    of the call, exceptions included. *)
Theorem from_pharmacophore_rigid_motion (g : Feature -> Feature)
    (P : list Feature) (subs : bool) (f : Z) :
  (forall x, kind (g x) = kind x) ->
  (forall x y, distance (g x) (g y) = distance x y) ->
  from_pharmacophore (g <$> P) subs f = from_pharmacophore P subs f.
Proof.
  intros Hkind Hdist. rewrite !from_pharmacophore_items.
  rewrite (sorted_fmap N.ltb (fun f => tag f) g P)
    by (intros x; by rewrite Hkind).
  set (l := ordered P).
  enough (all_items (g <$> l) subs f = all_items l subs f) as -> by reflexivity.
  unfold all_items.
  f_equal; [|destruct (fuzzy_offsets f) as [e|offsets]; [reflexivity|]].
  - destruct subs; [|reflexivity]. f_equal.
    + unfold single_items. rewrite <-list_fmap_compose.
      apply list_fmap_ext. intros i x _. simpl. by rewrite Hkind.
    + unfold pairs_items. rewrite length_fmap.
      apply list_bind_ext; [|reflexivity]. intros a.
      apply list_bind_ext; [|reflexivity]. intros b.
      rewrite !list_lookup_fmap.
      destruct (l !! a) as [x|]; [|reflexivity].
      destruct (l !! b) as [y|]; [|reflexivity]. simpl.
      unfold pair_items. by rewrite !Hkind, Hdist.
  - unfold triples_items. rewrite length_fmap.
    apply list_bind_ext; [|reflexivity]. intros a.
    apply list_bind_ext; [|reflexivity]. intros b.
    apply list_bind_ext; [|reflexivity]. intros c.
    rewrite !list_lookup_fmap.
    destruct (l !! a) as [x|]; [|reflexivity].
    destruct (l !! b) as [y|]; [|reflexivity].
    destruct (l !! c) as [z|]; [|reflexivity]. simpl.
    unfold triple_items, triple_obs. by rewrite !Hkind, !Hdist.
Qed.

(** X9.  The distance matrix is built without an exception, for the empty
    list too; it has one row for each feature and one column for each
    feature, and the entry of row [i] and column [j] is the distance from
    feature [i] to feature [j].  When the distance is symmetric, so is the
    matrix. *)
Theorem calculate_distance_matrix_entries (l : list Feature) :
  exists matrix,
    calculate_distance_matrix l = ret matrix /\
    length matrix = length l /\
    (forall i row, matrix !! i = Some row -> length row = length l) /\
    (forall i j x y, l !! i = Some x -> l !! j = Some y ->
       exists row, matrix !! i = Some row /\ row !! j = Some (distance x y)) /\
    ((forall x y, distance x y = distance y x) ->
     forall i j row d, matrix !! i = Some row -> row !! j = Some d ->
       exists row', matrix !! j = Some row' /\ row' !! i = Some d).
Proof.
  exists (matrix_of l). split; [apply calculate_distance_matrix_eq|].
  unfold matrix_of. split; [apply length_fmap|]. split; [|split].
  - intros i row Hrow. rewrite list_lookup_fmap in Hrow.
    destruct (l !! i); [|discriminate]. injection Hrow as <-. apply length_fmap.
  - intros i j x y Hx Hy. exists (map (distance x) l).
    split; [by rewrite list_lookup_fmap, Hx|by rewrite list_lookup_fmap, Hy].
  - intros Hsym i j row d Hrow Hd. rewrite list_lookup_fmap in Hrow.
    destruct (l !! i) as [x|] eqn:Hx; [|discriminate]. injection Hrow as <-.
    rewrite list_lookup_fmap in Hd.
    destruct (l !! j) as [y|] eqn:Hy; [|discriminate]. injection Hd as <-.
    exists (map (distance y) l).
    split; [by rewrite list_lookup_fmap, Hy|].
    by rewrite list_lookup_fmap, Hx, (Hsym x y).
Qed.

End EncoderFacts.

(** X10.  When a call returns a fingerprint, the call with a dictionary
    that extends the first one returns the same fingerprint. *)
Theorem dictionary_extension {Feature Dist : Type}
    (kind : Feature -> FeatureKind) (distance : Feature -> Feature -> Dist)
    (bin_distance : Dist -> list Dist -> nat) (BINS : list Dist)
    (BIT_INFO BIT_INFO' : gmap pystr N)
    (P : list Feature) (subs : bool) (f : Z) (fp : gset N) :
  BIT_INFO ⊆ BIT_INFO' ->
  from_pharmacophore kind distance bin_distance BINS BIT_INFO P subs f = inr fp ->
  from_pharmacophore kind distance bin_distance BINS BIT_INFO' P subs f = inr fp.
Proof.
  intros Hsub [[Hall ->]%emit_all_inr Hbig]%from_pharmacophore_inr.
  assert (forall mk, mk ∈ all_items kind distance bin_distance BINS
                          (sorted N.ltb (fun f => FEATURE2BIT (kind f)) P) subs f ->
                     item_bit BIT_INFO' mk = item_bit BIT_INFO mk) as Hsame.
  { intros mk Hmk. destruct (Hall mk Hmk) as [i Hi]. rewrite Hi.
    destruct mk as [e|key]; [discriminate|]. simpl in *.
    by eapply lookup_weaken. }
  apply from_pharmacophore_inr. split; [|exact Hbig].
  apply emit_all_inr. split.
  - intros mk Hmk. rewrite (Hsame mk Hmk). by apply Hall.
  - f_equal. apply set_eq. intros i.
    rewrite !elem_of_list_to_set, !list_elem_of_omap.
    split; intros (mk & Hmk & Hi); exists mk; split; try done.
    + by rewrite (Hsame mk Hmk).
    + by rewrite <-(Hsame mk Hmk).
Qed.

Lemma StronglySorted_lex_NoDup (l : list (Z * Z * Z)) :
  StronglySorted lex_lt l -> NoDup l.
Proof.
  induction 1 as [|o l Hl IH Ho]; constructor; [|exact IH].
  intros Hin. rewrite Forall_forall in Ho. specialize (Ho o Hin).
  unfold lex_lt in Ho. lia.
Qed.

(** X11.  The generator yields offsets exactly for [fuzzy_factor >= -2];
    it then yields at least one offset and no offset twice, and the zero
    offset is among them except in the legacy mode [-1]. *)
Theorem fuzzy_offsets_no_repeat (f : Z) (offsets : list (Z * Z * Z)) :
  fuzzy_offsets f = ret offsets ->
  -2 <= f /\ NoDup offsets /\ offsets <> [] /\
  ((0, 0, 0) ∈ offsets <-> f <> -1).
Proof.
  intros Hoff.
  destruct (decide (-2 <= f)) as [Hf|Hf];
    [|rewrite fuzzy_offsets_invalid in Hoff by lia; discriminate Hoff].
  split; [exact Hf|].
  destruct (decide (0 <= f)) as [Hpos|Hneg].
  - rewrite fuzzy_offsets_cube in Hoff by lia. injection Hoff as <-.
    assert ((0, 0, 0) ∈ cube f) as Hzero by (apply elem_of_cube; lia).
    split; [apply StronglySorted_lex_NoDup, cube_sorted|].
    split; [intros Hnil; rewrite Hnil in Hzero; by apply not_elem_of_nil in Hzero|].
    split; [lia|done].
  - assert (f = -1 \/ f = -2) as [-> | ->] by lia.
    + injection Hoff as <-. split; [by apply (bool_decide_unpack _); vm_compute|].
      split; [discriminate|]. split; [|done].
      intros Hin.
      repeat (apply elem_of_cons in Hin as [[=]|Hin]).
      by apply not_elem_of_nil in Hin.
    + injection Hoff as <-. split; [by apply (bool_decide_unpack _); vm_compute|].
      split; [discriminate|]. split; [lia|]. intros _. by left.
Qed.

(** ** Properties of [kripo.fragment] *)

Section NearbyFacts.
Context {Atom Residue Float : Type}.
Variable float_lt : Float -> Float -> bool.
Variable float_9999 : Float.
Variable distance_to : Atom -> Atom -> Float.
Variable residue_atoms : Residue -> list Atom.

Local Abbreviation is_residue_nearby :=
  (Fragment.is_residue_nearby float_lt float_9999 distance_to residue_atoms).

(** The loop over the atoms of the residue, for one atom of the fragment,
    and the two loops together. *)
Definition min_inner (residue : list Atom) (a : Atom) (m : Float) : M Float :=
  for_ residue (fun residue_atom min_distance =>
    let dist := distance_to a residue_atom in
    if float_lt dist min_distance then ret dist else ret min_distance) m.

Definition min_outer (fragment_atoms residue : list Atom) (m : Float) : M Float :=
  for_ fragment_atoms (min_inner residue) m.

Lemma min_inner_ret residue a m : exists m', min_inner residue a m = ret m'.
Proof.
  revert m. induction residue as [|b residue IH]; intros m; [by exists m|].
  unfold min_inner. simpl.
  destruct (float_lt (distance_to a b) m); simpl; apply IH.
Qed.

Lemma min_outer_ret fragment_atoms residue m :
  exists m', min_outer fragment_atoms residue m = ret m'.
Proof.
  revert m. induction fragment_atoms as [|a fa IH]; intros m; [by exists m|].
  unfold min_outer. simpl.
  destruct (min_inner_ret residue a m) as [m' ->]. simpl. apply IH.
Qed.

Lemma is_residue_nearby_unfold fragment_atoms residue radius :
  is_residue_nearby fragment_atoms residue radius =
  if float_lt float_9999 radius then
    raise (ValueError "Radius must be smaller than 9999.0")
  else
    (min_distance <- min_outer fragment_atoms (residue_atoms residue) float_9999 ;;
     ret (float_lt min_distance radius)).
Proof. reflexivity. Qed.

(** X12.  [is_residue_nearby] raises [ValueError] exactly when the radius is
    above 9999, whatever the atoms are; otherwise it returns a boolean,
    which is [False] when the fragment or the residue has no atom. *)
Theorem is_residue_nearby_radius_check (fragment_atoms : list Atom)
    (residue : Residue) (radius : Float) :
  (float_lt float_9999 radius = true ->
   is_residue_nearby fragment_atoms residue radius =
   raise (ValueError "Radius must be smaller than 9999.0")) /\
  (float_lt float_9999 radius = false ->
   (exists b, is_residue_nearby fragment_atoms residue radius = ret b) /\
   (fragment_atoms = [] \/ residue_atoms residue = [] ->
    is_residue_nearby fragment_atoms residue radius = ret false)).
Proof.
  rewrite is_residue_nearby_unfold. split; intros Hr; rewrite Hr; [reflexivity|].
  split.
  - destruct (min_outer_ret fragment_atoms (residue_atoms residue) float_9999)
      as [m ->]. simpl. eauto.
  - intros [-> | ->]; [simpl; by rewrite Hr|].
    assert (forall fa m, min_outer fa [] m = ret m) as Hnil.
    { induction fa as [|a fa IH]; intros m; [reflexivity|].
      unfold min_outer in *. simpl. apply IH. }
    rewrite Hnil. simpl. by rewrite Hr.
Qed.

Section Ordered.
(** The floats at hand are ordered by [<] (none is a NaN): [<] is
    transitive, and so is its negation. *)
Hypothesis lt_trans : forall x y z,
  float_lt x y = true -> float_lt y z = true -> float_lt x z = true.
Hypothesis ge_trans : forall x y z,
  float_lt x y = false -> float_lt y z = false -> float_lt x z = false.

Lemma min_inner_lt residue a m r :
  exists m', min_inner residue a m = ret m' /\
    (float_lt m' r = true <->
     float_lt m r = true \/
     exists b, b ∈ residue /\ float_lt (distance_to a b) r = true).
Proof using lt_trans ge_trans.
  revert m. induction residue as [|b residue IH]; intros m.
  - exists m. split; [reflexivity|]. split; [by left|].
    intros [H|(b & Hb & _)]; [done|by apply not_elem_of_nil in Hb].
  - unfold min_inner in *. simpl.
    destruct (float_lt (distance_to a b) m) eqn:Hlt; simpl.
    + destruct (IH (distance_to a b)) as (m' & -> & Hm').
      exists m'. split; [reflexivity|]. rewrite Hm'. split.
      * intros [H|(b' & Hb' & H)]; right; [exists b; split; [by left|done]|].
        exists b'. split; [by right|done].
      * intros [H|(b' & [->|Hb']%elem_of_cons & H)]; [|by left|right; eauto].
        left. by apply (lt_trans _ m).
    + destruct (IH m) as (m' & -> & Hm').
      exists m'. split; [reflexivity|]. rewrite Hm'. split.
      * intros [H|(b' & Hb' & H)]; [by left|right].
        exists b'. split; [by right|done].
      * intros [H|(b' & [->|Hb']%elem_of_cons & H)]; [by left| |right; eauto].
        left. destruct (float_lt m r) eqn:Hm; [done|].
        by rewrite (ge_trans _ _ _ Hlt Hm) in H.
Qed.
Lemma min_outer_lt fragment_atoms residue m r :
  exists m', min_outer fragment_atoms residue m = ret m' /\
    (float_lt m' r = true <->
     float_lt m r = true \/
     exists a b, a ∈ fragment_atoms /\ b ∈ residue /\
                 float_lt (distance_to a b) r = true).
Proof using lt_trans ge_trans.
  revert m. induction fragment_atoms as [|a fa IH]; intros m.
  - exists m. split; [reflexivity|]. split; [by left|].
    intros [H|(a & b & Ha & _)]; [done|by apply not_elem_of_nil in Ha].
  - unfold min_outer in *. simpl.
    destruct (min_inner_lt residue a m r) as (m1 & -> & Hm1). simpl.
    destruct (IH m1) as (m' & -> & Hm').
    exists m'. split; [reflexivity|]. rewrite Hm', Hm1. split.
    + intros [[H|(b & Hb & H)]|(a' & b & Ha' & Hb & H)]; [by left|right..].
      * exists a, b. split; [by left|done].
      * exists a', b. split; [by right|done].
    + intros [H|(a' & b & [->|Ha']%elem_of_cons & Hb & H)]; [by left; left|left|right].
      * right. by exists b.
      * by exists a', b.
Qed.

(** X13.  For a radius not above 9999, [is_residue_nearby] returns [True]
    exactly when some atom of the fragment and some atom of the residue
    are at a distance below the radius; the order and the repetitions of
    the atoms do not matter. *)
Theorem is_residue_nearby_iff (fragment_atoms : list Atom)
    (residue : Residue) (radius : Float) :
  float_lt float_9999 radius = false ->
  exists nearby,
    is_residue_nearby fragment_atoms residue radius = ret nearby /\
    (nearby = true <->
     exists a b, a ∈ fragment_atoms /\ b ∈ residue_atoms residue /\
                 float_lt (distance_to a b) radius = true).
Proof using lt_trans ge_trans.
  intros Hr. rewrite is_residue_nearby_unfold, Hr.
  destruct (min_outer_lt fragment_atoms (residue_atoms residue) float_9999 radius)
    as (m & -> & Hm).
  exists (float_lt m radius). split; [reflexivity|].
  rewrite Hm, Hr. split; [by intros [?|?]|by right].
Qed.
End Ordered.
End NearbyFacts.

Section FragmentFacts.
Context {Atom Residue Float Ident : Type} `{Countable Atom}.
Variable float_lt : Float -> Float -> bool.
Variable float_9999 : Float.
Variable distance_to : Atom -> Atom -> Float.
Variable residue_atoms : Residue -> list Atom.
Variable strip : string -> string.
Variable name : Atom -> string.
Variable element : Atom -> string.
Variable bonded_atoms : Atom -> list Atom.

Local Abbreviation Fragment := (@Fragment.Fragment Atom Residue Ident).
Local Abbreviation atom_names := (@Fragment.atom_names Atom Residue Ident strip).
Local Abbreviation atoms :=
  (@Fragment.atoms Atom Residue Ident _ _ strip name element bonded_atoms).
Local Abbreviation site :=
  (@Fragment.site Atom Residue Float Ident _ _ float_lt float_9999 distance_to
     residue_atoms strip name element bonded_atoms).
Local Abbreviation is_residue_nearby :=
  (Fragment.is_residue_nearby float_lt float_9999 distance_to residue_atoms).

Lemma bonded_loop (bonded : list Atom) (acc : gset Atom) (a : Atom) :
  a ∈ foldl (fun atoms bonded_atom =>
               if String.eqb (element bonded_atom) "H"
               then atoms ∪ {[bonded_atom]} else atoms) acc bonded <->
  a ∈ acc \/ (a ∈ bonded /\ element a = "H"%string).
Proof.
  revert acc. induction bonded as [|b bonded IH]; intros acc; simpl.
  - split; [by left|]. intros [?|[?%not_elem_of_nil _]]; done.
  - rewrite IH. destruct (String.eqb_spec (element b) "H") as [Hb|Hb].
    + rewrite elem_of_union, elem_of_singleton, elem_of_cons. split.
      * intros [[?| ->]|[? ?]]; [by left|right|right]; split; try done; [by left|by right].
      * intros [?|[[-> |?] ?]]; [by left; left|by left; right|by right].
    + rewrite elem_of_cons. split.
      * intros [?|[? ?]]; [by left|right]. split; [by right|done].
      * intros [?|[[-> |?] ?]]; [by left|done|by right].
Qed.

(** X14.  The atoms of a fragment are the atoms of the parent whose name is
    the name of an atom of the molecule with PDB information, and the
    hydrogens bonded to these atoms, whether the parent lists them or
    not; nothing else. *)
Theorem atoms_iff (self : Fragment) (a : Atom) :
  a ∈ atoms self <->
  (a ∈ Fragment.parent_atoms self /\ name a ∈ atom_names self true) \/
  (exists p, p ∈ Fragment.parent_atoms self /\ name p ∈ atom_names self true /\
             a ∈ bonded_atoms p /\ element a = "H"%string).
Proof.
  unfold Fragment.atoms.
  set (names := list_to_set (atom_names self true) : gset string).
  assert (forall n, n ∈ names <-> n ∈ atom_names self true) as Hnames
    by (intros n; apply elem_of_list_to_set).
  setoid_rewrite <-Hnames. clearbody names. clear Hnames.
  enough (forall l (acc : gset Atom),
    a ∈ foldl (fun atoms atom =>
                 if decide (name atom ∈ names) then
                   foldl (fun atoms bonded_atom =>
                            if String.eqb (element bonded_atom) "H"
                            then atoms ∪ {[bonded_atom]} else atoms)
                         (atoms ∪ {[atom]}) (bonded_atoms atom)
                 else atoms) acc l <->
    a ∈ acc \/ (a ∈ l /\ name a ∈ names) \/
    (exists p, p ∈ l /\ name p ∈ names /\ a ∈ bonded_atoms p /\
               element a = "H"%string)) as Hloop.
  { rewrite Hloop. split; [|by right].
    intros [?%not_elem_of_empty|?]; done. }
  induction l as [|p l IH]; intros acc; simpl.
  - split; [by left|].
    intros [?|[[?%not_elem_of_nil _]|(p & ?%not_elem_of_nil & _)]]; done.
  - rewrite IH. destruct (decide (name p ∈ names)) as [Hp|Hp].
    + rewrite bonded_loop, elem_of_union, elem_of_singleton. split.
      * intros [[[?| ->]|[? ?]]|[[? ?]|(q & ? & ? & ? & ?)]].
        -- by left.
        -- right; left. split; [by left|done].
        -- right; right. exists p. split; [by left|done].
        -- right; left. split; [by right|done].
        -- right; right. exists q. split; [by right|done].
      * intros [?|[[[-> |?]%elem_of_cons ?]|(q & [-> |?]%elem_of_cons & ? & ? & ?)]].
        -- by left; left; left.
        -- by left; left; right.
        -- right; left. done.
        -- by left; right.
        -- right; right. by exists q.
    + split.
      * intros [?|[[? ?]|(q & ? & ? & ? & ?)]]; [by left|right; left|right; right].
        -- split; [by right|done].
        -- exists q. split; [by right|done].
      * intros [?|[[[-> |?]%elem_of_cons ?]|(q & [-> |?]%elem_of_cons & ? & ? & ?)]];
          [by left|done|right; left; done|done|right; right; by exists q].
Qed.

Lemma site_unfold (self : Fragment) (radius : Float) (residues : list Residue) :
  Fragment.parent_model self = Some residues ->
  site self radius =
  (atoms_of_near_residues <-
     for_ residues (fun residue atoms_of_near_residues =>
       nearby <- is_residue_nearby (elements (atoms self)) residue radius ;;
       if nearby : bool
       then ret (atoms_of_near_residues ∪ list_to_set (residue_atoms residue))
       else ret atoms_of_near_residues) ∅ ;;
   ret {| Fragment.site_atoms := atoms_of_near_residues;
          Fragment.ligand :=
            {| Fragment.molecule_atoms := atoms self;
               Fragment.molecule_id := Fragment.parent_molecule_id self;
               Fragment.molecule_name := Fragment.parent_name self |} |}).
Proof. intros Hm. unfold Fragment.site. by rewrite Hm. Qed.

Lemma site_no_model (self : Fragment) (radius : Float) :
  Fragment.parent_model self = None ->
  site self radius = raise AttributeError.
Proof. intros Hm. unfold Fragment.site. by rewrite Hm. Qed.

(** X15.  The radius is checked once for each residue: [site] raises
    [ValueError] for a radius above 9999 when the model has a residue, and
    for a model without residues it returns a site without atoms whatever
    the radius is. *)
Theorem site_radius_check (self : Fragment) (radius : Float) :
  (Fragment.parent_model self = Some [] ->
   site self radius =
   ret {| Fragment.site_atoms := ∅;
          Fragment.ligand :=
            {| Fragment.molecule_atoms := atoms self;
               Fragment.molecule_id := Fragment.parent_molecule_id self;
               Fragment.molecule_name := Fragment.parent_name self |} |}) /\
  (forall residues,
   float_lt float_9999 radius = true ->
   Fragment.parent_model self = Some residues -> residues <> [] ->
   site self radius = raise (ValueError "Radius must be smaller than 9999.0")).
Proof.
  split.
  - intros Hm. by rewrite (site_unfold _ _ _ Hm).
  - intros residues Hr Hm Hres. rewrite (site_unfold _ _ _ Hm).
    destruct residues as [|res l]; [done|].
    cbn [for_]. unfold Fragment.is_residue_nearby. by rewrite Hr.
Qed.

Section OrderedSite.
Hypothesis lt_trans : forall x y z,
  float_lt x y = true -> float_lt y z = true -> float_lt x z = true.
Hypothesis ge_trans : forall x y z,
  float_lt x y = false -> float_lt y z = false -> float_lt x z = false.

(** A residue has an atom at a distance below the radius from an atom of
    the fragment. *)
Definition within (self : Fragment) (radius : Float) (residue : Residue) : Prop :=
  exists a b, a ∈ atoms self /\ b ∈ residue_atoms residue /\
              float_lt (distance_to a b) radius = true.

Lemma site_loop (self : Fragment) (radius : Float) (residues : list Residue)
    (acc : gset Atom) :
  float_lt float_9999 radius = false ->
  exists acc',
    for_ residues (fun residue atoms_of_near_residues =>
      nearby <- is_residue_nearby (elements (atoms self)) residue radius ;;
      if nearby : bool
      then ret (atoms_of_near_residues ∪ list_to_set (residue_atoms residue))
      else ret atoms_of_near_residues) acc = ret acc' /\
    forall x, x ∈ acc' <->
      x ∈ acc \/ exists residue, residue ∈ residues /\ within self radius residue /\
                                  x ∈ residue_atoms residue.
Proof using lt_trans ge_trans.
  intros Hr. revert acc. induction residues as [|res l IH]; intros acc.
  - exists acc. split; [reflexivity|]. intros x. split; [by left|].
    intros [?|(r & ?%not_elem_of_nil & _)]; done.
  - cbn [for_].
    destruct (is_residue_nearby_iff float_lt float_9999 distance_to residue_atoms
                lt_trans ge_trans (elements (atoms self)) res radius Hr)
      as (nearby & -> & Hnearby).
    assert (nearby = true <-> within self radius res) as Hw.
    { rewrite Hnearby. unfold within. by setoid_rewrite elem_of_elements. }
    rewrite bind_ret_l. destruct nearby; rewrite bind_ret_l.
    + destruct (IH (acc ∪ list_to_set (residue_atoms res))) as (acc' & -> & Hacc).
      exists acc'. split; [reflexivity|]. intros x.
      rewrite Hacc, elem_of_union, elem_of_list_to_set. split.
      * intros [[?|?]|(r & ? & ? & ?)]; [by left|right|right].
        -- exists res. split; [by left|]. split; [by apply Hw|done].
        -- exists r. split; [by right|done].
      * intros [?|(r & [-> |?]%elem_of_cons & ? & ?)];
          [by left; left|by left; right|right; by exists r].
    + destruct (IH acc) as (acc' & -> & Hacc).
      exists acc'. split; [reflexivity|]. intros x. rewrite Hacc. split.
      * intros [?|(r & ? & ? & ?)]; [by left|right].
        exists r. split; [by right|done].
      * intros [?|(r & [-> |?]%elem_of_cons & Hin & ?)];
          [by left| |right; by exists r].
        apply Hw in Hin. discriminate.
Qed.

(** X16.  Where the distances are ordered by [<] (it is transitive, and so
    is its negation: no distance is a NaN): for a parent ligand that is in
    a model and a radius not above 9999, [site] returns a site whose ligand
    has the atoms of the fragment and the id and name of the parent, and
    whose atoms are the atoms of the residues of the model that have an
    atom at a distance below the radius from an atom of the fragment: such
    a residue is taken whole, and no other atom is taken.  For a parent
    ligand that is in no model, [site] raises [AttributeError] whatever the
    radius is. *)
Theorem site_atoms_iff (self : Fragment) (radius : Float) :
  (forall residues,
     Fragment.parent_model self = Some residues ->
     float_lt float_9999 radius = false ->
     exists s,
       site self radius = ret s /\
       Fragment.molecule_atoms (Fragment.ligand s) = atoms self /\
       Fragment.molecule_id (Fragment.ligand s) = Fragment.parent_molecule_id self /\
       Fragment.molecule_name (Fragment.ligand s) = Fragment.parent_name self /\
       forall x, x ∈ Fragment.site_atoms s <->
         exists residue, residue ∈ residues /\
                         within self radius residue /\ x ∈ residue_atoms residue) /\
  (Fragment.parent_model self = None ->
   site self radius = raise AttributeError).
Proof using lt_trans ge_trans.
  split; [|apply site_no_model].
  intros residues Hm Hr. rewrite (site_unfold _ _ _ Hm).
  destruct (site_loop self radius residues ∅ Hr) as (acc & -> & Hacc).
  eexists. split; [reflexivity|]. cbn.
  split; [reflexivity|]. split; [reflexivity|]. split; [reflexivity|].
  intros x. rewrite Hacc. split; [|by right].
  intros [?%not_elem_of_empty|?]; done.
Qed.
End OrderedSite.

End FragmentFacts.

(** * A concrete instance

    Features on a line, with positions and distances in tenths of an
    ångström; the thresholds are the twenty multiples of 0.8 Å that
    [calc_bins(fp_width=0.8, fp_multiplier=1, max_bins=20, max_distance=23)]
    describes, and the dictionary is a small one that holds the keys of the
    examples. *)
Module Demo.

Record feature : Type := Feature { fkind : FeatureKind; pos : Z }.

Definition distance (a b : feature) : Z := Z.abs (pos a - pos b).

(** Modelled from the spec: [kripo.fingerprint.utils.bin_distance], which
    is not among the sources: the smallest index [i] such that
    [d < bins[i]], or [len(bins)] if there is none. *)
Fixpoint bin_distance (d : Z) (bins : list Z) : nat :=
  match bins with
  | [] => 0%nat
  | t :: bins' => if d <? t then 0%nat else S (bin_distance d bins')
  end.

Definition BINS : list Z := (fun k => 8 * k) <$> seqZ 1 20.

Definition BIT_INFO : gmap pystr N :=
  list_to_map (zip
    (str <$> [ "H"; "P"; "R"; "HaP"; "HbP"; "HcP"; "HcR"; "HdR"; "HeR";
               "PaR"; "PbR"; "PcR"; "HRPbbd"; "HRPabd"; "RHPbcd"; "RHPabd";
               "HRPbcd"; "HRPbbc"; "HRPbbe"; "HbH"; "HHPabb"; "RHHbcd";
               "RHPabc" ]%string)
    (N.of_nat <$> seq 0 23)).

Definition encode : list feature -> bool -> Z -> M (gset N) :=
  from_pharmacophore fkind distance bin_distance BINS BIT_INFO.

(** [ordered_features] of a call. *)
Definition ordered (P : list feature) : list feature :=
  sorted N.ltb (fun f => FEATURE2BIT (fkind f)) P.

(** Three features of three kinds; four features, two of one kind, in two
    orders; and a pair and a triple with a distance beyond the last
    threshold. *)
Definition P3 : list feature :=
  [Feature AROM 30; Feature LIPO 0; Feature POSC 15].
Definition P4 : list feature :=
  [Feature LIPO 8; Feature AROM 30; Feature LIPO 0; Feature POSC 15].
Definition P4' : list feature :=
  [Feature LIPO 0; Feature POSC 15; Feature LIPO 8; Feature AROM 30].
Definition far : list feature :=
  [Feature LIPO 0; Feature POSC 200; Feature AROM 30].

Lemma distance_symmetric (x y : feature) : distance x y = distance y x.
Proof. unfold distance. lia. Qed.

Lemma bin_distance_bound (d : Z) (bins : list Z) :
  (bin_distance d bins <= length bins)%nat.
Proof.
  induction bins as [|t bins IH]; simpl; [lia|].
  destruct (d <? t); lia.
Qed.

Lemma BINS_letters : Z.of_nat (length BINS) + 97 < 1114112.
Proof. reflexivity. Qed.

End Demo.

(** The encoder on the examples. *)

Example encode_P3 :
  Demo.encode Demo.P3 true 0 = ret (list_to_set [0; 1; 2; 4; 7; 10; 12]%N).
Proof. vm_compute. reflexivity. Qed.

Example encode_P3_triples_only :
  Demo.encode Demo.P3 false 0 = ret {[ 12%N ]}.
Proof. vm_compute. reflexivity. Qed.

Example encode_P3_axis_fuzz :
  Demo.encode Demo.P3 false (-2) =
  ret (list_to_set [12; 13; 14; 15; 16; 17; 18]%N).
Proof. vm_compute. reflexivity. Qed.

Example encode_P3_legacy_fuzz :
  Demo.encode Demo.P3 false (-1) = raise (KeyError (str "HRPcde")).
Proof. vm_compute. reflexivity. Qed.

Example encode_P3_invalid_fuzz :
  Demo.encode Demo.P3 true (-3) = raise (ValueError "Invalid fuzzy_factor").
Proof. vm_compute. reflexivity. Qed.

Example encode_far_pair :
  Demo.encode Demo.far true 0 = raise (KeyError (str "HuP")).
Proof. vm_compute. reflexivity. Qed.

Example encode_far_triple :
  Demo.encode Demo.far false 0 = raise (KeyError (str "PHRduu")).
Proof. vm_compute. reflexivity. Qed.

(** * The theorems on the instance *)

(** An equation of a theorem whose right-hand side is evaluated. *)
Ltac evaluated H := etransitivity; [exact H|vm_compute; reflexivity].

Lemma from_pharmacophore_permutation_invariant_witness :
  (3 <= length Demo.P4)%nat /\ Demo.P4 ≡ₚ Demo.P4' /\
  (Demo.encode Demo.P4 true 0 =
     inr (list_to_set [0; 1; 2; 3; 4; 6; 7; 10; 12; 19; 20; 21; 22]%N) <->
   Demo.encode Demo.P4' true 0 =
     inr (list_to_set [0; 1; 2; 3; 4; 6; 7; 10; 12; 19; 20; 21; 22]%N)) /\
  Demo.encode Demo.P4' true 0 =
    inr (list_to_set [0; 1; 2; 3; 4; 6; 7; 10; 12; 19; 20; 21; 22]%N).
Proof.
  assert (Demo.P4 ≡ₚ Demo.P4') as Hperm by (unfold Demo.P4, Demo.P4'; solve_perm4).
  assert (3 <= length Demo.P4)%nat as Hlen by (simpl; lia).
  pose proof (from_pharmacophore_permutation_invariant
                Demo.fkind Demo.distance Demo.bin_distance Demo.BINS Demo.BIT_INFO
                Demo.distance_symmetric Demo.P4 Demo.P4' true 0
                (list_to_set [0; 1; 2; 3; 4; 6; 7; 10; 12; 19; 20; 21; 22]%N)
                Hlen Hperm) as Hiff.
  split; [exact Hlen|]. split; [exact Hperm|]. split; [exact Hiff|].
  apply Hiff. vm_compute. reflexivity.
Defined.

(** The features of [Demo.P3] by tag, and their distance matrix. *)
Definition l3 : list Demo.feature :=
  [Demo.Feature LIPO 0; Demo.Feature POSC 15; Demo.Feature AROM 30].
Definition dm3 : list (list Z) := [[0; 15; 30]; [15; 0; 15]; [30; 15; 0]].

Example ordered_P3 :
  sorted N.ltb (fun f => FEATURE2BIT (Demo.fkind f)) Demo.P3 = l3.
Proof. reflexivity. Qed.

Example triple_body_P3 :
  triple_body Demo.fkind Demo.bin_distance Demo.BINS ∅ l3 dm3 20 [] 0 1 2 ∅ =
  raise (KeyError (str "HRPbbd")).
Proof. vm_compute. reflexivity. Qed.

Lemma triple_base_key_witness :
  (0 < 1 < 2)%nat /\
  Demo.ordered Demo.P3 !! 0%nat = Some (Demo.Feature LIPO 0) /\
  Demo.ordered Demo.P3 !! 1%nat = Some (Demo.Feature POSC 15) /\
  Demo.ordered Demo.P3 !! 2%nat = Some (Demo.Feature AROM 30) /\
  Demo.encode Demo.P3 false 0 = inr {[ 12%N ]} /\
  exists d0 d1 d2,
    [d0; d1; d2] = [ {| id := ord "H"; bin := 1 |};
                     {| id := ord "R"; bin := 1 |};
                     {| id := ord "P"; bin := 3 |} ] /\
    (exists n,
       Demo.BIT_INFO !! [ id d0; id d1; id d2;
                          bin_char (bin d0); bin_char (bin d1); bin_char (bin d2) ]
         = Some n /\ n ∈ ({[ 12%N ]} : gset N)) /\
    (forall dm offsets bits,
       calculate_distance_matrix Demo.distance (Demo.ordered Demo.P3) = ret dm ->
       triple_body Demo.fkind Demo.bin_distance Demo.BINS Demo.BIT_INFO
         (Demo.ordered Demo.P3) dm 20 offsets 0 1 2 bits =
       match Demo.BIT_INFO !! [ id d0; id d1; id d2;
                                bin_char (bin d0); bin_char (bin d1);
                                bin_char (bin d2) ] with
       | Some n => for_ offsets (triple_fuzz Demo.BIT_INFO 20 [d0; d1; d2])
                        (bits ∪ {[n]})
       | None => raise (KeyError [ id d0; id d1; id d2;
                                   bin_char (bin d0); bin_char (bin d1);
                                   bin_char (bin d2) ])
       end).
Proof.
  assert (0 < 1 < 2)%nat as Habc by lia.
  assert (Demo.encode Demo.P3 false 0 = inr {[ 12%N ]}) as Hrun
    by (vm_compute; reflexivity).
  destruct (triple_base_key Demo.fkind Demo.distance Demo.bin_distance Demo.BINS
            Demo.BIT_INFO (fun d => Demo.bin_distance_bound d Demo.BINS)
            Demo.BINS_letters Demo.P3 false 0 0%nat 1%nat 2%nat _ _ _
              Habc eq_refl eq_refl eq_refl)
    as (d0 & d1 & d2 & Hperm & H01 & H12 & Hfp & _ & Hbody).
  split; [exact Habc|]. split; [reflexivity|]. split; [reflexivity|].
  split; [reflexivity|]. split; [exact Hrun|].
  exists d0, d1, d2. split; [|split; [exact (Hfp _ Hrun)|exact Hbody]].
  symmetry. exact (sorted_obs_three_eq _ _ _ d0 d1 d2 Hperm H01 H12).
Defined.

Example triple_fuzz_resorts :
  triple_fuzz ∅ 20 [ {| id := ord "H"; bin := 1 |}; {| id := ord "R"; bin := 1 |};
                     {| id := ord "P"; bin := 3 |} ] (1, 0, 0) ∅ =
  raise (KeyError (str "RHPbcd")).
Proof. vm_compute. reflexivity. Qed.

Example triple_fuzz_discards_top :
  triple_fuzz ∅ 20 [ {| id := ord "P"; bin := 3 |}; {| id := ord "H"; bin := 19 |};
                     {| id := ord "R"; bin := 19 |} ] (0, 1, 0) ∅ = ret ∅.
Proof. vm_compute. reflexivity. Qed.

(** The sorted observations of the triple of [Demo.P3], and the offsets of
    [fuzzy_factor = -2]. *)
Definition d3 : list obs := [Obs (ord "H") 1; Obs (ord "R") 1; Obs (ord "P") 3].
Definition axis_offsets : list (Z * Z * Z) :=
  [(0, 0, 0); (-1, 0, 0); (1, 0, 0); (0, -1, 0); (0, 1, 0); (0, 0, -1); (0, 0, 1)].

(** The fingerprint of [Demo.P3] with [subs] and [fuzzy_factor = -2]. *)
Definition fp_axis : gset N :=
  list_to_set [0; 1; 2; 3; 4; 5; 6; 7; 8; 9; 10; 11; 12; 13; 14; 15; 16; 17; 18]%N.

Lemma triple_fuzz_step_witness :
  ~ (0 <= 1 + 0 < 20 /\ 0 <= 1 + 0 < 20 /\ 0 <= 3 + 17 < 20) /\
  triple_fuzz Demo.BIT_INFO 20 d3 (0, 0, 17) ∅ = ret ∅ /\
  (0 <= 1 + 1 < 20 /\ 0 <= 1 + 0 < 20 /\ 0 <= 3 + 0 < 20) /\
  fuzzy_offsets (-2) = ret axis_offsets /\
  (1, 0, 0) ∈ axis_offsets /\
  d3 ≡ₚ [Obs (ord "H") 1; Obs (ord "P") 3; Obs (ord "R") 1] /\
  obs_le (Obs (ord "H") 1) (Obs (ord "R") 1) /\
  obs_le (Obs (ord "R") 1) (Obs (ord "P") 3) /\
  Demo.encode Demo.P3 false (-2) =
    inr (list_to_set [12; 13; 14; 15; 16; 17; 18]%N) /\
  (exists e0 e1 e2,
     [e0; e1; e2] = [ Obs (ord "R") 1;
                      {| id := ord "H"; bin := 2 |};
                      Obs (ord "P") 3 ] /\
     (forall bits,
        triple_fuzz Demo.BIT_INFO 20 d3 (1, 0, 0) bits =
        match Demo.BIT_INFO !! [ id e0; id e1; id e2;
                                 bin_char (bin e0); bin_char (bin e1);
                                 bin_char (bin e2) ] with
        | Some n => ret (bits ∪ {[n]})
        | None => raise (KeyError [ id e0; id e1; id e2;
                                    bin_char (bin e0); bin_char (bin e1);
                                    bin_char (bin e2) ])
        end) /\
     exists n,
       Demo.BIT_INFO !! [ id e0; id e1; id e2;
                          bin_char (bin e0); bin_char (bin e1); bin_char (bin e2) ]
         = Some n /\
       n ∈ (list_to_set [12; 13; 14; 15; 16; 17; 18]%N : gset N)) /\
  (14%N ∈ (list_to_set [12; 13; 14; 15; 16; 17; 18]%N : gset N) ->
   exists offsets (a b c : nat) (x y z : Demo.feature) (b0 b1 b2 : obs),
     fuzzy_offsets (-2) = ret offsets /\ (a < b < c)%nat /\
     Demo.ordered Demo.P3 !! a = Some x /\ Demo.ordered Demo.P3 !! b = Some y /\
     Demo.ordered Demo.P3 !! c = Some z /\
     [b0; b1; b2] ≡ₚ
       [ {| id := FEATURE2BIT (Demo.fkind x);
            bin := Z.of_nat (Demo.bin_distance (Demo.distance y z) Demo.BINS) |};
         {| id := FEATURE2BIT (Demo.fkind y);
            bin := Z.of_nat (Demo.bin_distance (Demo.distance x z) Demo.BINS) |};
         {| id := FEATURE2BIT (Demo.fkind z);
            bin := Z.of_nat (Demo.bin_distance (Demo.distance x y) Demo.BINS) |} ] /\
     obs_le b0 b1 /\ obs_le b1 b2 /\
     (Demo.BIT_INFO !! [ id b0; id b1; id b2;
                         bin_char (bin b0); bin_char (bin b1); bin_char (bin b2) ]
        = Some 14%N \/
      exists i' j' k' e0 e1 e2,
        (i', j', k') ∈ offsets /\
        0 <= bin b0 + i' < 20 /\ 0 <= bin b1 + j' < 20 /\
        0 <= bin b2 + k' < 20 /\
        [e0; e1; e2] ≡ₚ [ {| id := id b0; bin := bin b0 + i' |};
                          {| id := id b1; bin := bin b1 + j' |};
                          {| id := id b2; bin := bin b2 + k' |} ] /\
        obs_le e0 e1 /\ obs_le e1 e2 /\
        Demo.BIT_INFO !! [ id e0; id e1; id e2;
                           bin_char (bin e0); bin_char (bin e1); bin_char (bin e2) ]
          = Some 14%N)).
Proof.
  assert (~ (0 <= 1 + 0 < 20 /\ 0 <= 1 + 0 < 20 /\ 0 <= 3 + 17 < 20)) as Hout by lia.
  assert (0 <= 1 + 1 < 20) as H0 by lia.
  assert (0 <= 1 + 0 < 20) as H1 by lia.
  assert (0 <= 3 + 0 < 20) as H2 by lia.
  assert (fuzzy_offsets (-2) = ret axis_offsets) as Hoff by reflexivity.
  assert ((1, 0, 0) ∈ axis_offsets) as Hin by (right; right; left).
  assert (d3 ≡ₚ [Obs (ord "H") 1; Obs (ord "P") 3; Obs (ord "R") 1]) as Hperm
    by solve_perm3.
  assert (obs_le (Obs (ord "H") 1) (Obs (ord "R") 1)) as H01
    by (right; split; [reflexivity|by vm_compute]).
  assert (obs_le (Obs (ord "R") 1) (Obs (ord "P") 3)) as H12 by (left; simpl; lia).
  assert (Demo.encode Demo.P3 false (-2) =
          inr (list_to_set [12; 13; 14; 15; 16; 17; 18]%N)) as Hrun
    by (vm_compute; reflexivity).
  assert (0 < 1 < 2)%nat as Habc by lia.
  split; [exact Hout|]. split.
  { exact (proj1 (triple_fuzz_step Demo.fkind Demo.distance Demo.bin_distance Demo.BINS
            Demo.BIT_INFO (fun d => Demo.bin_distance_bound d Demo.BINS)
            Demo.BINS_letters (Obs (ord "H") 1) (Obs (ord "R") 1) (Obs (ord "P") 3)
            0 0 17) Hout ∅). }
  split; [by repeat split|]. split; [exact Hoff|]. split; [exact Hin|].
  split; [exact Hperm|]. split; [exact H01|]. split; [exact H12|].
  split; [exact Hrun|].
  destruct (triple_fuzz_step Demo.fkind Demo.distance Demo.bin_distance Demo.BINS
            Demo.BIT_INFO (fun d => Demo.bin_distance_bound d Demo.BINS)
            Demo.BINS_letters (Obs (ord "H") 1) (Obs (ord "R") 1) (Obs (ord "P") 3)
            1 0 0)
    as (_ & Hkeep & Horigin).
  split.
  - destruct (Hkeep H0 H1 H2) as (e0 & e1 & e2 & Hperm' & He01 & He12 & Hstep & Hcall).
    exists e0, e1, e2. split; [|split; [exact Hstep|]].
    + symmetry. exact (sorted_obs_three_eq _ _ _ e0 e1 e2 Hperm' He01 He12).
    + exact (proj1 (Hcall Demo.P3 false (-2) _ 0%nat 1%nat 2%nat _ _ _
                      Hoff Hin Habc eq_refl eq_refl eq_refl Hperm H01 H12)
               _ Hrun).
  - exact (Horigin Demo.P3 (-2) _ 14%N Hrun).
Defined.

Example pair_body_keeps_order :
  pair_body Demo.fkind Demo.bin_distance Demo.BINS ∅
    [Demo.Feature AROM 30; Demo.Feature LIPO 0] [[0; 30]; [30; 0]] 20 0
    0 1 ∅ = raise (KeyError (str "RdH")).
Proof. vm_compute. reflexivity. Qed.

Example pair_fuzz_at_length :
  pair_fuzz ∅ 20 (ord "H", ord "P") 19 1 ∅ = raise (KeyError (str "HuP")).
Proof. vm_compute. reflexivity. Qed.

Example pair_fuzz_above_length :
  pair_fuzz ∅ 20 (ord "H", ord "P") 20 1 ∅ = ret ∅.
Proof. vm_compute. reflexivity. Qed.

Lemma pair_fuzz_radius_and_bounds_witness :
  pair_fuzzy_factor (-2) = 1 /\
  pair_fuzzy_factor 3 = 3 /\
  rangeZ (0 - pair_fuzzy_factor (-2)) (pair_fuzzy_factor (-2) + 1) = [-1; 0; 1] /\
  calculate_distance_matrix Demo.distance l3 = ret dm3 /\
  pair_body Demo.fkind Demo.bin_distance Demo.BINS Demo.BIT_INFO l3 dm3 20
    (pair_fuzzy_factor (-2)) 0 1 ∅ =
  for_ [-1; 0; 1] (pair_fuzz Demo.BIT_INFO 20 (ord "H", ord "P") 1) {[ 4%N ]} /\
  pair_fuzz Demo.BIT_INFO 20 (ord "H", ord "P") 20 1 ∅ = ret ∅ /\
  pair_fuzz Demo.BIT_INFO 20 (ord "H", ord "P") 19 1 ∅ =
    raise (KeyError (str "HuP")) /\
  pair_fuzz Demo.BIT_INFO 20 (ord "H", ord "P") 1 1 ∅ = ret {[ 5%N ]} /\
  Demo.encode Demo.P3 true (-2) = inr fp_axis /\
  (exists n, Demo.BIT_INFO !! str "HcP" = Some n /\ n ∈ fp_axis) /\
  ((exists x, x ∈ Demo.P3 /\
              Demo.BIT_INFO !! [FEATURE2BIT (Demo.fkind x)] = Some 5%N) \/
   (exists (a b : nat) (x y : Demo.feature) (i : Z),
      (a < b)%nat /\
      Demo.ordered Demo.P3 !! a = Some x /\ Demo.ordered Demo.P3 !! b = Some y /\
      - pair_fuzzy_factor (-2) <= i <= pair_fuzzy_factor (-2) /\
      0 <= Z.of_nat (Demo.bin_distance (Demo.distance x y) Demo.BINS) + i <= 20 /\
      Demo.BIT_INFO !! [ FEATURE2BIT (Demo.fkind x);
                         bin_char (Z.of_nat (Demo.bin_distance (Demo.distance x y)
                                               Demo.BINS) + i);
                         FEATURE2BIT (Demo.fkind y) ] = Some 5%N) \/
   (exists key, length key = 6%nat /\ Demo.BIT_INFO !! key = Some 5%N)) /\
  triple_fuzz Demo.BIT_INFO 20
    [ {| id := ord "P"; bin := 3 |}; {| id := ord "H"; bin := 19 |};
      {| id := ord "R"; bin := 19 |} ] (0, 1, 0) ∅ = ret ∅.
Proof.
  assert (calculate_distance_matrix Demo.distance l3 = ret dm3) as Hdm
    by reflexivity.
  assert (Demo.encode Demo.P3 true (-2) = inr fp_axis) as Hrun
    by (vm_compute; reflexivity).
  assert (5%N ∈ fp_axis) as Hin by (by vm_compute).
  destruct (pair_fuzz_radius_and_bounds Demo.fkind Demo.distance Demo.bin_distance Demo.BINS
            Demo.BIT_INFO (fun d => Demo.bin_distance_bound d Demo.BINS)
            Demo.BINS_letters (-2))
    as (Hneg & _ & _ & _ & Hbody & Hskip & Hkeep & Hcall & Horigin & Htriple).
  destruct (pair_fuzz_radius_and_bounds Demo.fkind Demo.distance Demo.bin_distance Demo.BINS
            Demo.BIT_INFO (fun d => Demo.bin_distance_bound d Demo.BINS)
            Demo.BINS_letters 3) as (_ & Hpos & _).
  split; [apply Hneg; lia|]. split; [apply Hpos; lia|].
  split; [reflexivity|]. split; [exact Hdm|].
  assert (0 <= 19 + 1 <= Z.of_nat (length Demo.BINS)) as Htop
    by (change (Z.of_nat (length Demo.BINS)) with 20; lia).
  assert (0 <= 1 + 1 <= Z.of_nat (length Demo.BINS)) as Hmid
    by (change (Z.of_nat (length Demo.BINS)) with 20; lia).
  split; [evaluated (Hbody l3 dm3 0%nat 1%nat _ _ ∅ Hdm eq_refl eq_refl)|].
  split; [apply Hskip; change (Z.of_nat (length Demo.BINS)) with 20; lia|].
  split; [evaluated (Hkeep (ord "H") (ord "P") 19 1 ∅ Htop)|].
  split; [evaluated (Hkeep (ord "H") (ord "P") 1 1 ∅ Hmid)|].
  split; [exact Hrun|].
  split.
  - assert (- pair_fuzzy_factor (-2) <= 1 <= pair_fuzzy_factor (-2)) as Hi
      by (change (pair_fuzzy_factor (-2)) with 1; lia).
    assert (0 <= Z.of_nat (Demo.bin_distance
                             (Demo.distance (Demo.Feature LIPO 0)
                                            (Demo.Feature POSC 15)) Demo.BINS) + 1
              <= Z.of_nat (length Demo.BINS)) as Hbin
      by (change (0 <= 1 + 1 <= 20); lia).
    exact (proj1 (Hcall Demo.P3 0%nat 1%nat _ _ 1 ltac:(lia) eq_refl eq_refl Hi Hbin)
             _ Hrun).
  - split; [exact (Horigin Demo.P3 _ 5%N Hrun Hin)|].
    apply Htriple. right; left. change (20 <= 19 + 1). lia.
Defined.

Lemma subs_gates_singles_and_pairs_witness :
  Demo.Feature LIPO 0 ∈ Demo.P3 /\
  Demo.encode Demo.P3 true (-2) = inr fp_axis /\
  (exists n, Demo.BIT_INFO !! str "H" = Some n /\ n ∈ fp_axis) /\
  (exists n, Demo.BIT_INFO !! str "HbP" = Some n /\ n ∈ fp_axis) /\
  Demo.encode Demo.P3 false (-2) =
    inr (list_to_set [12; 13; 14; 15; 16; 17; 18]%N) /\
  (exists key, length key = 6%nat /\ Demo.BIT_INFO !! key = Some 14%N) /\
  (exists n, Demo.BIT_INFO !! str "HRPbbd" = Some n /\
             n ∈ (list_to_set [12; 13; 14; 15; 16; 17; 18]%N : gset N)) /\
  -2 <= 1 /\
  Demo.BIT_INFO !! [FEATURE2BIT LIPO] = Some 0%N /\ (0 < 2 ^ 31)%N /\
  Demo.encode [Demo.Feature LIPO 0] false 1 = ret ∅ /\
  Demo.encode [Demo.Feature LIPO 0] true 1 = ret {[ 0%N ]} /\
  size ({[ 0%N ]} : gset N) = 1%nat /\
  Demo.BIT_INFO !! [FEATURE2BIT NEGC] = None /\
  Demo.encode [Demo.Feature NEGC 0] true 1 = raise (KeyError (str "N")) /\
  -3 < -2 /\
  Demo.encode [Demo.Feature LIPO 0] false (-3) =
    raise (ValueError "Invalid fuzzy_factor") /\
  Demo.encode [Demo.Feature LIPO 0] true (-3) =
    raise (ValueError "Invalid fuzzy_factor").
Proof.
  assert (Demo.Feature LIPO 0 ∈ Demo.P3) as Hx by (right; left).
  assert (Demo.encode Demo.P3 true (-2) = inr fp_axis) as Hrun
    by (vm_compute; reflexivity).
  assert (Demo.encode Demo.P3 false (-2) =
          inr (list_to_set [12; 13; 14; 15; 16; 17; 18]%N)) as Hrun'
    by (vm_compute; reflexivity).
  assert (14%N ∈ (list_to_set [12; 13; 14; 15; 16; 17; 18]%N : gset N)) as Hin
    by (by vm_compute).
  assert (-2 <= 1) as Hf by lia.
  assert (-3 < -2) as Hf' by lia.
  assert (Demo.BIT_INFO !! [FEATURE2BIT LIPO] = Some 0%N) as Hkey
    by (vm_compute; reflexivity).
  assert (Demo.BIT_INFO !! [FEATURE2BIT NEGC] = None) as Hnokey
    by (vm_compute; reflexivity).
  assert (0 < 2 ^ 31)%N as Hlt by (by vm_compute).
  assert (0 < 1 < 2)%nat as Habc by lia.
  destruct (subs_gates_singles_and_pairs Demo.fkind Demo.distance
            Demo.bin_distance Demo.BINS Demo.BIT_INFO
            (fun d => Demo.bin_distance_bound d Demo.BINS)
            Demo.BINS_letters Demo.P3 (-2)
              (Demo.Feature LIPO 0))
    as (Hsingle & Hpair & Honly & Htriple & _ & _).
  destruct (subs_gates_singles_and_pairs Demo.fkind Demo.distance
            Demo.bin_distance Demo.BINS Demo.BIT_INFO
            (fun d => Demo.bin_distance_bound d Demo.BINS)
            Demo.BINS_letters Demo.P3 1
              (Demo.Feature LIPO 0)) as (_ & _ & _ & _ & Hone & _).
  destruct (subs_gates_singles_and_pairs Demo.fkind Demo.distance
            Demo.bin_distance Demo.BINS Demo.BIT_INFO
            (fun d => Demo.bin_distance_bound d Demo.BINS)
            Demo.BINS_letters Demo.P3 1
              (Demo.Feature NEGC 0)) as (_ & _ & _ & _ & Hone' & _).
  destruct (subs_gates_singles_and_pairs Demo.fkind Demo.distance
            Demo.bin_distance Demo.BINS Demo.BIT_INFO
            (fun d => Demo.bin_distance_bound d Demo.BINS)
            Demo.BINS_letters Demo.P3 (-3)
              (Demo.Feature LIPO 0)) as (_ & _ & _ & _ & _ & Hbad).
  destruct (Hone Hf) as (Hfalse & Htrue & _ & _).
  destruct (Hone' Hf) as (_ & _ & _ & Hnone).
  destruct (Hbad Hf') as (Hbadfalse & Hbadtrue & _).
  split; [exact Hx|]. split; [exact Hrun|].
  split; [exact (proj1 (Hsingle _ Hx) _ Hrun)|].
  split; [exact (proj1 (Hpair 0%nat 1%nat _ _ ltac:(lia) eq_refl eq_refl) _ Hrun)|].
  split; [exact Hrun'|].
  split; [exact (Honly _ 14%N Hrun' Hin)|].
  split; [exact (proj1 (Htriple false 0%nat 1%nat 2%nat _ _ _ Habc
                          eq_refl eq_refl eq_refl) _ Hrun')|].
  split; [exact Hf|]. split; [exact Hkey|]. split; [exact Hlt|].
  split; [exact Hfalse|].
  split; [exact (proj1 (Htrue 0%N Hkey Hlt))|].
  split; [exact (proj2 (Htrue 0%N Hkey Hlt))|].
  split; [exact Hnokey|]. split; [exact (Hnone Hnokey)|].
  split; [exact Hf'|]. split; [exact Hbadfalse|].
  exact (Hbadtrue 0%N Hkey).
Defined.

(** C7, counterexample.  One feature whose encoding is neither the empty
    fingerprint nor a fingerprint of one bit: an invalid [fuzzy_factor]
    gives [ValueError] with and without [subs]; a dictionary that lacks
    the tag gives [KeyError]; a dictionary that holds the tag with the bit
    [2^31] gives [ValueError].  So the encoding of one feature is not for
    every feature and every [fuzzy_factor] the empty fingerprint without
    [subs] and one bit with [subs]. *)
Lemma subs_gates_singles_and_pairs_counterexample :
  Demo.encode [Demo.Feature LIPO 0] false (-3) =
    raise (ValueError "Invalid fuzzy_factor") /\
  Demo.encode [Demo.Feature LIPO 0] true (-3) =
    raise (ValueError "Invalid fuzzy_factor") /\
  Demo.encode [Demo.Feature NEGC 0] true 1 = raise (KeyError (str "N")) /\
  from_pharmacophore Demo.fkind Demo.distance Demo.bin_distance Demo.BINS
    {[ str "H" := (2 ^ 31)%N ]} [Demo.Feature LIPO 0] true 1 =
    raise (ValueError "retrieving integers from rhs is impossible") /\
  ~ (forall (a : Demo.feature) (f : Z),
       Demo.encode [a] false f = ret ∅ /\
       exists i, Demo.encode [a] true f = ret {[ i ]}).
Proof.
  assert (Demo.encode [Demo.Feature LIPO 0] false (-3) =
          raise (ValueError "Invalid fuzzy_factor")) as Hbad
    by (vm_compute; reflexivity).
  split; [exact Hbad|].
  split; [vm_compute; reflexivity|].
  split; [vm_compute; reflexivity|].
  split; [vm_compute; reflexivity|].
  intros Hall. destruct (Hall (Demo.Feature LIPO 0) (-3)) as [Hempty _].
  rewrite Hbad in Hempty. discriminate Hempty.
Qed.

Lemma unknown_key_aborts_witness :
  ret (str "HuP") ∈
    all_items Demo.fkind Demo.distance Demo.bin_distance Demo.BINS
      (Demo.ordered Demo.far) true 0 /\
  Demo.BIT_INFO !! str "HuP" = None /\
  exists pre k post,
    all_items Demo.fkind Demo.distance Demo.bin_distance Demo.BINS
      (Demo.ordered Demo.far) true 0 =
    pre ++ ret k :: post /\
    (forall mk, mk ∈ pre -> is_Some (item_bit Demo.BIT_INFO mk)) /\
    Demo.BIT_INFO !! k = None /\
    Demo.encode Demo.far true 0 = raise (KeyError k).
Proof.
  assert (ret (str "HuP") ∈
            all_items Demo.fkind Demo.distance Demo.bin_distance Demo.BINS
              (Demo.ordered Demo.far) true 0)
    as Hin.
  { apply list_elem_of_lookup. exists 3%nat. vm_compute. reflexivity. }
  assert (Demo.BIT_INFO !! str "HuP" = None) as Hnone by (vm_compute; reflexivity).
  split; [exact Hin|]. split; [exact Hnone|].
  exact (unknown_key_aborts Demo.fkind Demo.distance Demo.bin_distance Demo.BINS
           Demo.BIT_INFO (fun d => Demo.bin_distance_bound d Demo.BINS) Demo.BINS_letters
           Demo.far true 0 (str "HuP") Hin Hnone).
Defined.

Lemma pair_base_key_witness :
  (0 < 1)%nat /\
  Demo.ordered Demo.P3 !! 0%nat = Some (Demo.Feature LIPO 0) /\
  Demo.ordered Demo.P3 !! 1%nat = Some (Demo.Feature POSC 15) /\
  (ord "H" <= ord "P")%N /\
  Demo.encode Demo.P3 true 0 = inr (list_to_set [0; 1; 2; 4; 7; 10; 12]%N) /\
  (exists n, Demo.BIT_INFO !! str "HbP" = Some n /\
             n ∈ (list_to_set [0; 1; 2; 4; 7; 10; 12]%N : gset N)) /\
  calculate_distance_matrix Demo.distance
    [Demo.Feature AROM 30; Demo.Feature LIPO 0] = ret [[0; 30]; [30; 0]] /\
  pair_body Demo.fkind Demo.bin_distance Demo.BINS Demo.BIT_INFO
    [Demo.Feature AROM 30; Demo.Feature LIPO 0] [[0; 30]; [30; 0]] 20 0
    0 1 ∅ = raise (KeyError (str "RdH")).
Proof.
  assert (0 < 1)%nat as Hab by lia.
  assert (Demo.encode Demo.P3 true 0 =
          inr (list_to_set [0; 1; 2; 4; 7; 10; 12]%N)) as Hrun
    by (vm_compute; reflexivity).
  assert (calculate_distance_matrix Demo.distance
            [Demo.Feature AROM 30; Demo.Feature LIPO 0] = ret [[0; 30]; [30; 0]])
    as Hdm by reflexivity.
  destruct (pair_base_key Demo.fkind Demo.distance Demo.bin_distance Demo.BINS
            Demo.BIT_INFO (fun d => Demo.bin_distance_bound d Demo.BINS)
            Demo.BINS_letters Demo.P3 0 0%nat 1%nat _ _
              Hab eq_refl eq_refl) as (Htags & Hfp & _ & Hbody).
  split; [exact Hab|]. split; [reflexivity|]. split; [reflexivity|].
  split; [exact Htags|]. split; [exact Hrun|]. split; [exact (Hfp _ Hrun)|].
  split; [exact Hdm|].
  evaluated (Hbody [Demo.Feature AROM 30; Demo.Feature LIPO 0]
               [[0; 30]; [30; 0]] 0 0%nat 1%nat _ _ ∅ Hdm eq_refl eq_refl).
Defined.

(** The features of [Demo.far] by tag, and their distance matrix: the
    distances 200 and 170 fall in bin 20, the length of the table. *)
Definition dm_far : list (list Z) := [[0; 200; 30]; [200; 0; 170]; [30; 170; 0]].

Lemma base_key_unchecked_witness :
  calculate_distance_matrix Demo.distance (Demo.ordered Demo.far) = ret dm_far /\
  (0 < 1)%nat /\ (0 < 1 < 2)%nat /\
  Demo.ordered Demo.far !! 0%nat = Some (Demo.Feature LIPO 0) /\
  Demo.ordered Demo.far !! 1%nat = Some (Demo.Feature POSC 200) /\
  Demo.ordered Demo.far !! 2%nat = Some (Demo.Feature AROM 30) /\
  Demo.bin_distance 200 Demo.BINS = length Demo.BINS /\
  Demo.BIT_INFO !! str "HuP" = None /\
  Demo.BIT_INFO !! str "PHRduu" = None /\
  pair_body Demo.fkind Demo.bin_distance Demo.BINS Demo.BIT_INFO
    (Demo.ordered Demo.far) dm_far 20 1 0 1 ∅ = raise (KeyError (str "HuP")) /\
  (exists k, Demo.BIT_INFO !! k = None /\
             Demo.encode Demo.far true 1 = raise (KeyError k)) /\
  triple_body Demo.fkind Demo.bin_distance Demo.BINS Demo.BIT_INFO
    (Demo.ordered Demo.far) dm_far 20 [(0, 0, 0)] 0 1 2 ∅ =
    raise (KeyError (str "PHRduu")) /\
  -2 <= 1 /\
  (exists k, Demo.BIT_INFO !! k = None /\
             Demo.encode Demo.far false 1 = raise (KeyError k)) /\
  Demo.encode Demo.P3 true 0 = inr (list_to_set [0; 1; 2; 4; 7; 10; 12]%N) /\
  (exists n, Demo.BIT_INFO !! str "HdR" = Some n /\
             n ∈ (list_to_set [0; 1; 2; 4; 7; 10; 12]%N : gset N)) /\
  (exists n, Demo.BIT_INFO !! str "HRPbbd" = Some n /\
             n ∈ (list_to_set [0; 1; 2; 4; 7; 10; 12]%N : gset N)).
Proof.
  assert (calculate_distance_matrix Demo.distance (Demo.ordered Demo.far) = ret dm_far)
    as Hdm by reflexivity.
  assert (0 < 1)%nat as Hab by lia.
  assert (0 < 2)%nat as Hac by lia.
  assert (0 < 1 < 2)%nat as Habc by lia.
  assert (Demo.BIT_INFO !! str "HuP" = None) as Hpair by (vm_compute; reflexivity).
  assert (Demo.BIT_INFO !! str "PHRduu" = None) as Htriple
    by (vm_compute; reflexivity).
  assert (-2 <= 1) as Hf by lia.
  assert (Demo.encode Demo.P3 true 0 =
          inr (list_to_set [0; 1; 2; 4; 7; 10; 12]%N)) as Hrun
    by (vm_compute; reflexivity).
  destruct (base_key_unchecked Demo.fkind Demo.distance Demo.bin_distance Demo.BINS
            Demo.BIT_INFO (fun d => Demo.bin_distance_bound d Demo.BINS)
            Demo.BINS_letters Demo.far 1) as [Hp Ht].
  destruct (Hp 0%nat 1%nat _ _ Hab eq_refl eq_refl) as (_ & Hp1 & _ & Hp2).
  destruct (Ht false 0%nat 1%nat 2%nat _ _ _ Habc eq_refl eq_refl eq_refl)
    as (_ & Ht1 & _ & Ht2).
  destruct (base_key_unchecked Demo.fkind Demo.distance Demo.bin_distance Demo.BINS
            Demo.BIT_INFO (fun d => Demo.bin_distance_bound d Demo.BINS)
            Demo.BINS_letters Demo.P3 0) as [Hp' Ht'].
  destruct (Hp' 0%nat 2%nat _ _ Hac eq_refl eq_refl) as (_ & _ & Hp3 & _).
  destruct (Ht' true 0%nat 1%nat 2%nat _ _ _ Habc eq_refl eq_refl eq_refl)
    as (_ & _ & Ht3 & _).
  split; [exact Hdm|]. split; [exact Hab|]. split; [exact Habc|].
  split; [reflexivity|]. split; [reflexivity|]. split; [reflexivity|].
  split; [reflexivity|].
  split; [exact Hpair|]. split; [exact Htriple|].
  split; [evaluated (Hp1 dm_far 1 ∅ Hdm)|]. split; [exact (Hp2 Hpair)|].
  split; [evaluated (Ht1 dm_far [(0, 0, 0)] ∅ Hdm)|]. split; [exact Hf|].
  split; [exact (Ht2 Hf Htriple)|].
  split; [exact Hrun|]. split; [exact (Hp3 _ Hrun)|]. exact (Ht3 _ Hrun).
Defined.

(** * The further properties on the instance *)

Lemma from_pharmacophore_success_iff_witness :
  (forall d, (Demo.bin_distance d Demo.BINS <= length Demo.BINS)%nat) /\
  Z.of_nat (length Demo.BINS) + 97 < 1114112 /\
  (Demo.encode Demo.P3 true 0 = inr (list_to_set [0; 1; 2; 4; 7; 10; 12]%N) <->
   -2 <= 0 /\
   (forall key,
       ret key ∈ all_items Demo.fkind Demo.distance Demo.bin_distance Demo.BINS
                   (Demo.ordered Demo.P3) true 0 ->
       exists i, Demo.BIT_INFO !! key = Some i /\ (i < 2 ^ 31)%N) /\
   (forall i,
       i ∈ (list_to_set [0; 1; 2; 4; 7; 10; 12]%N : gset N) <->
       exists key,
         ret key ∈ all_items Demo.fkind Demo.distance Demo.bin_distance Demo.BINS
                     (Demo.ordered Demo.P3) true 0 /\
         Demo.BIT_INFO !! key = Some i)) /\
  Demo.encode Demo.P3 true 0 = inr (list_to_set [0; 1; 2; 4; 7; 10; 12]%N).
Proof.
  split; [exact (fun d => Demo.bin_distance_bound d Demo.BINS)|].
  split; [exact Demo.BINS_letters|].
  split; [|vm_compute; reflexivity].
  exact (from_pharmacophore_success_iff Demo.fkind Demo.distance Demo.bin_distance Demo.BINS
            Demo.BIT_INFO (fun d => Demo.bin_distance_bound d Demo.BINS)
            Demo.BINS_letters Demo.P3 true 0
           (list_to_set [0; 1; 2; 4; 7; 10; 12]%N)).
Defined.

Lemma zero_fuzz_adds_nothing_witness :
  calculate_distance_matrix Demo.distance l3 = ret dm3 /\
  l3 !! 0%nat = Some (Demo.Feature LIPO 0) /\
  l3 !! 1%nat = Some (Demo.Feature POSC 15) /\
  l3 !! 2%nat = Some (Demo.Feature AROM 30) /\
  fuzzy_offsets 0 = ret [(0, 0, 0)] /\
  pair_body Demo.fkind Demo.bin_distance Demo.BINS Demo.BIT_INFO l3 dm3 20
    (pair_fuzzy_factor 0) 0 1 ∅ = add_bit Demo.BIT_INFO (str "HbP") ∅ /\
  triple_body Demo.fkind Demo.bin_distance Demo.BINS Demo.BIT_INFO l3 dm3 20
    [(0, 0, 0)] 0 1 2 ∅ = add_bit Demo.BIT_INFO (str "HRPbbd") ∅.
Proof.
  assert (calculate_distance_matrix Demo.distance l3 = ret dm3) as Hdm
    by reflexivity.
  split; [exact Hdm|]. split; [reflexivity|]. split; [reflexivity|].
  split; [reflexivity|].
  exact (zero_fuzz_adds_nothing Demo.fkind Demo.distance Demo.bin_distance
           Demo.BINS Demo.BIT_INFO (fun d => Demo.bin_distance_bound d Demo.BINS)
           Demo.BINS_letters l3 dm3 0%nat 1%nat 2%nat _ _ _ ∅
           Hdm eq_refl eq_refl eq_refl).
Defined.

Lemma triple_keys_shape_witness :
  Demo.encode Demo.P3 false (-2) =
    inr (list_to_set [12; 13; 14; 15; 16; 17; 18]%N) /\
  14%N ∈ (list_to_set [12; 13; 14; 15; 16; 17; 18]%N : gset N) /\
  ((false = true /\
    exists key, (length key = 1 \/ length key = 3)%nat /\
                Demo.BIT_INFO !! key = Some 14%N) \/
   exists (a b c : nat) (x y z : Demo.feature) (d0 d1 d2 : obs),
     (a < b < c)%nat /\
     Demo.ordered Demo.P3 !! a = Some x /\ Demo.ordered Demo.P3 !! b = Some y /\
     Demo.ordered Demo.P3 !! c = Some z /\
     Demo.BIT_INFO !! [ id d0; id d1; id d2;
                        bin_char (bin d0); bin_char (bin d1); bin_char (bin d2) ]
       = Some 14%N /\
     [id d0; id d1; id d2] ≡ₚ
       [FEATURE2BIT (Demo.fkind x); FEATURE2BIT (Demo.fkind y);
        FEATURE2BIT (Demo.fkind z)] /\
     0 <= bin d0 <= bin d1 /\ bin d1 <= bin d2 <= 20 /\
     obs_le d0 d1 /\ obs_le d1 d2).
Proof.
  assert (Demo.encode Demo.P3 false (-2) =
          inr (list_to_set [12; 13; 14; 15; 16; 17; 18]%N)) as Hrun
    by (vm_compute; reflexivity).
  assert (14%N ∈ (list_to_set [12; 13; 14; 15; 16; 17; 18]%N : gset N)) as Hin
    by (by vm_compute).
  split; [exact Hrun|]. split; [exact Hin|].
  exact (triple_keys_shape Demo.fkind Demo.distance Demo.bin_distance Demo.BINS
            Demo.BIT_INFO (fun d => Demo.bin_distance_bound d Demo.BINS)
            Demo.BINS_letters Demo.P3 false (-2) _ 14%N Hrun Hin).
Defined.

Lemma subs_only_adds_bits_witness :
  Demo.encode Demo.P3 true 0 = inr (list_to_set [0; 1; 2; 4; 7; 10; 12]%N) /\
  exists fp', Demo.encode Demo.P3 false 0 = inr fp' /\
              fp' ⊆ list_to_set [0; 1; 2; 4; 7; 10; 12]%N.
Proof.
  assert (Demo.encode Demo.P3 true 0 = inr (list_to_set [0; 1; 2; 4; 7; 10; 12]%N))
    as Henc by (vm_compute; reflexivity).
  split; [exact Henc|].
  exact (subs_only_adds_bits Demo.fkind Demo.distance Demo.bin_distance Demo.BINS
           Demo.BIT_INFO Demo.P3 0 _ Henc).
Defined.

Lemma more_fuzz_only_adds_bits_witness :
  fuzz_within 0 (-2) /\
  Demo.encode Demo.P3 true (-2) = inr (list_to_set (N.of_nat <$> seq 0 19)) /\
  exists fp, Demo.encode Demo.P3 true 0 = inr fp /\
             fp ⊆ list_to_set (N.of_nat <$> seq 0 19).
Proof.
  assert (fuzz_within 0 (-2)) as Hw by (right; right; right; split; reflexivity).
  assert (Demo.encode Demo.P3 true (-2) = inr (list_to_set (N.of_nat <$> seq 0 19)))
    as Henc by (vm_compute; reflexivity).
  split; [exact Hw|]. split; [exact Henc|].
  exact (more_fuzz_only_adds_bits Demo.fkind Demo.distance Demo.bin_distance
           Demo.BINS Demo.BIT_INFO Demo.P3 true 0 (-2) _ Hw Henc).
Defined.

Lemma invalid_fuzzy_factor_raises_witness :
  -3 < -2 /\
  Demo.encode Demo.P3 false (-3) = raise (ValueError "Invalid fuzzy_factor") /\
  Demo.encode Demo.P3 true (-3) =
    (bits <- emit_all Demo.BIT_INFO
               (single_items Demo.fkind
                  (Demo.ordered Demo.P3) ++
                pairs_items Demo.fkind Demo.distance Demo.bin_distance Demo.BINS 1
                  (Demo.ordered Demo.P3)) ∅ ;;
     raise (ValueError "Invalid fuzzy_factor")) /\
  forall fp, Demo.encode Demo.P3 true (-3) <> inr fp.
Proof.
  assert (-3 < -2) as Hf by lia.
  split; [exact Hf|].
  exact (invalid_fuzzy_factor_raises Demo.fkind Demo.distance Demo.bin_distance
           Demo.BINS Demo.BIT_INFO Demo.P3 true (-3) Hf).
Defined.

Lemma few_features_no_triples_witness :
  (length [Demo.Feature LIPO 0; Demo.Feature POSC 15] < 3)%nat /\
  -2 <= 1 /\
  Demo.encode [Demo.Feature LIPO 0; Demo.Feature POSC 15] false 1 = ret ∅ /\
  Demo.encode [] true 1 = ret ∅.
Proof.
  assert (length [Demo.Feature LIPO 0; Demo.Feature POSC 15] < 3)%nat as Hlen
    by (simpl; lia).
  assert (-2 <= 1) as Hf by lia.
  split; [exact Hlen|]. split; [exact Hf|].
  exact (few_features_no_triples Demo.fkind Demo.distance Demo.bin_distance
           Demo.BINS Demo.BIT_INFO _ true 1 Hlen Hf).
Defined.

(** A translation of the features along the line. *)
Definition shift (a : Demo.feature) : Demo.feature :=
  Demo.Feature (Demo.fkind a) (Demo.pos a + 5).

Lemma from_pharmacophore_rigid_motion_witness :
  (forall x, Demo.fkind (shift x) = Demo.fkind x) /\
  (forall x y, Demo.distance (shift x) (shift y) = Demo.distance x y) /\
  Demo.encode (shift <$> Demo.P3) true 0 = Demo.encode Demo.P3 true 0.
Proof.
  assert (forall x, Demo.fkind (shift x) = Demo.fkind x) as Hkind
    by reflexivity.
  assert (forall x y, Demo.distance (shift x) (shift y) = Demo.distance x y)
    as Hdist by (intros x y; unfold Demo.distance, shift; simpl; f_equal; lia).
  split; [exact Hkind|]. split; [exact Hdist|].
  exact (from_pharmacophore_rigid_motion Demo.fkind Demo.distance
           Demo.bin_distance Demo.BINS Demo.BIT_INFO shift Demo.P3 true 0
           Hkind Hdist).
Defined.

Lemma dictionary_extension_witness :
  delete (str "HbH") Demo.BIT_INFO ⊆ Demo.BIT_INFO /\
  from_pharmacophore Demo.fkind Demo.distance Demo.bin_distance Demo.BINS
    (delete (str "HbH") Demo.BIT_INFO) Demo.P3 true 0 =
    inr (list_to_set [0; 1; 2; 4; 7; 10; 12]%N) /\
  Demo.encode Demo.P3 true 0 = inr (list_to_set [0; 1; 2; 4; 7; 10; 12]%N).
Proof.
  assert (delete (str "HbH") Demo.BIT_INFO ⊆ Demo.BIT_INFO) as Hsub
    by apply delete_subseteq.
  assert (from_pharmacophore Demo.fkind Demo.distance Demo.bin_distance Demo.BINS
            (delete (str "HbH") Demo.BIT_INFO) Demo.P3 true 0 =
          inr (list_to_set [0; 1; 2; 4; 7; 10; 12]%N)) as Henc
    by (vm_compute; reflexivity).
  split; [exact Hsub|]. split; [exact Henc|].
  exact (dictionary_extension Demo.fkind Demo.distance Demo.bin_distance Demo.BINS
           _ Demo.BIT_INFO Demo.P3 true 0 _ Hsub Henc).
Defined.

Lemma fuzzy_offsets_no_repeat_witness :
  fuzzy_offsets (-2) = ret
    [(0, 0, 0); (-1, 0, 0); (1, 0, 0); (0, -1, 0); (0, 1, 0); (0, 0, -1); (0, 0, 1)] /\
  -2 <= -2 /\
  NoDup [(0, 0, 0); (-1, 0, 0); (1, 0, 0); (0, -1, 0); (0, 1, 0); (0, 0, -1); (0, 0, 1)] /\
  [(0, 0, 0); (-1, 0, 0); (1, 0, 0); (0, -1, 0); (0, 1, 0); (0, 0, -1); (0, 0, 1)] <> [] /\
  ((0, 0, 0) ∈ [(0, 0, 0); (-1, 0, 0); (1, 0, 0); (0, -1, 0); (0, 1, 0); (0, 0, -1);
                (0, 0, 1)] <-> -2 <> -1).
Proof.
  split; [reflexivity|].
  exact (fuzzy_offsets_no_repeat (-2) _ eq_refl).
Defined.

(** * A concrete fragment

    Atoms on a line, named by their position; distances and radii in
    tenths of an ångström.  The parent has the atoms 0, 1 and 2, and a
    hydrogen at 5 bonded to atom 0 that the parent does not list; the
    molecule names the atoms 0 and 1; the model has a residue near the
    fragment and one far from it. *)
Module DemoFragment.

Definition distance_to (a b : Z) : Z := Z.abs (a - b).
Definition residue_atoms (residue : list Z) : list Z := residue.
Definition strip (s : string) : string := s.
Definition name (a : Z) : string :=
  if a =? 0 then "C1" else if a =? 1 then "O1" else if a =? 2 then "N1" else "H1".
Definition element (a : Z) : string := if a =? 5 then "H" else "C".
Definition bonded_atoms (a : Z) : list Z := if a =? 0 then [1; 5] else [].

Definition fragment : @Fragment.Fragment Z (list Z) nat :=
  {| Fragment.parent_atoms := [0; 1; 2];
     Fragment.parent_model := Some [[10; 11]; [100]];
     Fragment.parent_molecule_id := 7%nat;
     Fragment.parent_name := "LIG";
     Fragment.molecule :=
       [ Fragment.RdkitAtom (Some "C1") "C"; Fragment.RdkitAtom (Some "O1") "O";
         Fragment.RdkitAtom None "H" ] |}.

(** The same fragment of a ligand that is in no model. *)
Definition orphan : @Fragment.Fragment Z (list Z) nat :=
  {| Fragment.parent_atoms := Fragment.parent_atoms fragment;
     Fragment.parent_model := None;
     Fragment.parent_molecule_id := Fragment.parent_molecule_id fragment;
     Fragment.parent_name := Fragment.parent_name fragment;
     Fragment.molecule := Fragment.molecule fragment |}.

Definition atoms : gset Z :=
  Fragment.atoms strip name element bonded_atoms fragment.

Definition site (radius : Z) : M (@Fragment.Site Z nat _ _) :=
  Fragment.site Z.ltb 9999 distance_to residue_atoms strip name element
    bonded_atoms fragment radius.

Lemma ltb_trans (x y z : Z) : (x <? y) = true -> (y <? z) = true -> (x <? z) = true.
Proof. rewrite !Z.ltb_lt. lia. Qed.

Lemma geb_trans (x y z : Z) : (x <? y) = false -> (y <? z) = false -> (x <? z) = false.
Proof. rewrite !Z.ltb_ge. lia. Qed.

End DemoFragment.

Example demo_atoms : DemoFragment.atoms = list_to_set [0; 1; 5].
Proof. vm_compute. reflexivity. Qed.

Example demo_site_atoms :
  (s <- DemoFragment.site 12 ;; ret (Fragment.site_atoms s)) =
  ret (list_to_set [10; 11]).
Proof. vm_compute. reflexivity. Qed.

Lemma is_residue_nearby_radius_check_witness :
  (9999 <? 10000) = true /\
  Fragment.is_residue_nearby Z.ltb 9999 DemoFragment.distance_to
    DemoFragment.residue_atoms [] [10; 11] 10000 =
  raise (ValueError "Radius must be smaller than 9999.0") /\
  (9999 <? 12) = false /\
  Fragment.is_residue_nearby Z.ltb 9999 DemoFragment.distance_to
    DemoFragment.residue_atoms [] [10; 11] 12 = ret false.
Proof.
  assert ((9999 <? 10000) = true) as Hhigh by reflexivity.
  assert ((9999 <? 12) = false) as Hlow by reflexivity.
  split; [exact Hhigh|]. split.
  - exact (proj1 (is_residue_nearby_radius_check Z.ltb 9999
             DemoFragment.distance_to DemoFragment.residue_atoms [] [10; 11] 10000)
             Hhigh).
  - split; [exact Hlow|].
    exact (proj2 (proj2 (is_residue_nearby_radius_check Z.ltb 9999
             DemoFragment.distance_to DemoFragment.residue_atoms [] [10; 11] 12)
             Hlow) (or_introl eq_refl)).
Defined.

Lemma is_residue_nearby_iff_witness :
  (forall x y z, (x <? y) = true -> (y <? z) = true -> (x <? z) = true) /\
  (forall x y z, (x <? y) = false -> (y <? z) = false -> (x <? z) = false) /\
  (9999 <? 12) = false /\
  exists nearby,
    Fragment.is_residue_nearby Z.ltb 9999 DemoFragment.distance_to
      DemoFragment.residue_atoms [0; 1; 5] [10; 11] 12 = ret nearby /\
    (nearby = true <->
     exists a b, a ∈ [0; 1; 5] /\ b ∈ DemoFragment.residue_atoms [10; 11] /\
                 (DemoFragment.distance_to a b <? 12) = true).
Proof.
  assert ((9999 <? 12) = false) as Hlow by reflexivity.
  split; [exact DemoFragment.ltb_trans|]. split; [exact DemoFragment.geb_trans|].
  split; [exact Hlow|].
  exact (is_residue_nearby_iff Z.ltb 9999 DemoFragment.distance_to
           DemoFragment.residue_atoms DemoFragment.ltb_trans DemoFragment.geb_trans
           [0; 1; 5] [10; 11] 12 Hlow).
Defined.

Lemma site_radius_check_witness :
  (9999 <? 10000) = true /\
  Fragment.parent_model DemoFragment.fragment = Some [[10; 11]; [100]] /\
  [[10; 11]; [100]] <> @nil (list Z) /\
  DemoFragment.site 10000 = raise (ValueError "Radius must be smaller than 9999.0").
Proof.
  assert ((9999 <? 10000) = true) as Hhigh by reflexivity.
  assert (Fragment.parent_model DemoFragment.fragment = Some [[10; 11]; [100]])
    as Hm by reflexivity.
  assert ([[10; 11]; [100]] <> @nil (list Z)) as Hres by discriminate.
  split; [exact Hhigh|]. split; [exact Hm|]. split; [exact Hres|].
  exact (proj2 (site_radius_check Z.ltb 9999 DemoFragment.distance_to
           DemoFragment.residue_atoms DemoFragment.strip DemoFragment.name
           DemoFragment.element DemoFragment.bonded_atoms DemoFragment.fragment
           10000) _ Hhigh Hm Hres).
Defined.

Lemma site_atoms_iff_witness :
  (forall x y z, (x <? y) = true -> (y <? z) = true -> (x <? z) = true) /\
  (forall x y z, (x <? y) = false -> (y <? z) = false -> (x <? z) = false) /\
  Fragment.parent_model DemoFragment.fragment = Some [[10; 11]; [100]] /\
  (9999 <? 12) = false /\
  (exists s,
    DemoFragment.site 12 = ret s /\
    Fragment.molecule_atoms (Fragment.ligand s) = DemoFragment.atoms /\
    Fragment.molecule_id (Fragment.ligand s) = 7%nat /\
    Fragment.molecule_name (Fragment.ligand s) = "LIG"%string /\
    forall x, x ∈ Fragment.site_atoms s <->
      exists residue,
        residue ∈ [[10; 11]; [100]] /\
        within Z.ltb DemoFragment.distance_to DemoFragment.residue_atoms
          DemoFragment.strip DemoFragment.name DemoFragment.element
          DemoFragment.bonded_atoms DemoFragment.fragment 12 residue /\
        x ∈ DemoFragment.residue_atoms residue) /\
  Fragment.parent_model DemoFragment.orphan = None /\
  Fragment.site Z.ltb 9999 DemoFragment.distance_to DemoFragment.residue_atoms
    DemoFragment.strip DemoFragment.name DemoFragment.element
    DemoFragment.bonded_atoms DemoFragment.orphan 12 = raise AttributeError.
Proof.
  assert ((9999 <? 12) = false) as Hlow by reflexivity.
  assert (Fragment.parent_model DemoFragment.fragment = Some [[10; 11]; [100]])
    as Hm by reflexivity.
  assert (Fragment.parent_model DemoFragment.orphan = None) as Hnone
    by reflexivity.
  split; [exact DemoFragment.ltb_trans|]. split; [exact DemoFragment.geb_trans|].
  split; [exact Hm|]. split; [exact Hlow|].
  split.
  - exact (proj1 (site_atoms_iff Z.ltb 9999 DemoFragment.distance_to
             DemoFragment.residue_atoms DemoFragment.strip DemoFragment.name
             DemoFragment.element DemoFragment.bonded_atoms
             DemoFragment.ltb_trans DemoFragment.geb_trans
             DemoFragment.fragment 12) _ Hm Hlow).
  - split; [exact Hnone|].
    exact (proj2 (site_atoms_iff Z.ltb 9999 DemoFragment.distance_to
             DemoFragment.residue_atoms DemoFragment.strip DemoFragment.name
             DemoFragment.element DemoFragment.bonded_atoms
             DemoFragment.ltb_trans DemoFragment.geb_trans
             DemoFragment.orphan 12) Hnone).
Defined.
